(** * inferrouter: quota reservation, health tracking, candidate
      filtering, policies, the attempt loop and the stream wrapper

    A shallow embedding of the routing core of [ineyio/inferrouter].
    Go packages become modules, structs become records, maps with string
    keys become [gmap string _], [int64] values are [Z] with the
    wrap-around written out, [float64] values are primitive binary64
    floats, and the wall clock, the UUID generator and the providers are
    explicit inputs of the operations that consult them. *)

From Stdlib Require Import ZArith List Bool Lia Permutation Sorted.
From Stdlib Require Import Floats.
From stdpp Require Import gmap strings list fin_maps sorting.

Local Open Scope string_scope.
Local Open Scope Z_scope.

(** ** Machine integers *)

Module Int64.

Definition min_int : Z := - 2 ^ 63.
Definition max_int : Z := 2 ^ 63 - 1.

(** Two's complement wrap-around of Go's [int64] arithmetic. *)
Definition wrap (z : Z) : Z := (z + 2 ^ 63) mod 2 ^ 64 - 2 ^ 63.

Definition add (a b : Z) : Z := wrap (a + b).
Definition sub (a b : Z) : Z := wrap (a - b).

Definition in_range (z : Z) : Prop := min_int <= z <= max_int.

End Int64.

(** ** Wall clock

    A [time.Time] is the number of nanoseconds since the Unix epoch, in
    UTC.  Every operation that calls [time.Now()] takes the reading as an
    argument [now]; one reading is used per operation. *)

Module Time.

Definition Time := Z.
Definition Duration := Z.

Definition Nanosecond : Duration := 1.
Definition Millisecond : Duration := 1000000.
Definition Second : Duration := 1000000000.
Definition Minute : Duration := 60 * Second.
Definition Day : Duration := 86400 * Second.

Definition After (t u : Time) : bool := u <? t.
Definition Equal (t u : Time) : bool := t =? u.
Definition Add (t : Time) (d : Duration) : Time := t + d.
Definition Since (now t : Time) : Duration := now - t.

End Time.

(** ** errors.go: sentinels, wrapping and classification *)

Module Errors.

Inductive sentinel :=
| ErrNoCandidates
| ErrNoFreeQuota
| ErrQuotaExceeded
| ErrRateLimited
| ErrAuthFailed
| ErrInvalidRequest
| ErrProviderUnavailable
| ErrModelNotFound
| ErrAllFailed
| EOF.                       (* io.EOF *)

Definition sentinel_eqb (a b : sentinel) : bool :=
  match a, b with
  | ErrNoCandidates, ErrNoCandidates
  | ErrNoFreeQuota, ErrNoFreeQuota
  | ErrQuotaExceeded, ErrQuotaExceeded
  | ErrRateLimited, ErrRateLimited
  | ErrAuthFailed, ErrAuthFailed
  | ErrInvalidRequest, ErrInvalidRequest
  | ErrProviderUnavailable, ErrProviderUnavailable
  | ErrModelNotFound, ErrModelNotFound
  | ErrAllFailed, ErrAllFailed
  | EOF, EOF => true
  | _, _ => false
  end.

(** A Go [error] value, as [errors.Is] tells values apart: a sentinel;
    an [fmt.Errorf] message without [%w] (nothing to unwrap); an
    [fmt.Errorf] with one [%w]; an error whose [Unwrap] returns a
    slice, which is what [errors.Join] and an [fmt.Errorf] with several
    [%w] build; a value of an error type of another package, with an
    [Is] method of its own ([isTarget], asked about the sentinels) and an
    [Unwrap] that returns nothing, one error or a slice ([unwrap]); or
    a [*RouterError], whose [Unwrap] yields [Err]. *)
#[warnings="-register-all"] Inductive error :=
| Sentinel (s : sentinel)
| Errorf (msg : string)
| Wrapf (msg : string) (inner : error)
| Join (errs : list error)
| Custom (msg : string) (isTarget : sentinel -> bool) (unwrap : list error)
| RouterError (Err : error) (Provider AccountID Model : string) (Attempts : nat).

(** [errors.Is err target] for a sentinel target: compare by identity,
    ask the value's own [Is] method when it has one, then go on with
    what [Unwrap] returns, depth first through a slice. *)
Fixpoint Is (err : error) (target : sentinel) : bool :=
  match err with
  | Sentinel s => sentinel_eqb s target
  | Errorf _ => false
  | Wrapf _ inner => Is inner target
  | Join errs => existsb (fun e => Is e target) errs
  | Custom _ isTarget unwrap => isTarget target || existsb (fun e => Is e target) unwrap
  | RouterError inner _ _ _ _ => Is inner target
  end.

Definition IsFatal (err : error) : bool :=
  Is err ErrAuthFailed || Is err ErrInvalidRequest.

Definition IsRetryable (err : error) : bool :=
  Is err ErrRateLimited || Is err ErrProviderUnavailable || Is err ErrQuotaExceeded.

End Errors.

(** ** quota.go: units and reservations *)

Module Quota.

(** [type QuotaUnit string] *)
Definition QuotaUnit := string.
Definition QuotaTokens : QuotaUnit := "tokens".
Definition QuotaRequests : QuotaUnit := "requests".
Definition QuotaDollars : QuotaUnit := "dollars".

Record Reservation := {
  ID : string;
  AccountID : string;
  Amount : Z;
  Unit : QuotaUnit
}.

(** The zero value [Reservation{}] returned next to an error. *)
Definition zeroReservation : Reservation :=
  {| ID := ""; AccountID := ""; Amount := 0; Unit := "" |}.

End Quota.

(** ** quota/memory.go: the in-memory quota store *)

Module MemoryQuotaStore.
Import Errors Quota.

Record accountQuota := {
  DailyLimit : Z;
  Used : Z;
  Reserved : Z;
  QUnit : QuotaUnit;
  ResetAt : Time.Time
}.

(** [accounts] maps an account id to its row, [seen] is the
    idempotency ledger.  The mutex is not modelled: every operation
    below is one critical section. *)
Record t := {
  accounts : gmap string accountQuota;
  seen : gmap string bool
}.

Definition NewMemoryQuotaStore : t :=
  {| accounts := ∅; seen := ∅ |}.

(** [time.Date(y, m, d+1, 0, 0, 0, 0, time.UTC)]: the start of the UTC
    day after [now]. *)
Definition nextMidnightUTC (now : Time.Time) : Time.Time :=
  (now / Time.Day + 1) * Time.Day.

Definition SetQuota (s : t) (now : Time.Time)
    (accountID : string) (dailyLimit : Z) (unit : QuotaUnit) : t :=
  {| accounts :=
       <[accountID := {| DailyLimit := dailyLimit; Used := 0; Reserved := 0;
                         QUnit := unit; ResetAt := nextMidnightUTC now |}]>
         (accounts s);
     seen := seen s |}.

Definition maybeReset (now : Time.Time) (aq : accountQuota) : accountQuota :=
  if Time.After now (ResetAt aq)
  then {| DailyLimit := DailyLimit aq; Used := 0; Reserved := 0;
          QUnit := QUnit aq; ResetAt := nextMidnightUTC now |}
  else aq.

(** [s.seen[key]]: a missing key reads as [false]. *)
Definition seenKey (s : t) (key : string) : bool :=
  default false (seen s !! key).

(** [%q] of the key (escaping inside the key is not modelled). *)
Definition quote (k : string) : string :=
  String (Ascii.ascii_of_nat 34) (k ++ String (Ascii.ascii_of_nat 34) EmptyString).

Definition duplicateKey (key : string) : error :=
  Errorf ("inferrouter: duplicate idempotency key " ++ quote key).

(** [Reserve]; [uuid] is the value [uuid.New().String()] returns.
    The row is held by pointer, so the reset done by [maybeReset]
    stays in the store also when the call then fails. *)
Definition Reserve (s : t) (now : Time.Time) (uuid : string)
    (accountID : string) (amount : Z) (unit : QuotaUnit) (idempotencyKey : string)
    : (Reservation + error) * t :=
  if negb (String.eqb idempotencyKey "") && seenKey s idempotencyKey
  then (inr (duplicateKey idempotencyKey), s)
  else
    match accounts s !! accountID with
    | None =>
        (inl {| ID := uuid; AccountID := accountID; Amount := amount; Unit := unit |}, s)
    | Some aq0 =>
        let aq := maybeReset now aq0 in
        let available := Int64.sub (Int64.sub (DailyLimit aq) (Used aq)) (Reserved aq) in
        if available <? amount
        then (inr (Sentinel ErrQuotaExceeded),
              {| accounts := <[accountID := aq]> (accounts s); seen := seen s |})
        else
          let aq' := {| DailyLimit := DailyLimit aq; Used := Used aq;
                        Reserved := Int64.add (Reserved aq) amount;
                        QUnit := QUnit aq; ResetAt := ResetAt aq |} in
          (inl {| ID := uuid; AccountID := accountID; Amount := amount; Unit := unit |},
           {| accounts := <[accountID := aq']> (accounts s);
              seen := if String.eqb idempotencyKey "" then seen s
                      else <[idempotencyKey := true]> (seen s) |})
    end.

Definition Commit (s : t) (res : Reservation) (actualAmount : Z) : option error * t :=
  match accounts s !! AccountID res with
  | None => (None, s)
  | Some aq =>
      (None,
       {| accounts :=
            <[AccountID res :=
                {| DailyLimit := DailyLimit aq;
                   Used := Int64.add (Used aq) actualAmount;
                   Reserved := Int64.sub (Reserved aq) (Amount res);
                   QUnit := QUnit aq; ResetAt := ResetAt aq |}]> (accounts s);
          seen := seen s |})
  end.

Definition Rollback (s : t) (res : Reservation) : option error * t :=
  match accounts s !! AccountID res with
  | None => (None, s)
  | Some aq =>
      (None,
       {| accounts :=
            <[AccountID res :=
                {| DailyLimit := DailyLimit aq; Used := Used aq;
                   Reserved := Int64.sub (Reserved aq) (Amount res);
                   QUnit := QUnit aq; ResetAt := ResetAt aq |}]> (accounts s);
          seen := seen s |})
  end.

(** [Remaining] reads the row as it is stored; the clock reading is an
    argument like everywhere else, and the code does not consult it. *)
Definition Remaining (s : t) (now : Time.Time) (accountID : string) : Z * option error :=
  match accounts s !! accountID with
  | None => (0, None)
  | Some aq =>
      let available := Int64.sub (Int64.sub (DailyLimit aq) (Used aq)) (Reserved aq) in
      if available <? 0 then (0, None) else (available, None)
  end.

End MemoryQuotaStore.

(** ** Runs of store operations, and the predicates the theorems use *)

Module QuotaRuns.
Import Errors Quota MemoryQuotaStore.

(** The arguments of one [Reserve] call together with the clock
    reading and the UUID drawn during the call. *)
Record reserveCall := {
  c_now : Time.Time;
  c_uuid : string;
  c_account : string;
  c_amount : Z;
  c_unit : QuotaUnit;
  c_key : string
}.

Definition doReserve (s : t) (c : reserveCall) : (Reservation + error) * t :=
  Reserve s (c_now c) (c_uuid c) (c_account c) (c_amount c) (c_unit c) (c_key c).

(** The calls of a list, one after the other. *)
Fixpoint runReserves (s : t) (calls : list reserveCall)
    : list (Reservation + error) * t :=
  match calls with
  | [] => ([], s)
  | c :: rest =>
      let '(r, s1) := doReserve s c in
      let '(rs, s2) := runReserves s1 rest in
      (r :: rs, s2)
  end.

Definition succeeded (r : Reservation + error) : bool :=
  match r with inl _ => true | inr _ => false end.

(** The invariant of a quota row. *)
Definition row_inv (q : accountQuota) : Prop :=
  0 <= Used q /\ 0 <= Reserved q /\ Used q + Reserved q <= DailyLimit q.

(** Every row satisfies the invariant and holds an [int64] limit. *)
Definition store_inv (s : t) : Prop :=
  forall a q, accounts s !! a = Some q ->
    row_inv q /\ DailyLimit q <= Int64.max_int.

(** Idempotency keys as the router supplies them: the non-empty ones
    are new to the ledger and pairwise distinct. *)
Definition fresh_keys (s : t) (keys : list string) : Prop :=
  NoDup (List.filter (fun k => negb (String.eqb k "")) keys) /\
  Forall (fun k => k <> "" -> seenKey s k = false) keys.

(** What the [i]-th of a run of [Reserve(account, 1)] calls returns
    against a fresh row of limit [N]. *)
Definition expectedResult (N : Z) (i : nat) (c : reserveCall) : Reservation + error :=
  if Z.of_nat i <? N
  then inl {| ID := c_uuid c; AccountID := c_account c; Amount := 1; Unit := c_unit c |}
  else inr (Sentinel ErrQuotaExceeded).

End QuotaRuns.

(** ** quota/redis: the part of the Redis-backed store that [SetQuota] uses

    The server is outside the repository: its keyspace is a map from
    keys to hashes, [EXISTS] tests a key and [HSET] writes the given
    fields of a hash, creating it when absent.  Replies that report a
    transport failure are not modelled. *)

Module RedisStore.
Import Quota.

Inductive value := VInt (z : Z) | VStr (s : string).

Record Store := {
  keyPrefix : string;
  client : gmap string (gmap string value)
}.

Definition accountKey (s : Store) (accountID : string) : string :=
  keyPrefix s ++ accountID.

Definition Exists (db : gmap string (gmap string value)) (key : string) : Z :=
  match db !! key with Some _ => 1 | None => 0 end.

Definition HSet (db : gmap string (gmap string value)) (key : string)
    (fields : list (string * value)) : gmap string (gmap string value) :=
  <[key := fold_left (fun h fv => <[fst fv := snd fv]> h) fields
                     (default ∅ (db !! key))]> db.

Definition nextMidnightUTC (now : Time.Time) : Time.Time :=
  (now / Time.Day + 1) * Time.Day.

(** [time.Time.Unix()]: whole seconds since the epoch. *)
Definition Unix (t : Time.Time) : Z := t / Time.Second.

Definition SetQuota (s : Store) (now : Time.Time)
    (accountID : string) (dailyLimit : Z) (unit : QuotaUnit) : Store :=
  let key := accountKey s accountID in
  let nextMidnight := nextMidnightUTC now in
  if Exists (client s) key =? 0
  then {| keyPrefix := keyPrefix s;
          client := HSet (client s) key
                      [("daily_limit", VInt dailyLimit); ("used", VInt 0);
                       ("reserved", VInt 0); ("unit", VStr unit);
                       ("reset_at", VInt (Unix nextMidnight))] |}
  else {| keyPrefix := keyPrefix s;
          client := HSet (client s) key
                      [("daily_limit", VInt dailyLimit); ("unit", VStr unit)] |}.

(** [HGET key field] *)
Definition HGet (s : Store) (accountID field : string) : option value :=
  h ← client s !! accountKey s accountID; h !! field.

End RedisStore.

(** ** health.go: the per-account circuit breaker *)

Module Health.

Inductive HealthState := HealthHealthy | HealthUnhealthy | HealthHalfOpen.

Definition HealthState_eqb (a b : HealthState) : bool :=
  match a, b with
  | HealthHealthy, HealthHealthy
  | HealthUnhealthy, HealthUnhealthy
  | HealthHalfOpen, HealthHalfOpen => true
  | _, _ => false
  end.

Record HealthConfig := {
  FailureThreshold : Z;
  FailureWindow : Time.Duration;
  UnhealthyPeriod : Time.Duration
}.

Definition DefaultHealthConfig : HealthConfig :=
  {| FailureThreshold := 3;
     FailureWindow := 5 * Time.Minute;
     UnhealthyPeriod := 30 * Time.Second |}.

Record accountHealth := {
  state : HealthState;
  failures : list Time.Time;
  unhealthyAt : Time.Time
}.

Record HealthTracker := {
  cfg : HealthConfig;
  accounts : gmap string accountHealth
}.

(** The zero [time.Time] (January 1, year 1, UTC). *)
Definition zeroTime : Time.Time := -62135596800 * Time.Second.

Definition NewHealthTrackerWithConfig (c : HealthConfig) : HealthTracker :=
  {| cfg := c; accounts := ∅ |}.

Definition NewHealthTracker : HealthTracker :=
  NewHealthTrackerWithConfig DefaultHealthConfig.

Definition GetHealth (h : HealthTracker) (now : Time.Time) (accountID : string)
    : HealthState * HealthTracker :=
  match accounts h !! accountID with
  | None => (HealthHealthy, h)
  | Some ah =>
      if HealthState_eqb (state ah) HealthUnhealthy
         && (UnhealthyPeriod (cfg h) <=? Time.Since now (unhealthyAt ah))
      then (HealthHalfOpen,
            {| cfg := cfg h;
               accounts := <[accountID := {| state := HealthHalfOpen;
                                             failures := failures ah;
                                             unhealthyAt := unhealthyAt ah |}]>
                             (accounts h) |})
      else (state ah, h)
  end.

Definition getOrCreate (h : HealthTracker) (accountID : string)
    : accountHealth * HealthTracker :=
  match accounts h !! accountID with
  | Some ah => (ah, h)
  | None =>
      let ah := {| state := HealthHealthy; failures := []; unhealthyAt := zeroTime |} in
      (ah, {| cfg := cfg h; accounts := <[accountID := ah]> (accounts h) |})
  end.

Definition RecordSuccess (h : HealthTracker) (accountID : string) : HealthTracker :=
  let '(ah, h1) := getOrCreate h accountID in
  {| cfg := cfg h1;
     accounts := <[accountID := {| state := HealthHealthy; failures := [];
                                   unhealthyAt := unhealthyAt ah |}]> (accounts h1) |}.

Definition RecordFailure (h : HealthTracker) (now : Time.Time) (accountID : string)
    : HealthTracker :=
  let '(ah, h1) := getOrCreate h accountID in
  if HealthState_eqb (state ah) HealthUnhealthy then h1
  else
    let cutoff := Time.Add now (- FailureWindow (cfg h1)) in
    let valid := List.filter (fun t => Time.After t cutoff) (failures ah) in
    let failures' := (valid ++ [now])%list in
    let ah' :=
      if FailureThreshold (cfg h1) <=? Z.of_nat (length failures')
      then {| state := HealthUnhealthy; failures := failures'; unhealthyAt := now |}
      else {| state := state ah; failures := failures'; unhealthyAt := unhealthyAt ah |} in
    {| cfg := cfg h1; accounts := <[accountID := ah']> (accounts h1) |}.

(** The operations a client can apply to a tracker. *)
Inductive op :=
| OpGetHealth (now : Time.Time) (accountID : string)
| OpRecordSuccess (accountID : string)
| OpRecordFailure (now : Time.Time) (accountID : string).

Definition applyOp (h : HealthTracker) (o : op) : HealthTracker :=
  match o with
  | OpGetHealth now a => snd (GetHealth h now a)
  | OpRecordSuccess a => RecordSuccess h a
  | OpRecordFailure now a => RecordFailure h now a
  end.

(** [o] is a [RecordSuccess] or [RecordFailure] for [accountID]. *)
Definition records (accountID : string) (o : op) : bool :=
  match o with
  | OpGetHealth _ _ => false
  | OpRecordSuccess a | OpRecordFailure _ a => String.eqb a accountID
  end.

End Health.

(** ** Floating point: Go's [float64] is the primitive binary64 type *)

Module Float64.

Definition t := PrimFloat.float.

(** The conversion [float64(n)] of an integer, rounding to nearest. *)
Definition of_int (z : Z) : t :=
  SF2Prim (binary_normalize prec emax z 0 false).

Definition ltb (a b : t) : bool := PrimFloat.ltb a b.
Definition leb (a b : t) : bool := PrimFloat.leb a b.
Definition is_nan (a : t) : bool := PrimFloat.is_nan a.

End Float64.

(** ** spend.go: the per-account spend accumulator

    [today] is the value [time.Now().UTC().YearDay()] returns. *)

Module Spend.

Record SpendTracker := {
  accounts : gmap string Float64.t;
  resetDay : Z
}.

Definition NewSpendTracker (today : Z) : SpendTracker :=
  {| accounts := ∅; resetDay := today |}.

Definition checkReset (s : SpendTracker) (today : Z) : SpendTracker :=
  if negb (today =? resetDay s)
  then {| accounts := ∅; resetDay := today |}
  else s.

Definition RecordSpend (s : SpendTracker) (today : Z)
    (accountID : string) (dollars : Float64.t) : SpendTracker :=
  let s1 := checkReset s today in
  let amount := default PrimFloat.zero (accounts s1 !! accountID) in
  {| accounts := <[accountID := PrimFloat.add amount dollars]> (accounts s1);
     resetDay := resetDay s1 |}.

Definition GetSpend (s : SpendTracker) (today : Z) (accountID : string)
    : Float64.t * SpendTracker :=
  let s1 := checkReset s today in
  (default PrimFloat.zero (accounts s1 !! accountID), s1).

End Spend.
(** ** types.go, provider.go, meter.go: requests, responses and events *)

Module Message.
Record t := { Role : string; Content : string }.
End Message.

Module Usage.
Record t := { PromptTokens : Z; CompletionTokens : Z; TotalTokens : Z }.
Definition zero : t := {| PromptTokens := 0; CompletionTokens := 0; TotalTokens := 0 |}.
End Usage.

Module Auth.
Record t := { APIKey : string }.
End Auth.

Module ProviderRequest.
Record t := {
  Auth : Auth.t;
  Model : string;
  Messages : list Message.t;
  Temperature : option Float64.t;
  MaxTokens : option Z;
  TopP : option Float64.t;
  Stop : list string;
  Stream : bool
}.
End ProviderRequest.

Module ProviderResponse.
Record t := {
  ID : string;
  Content : string;
  FinishReason : string;
  Usage : Usage.t;
  Model : string
}.
End ProviderResponse.

Module Delta.
Record t := { Role : string; Content : string }.
End Delta.

Module StreamDelta.
Record t := { Index : Z; Delta : Delta.t; FinishReason : string }.
End StreamDelta.

Module StreamChunk.
Record t := {
  ID : string;
  Choices : list StreamDelta.t;
  Model : string;
  Usage : option Usage.t
}.
Definition zero : t := {| ID := ""; Choices := []; Model := ""; Usage := None |}.
End StreamChunk.

(** A provider's stream, as the router sees it: the results its [Next]
    will return, in order ([io.EOF] once they are used up), and the
    result of its [Close]. *)
Module ProviderStream.
Import Errors.

Record t := {
  pending : list (StreamChunk.t + error);
  closeErr : option error
}.

Definition Next (s : t) : (StreamChunk.t + error) * t :=
  match pending s with
  | [] => (inr (Sentinel EOF), s)
  | r :: rest => (r, {| pending := rest; closeErr := closeErr s |})
  end.

Definition Close (s : t) : option error := closeErr s.
End ProviderStream.

(** The [Provider] interface.  An adapter talks to a remote service:
    what a call returns is a function of the request and of the calls
    made to providers before it ([history], latest last, each with the
    name of the provider called). *)
Module Provider.
Import Errors.

Definition call : Type := string * ProviderRequest.t.

Record t := {
  Name : string;
  SupportsModel : string -> bool;
  ChatCompletion : list call -> ProviderRequest.t -> ProviderResponse.t + error;
  ChatCompletionStream : list call -> ProviderRequest.t -> ProviderStream.t + error
}.
End Provider.

Module ChatRequest.
Record t := {
  Model : string;
  Messages : list Message.t;
  Temperature : option Float64.t;
  MaxTokens : option Z;
  TopP : option Float64.t;
  Stream : bool;
  Stop : list string
}.
End ChatRequest.

Module Choice.
Record t := { Index : Z; Message : Message.t; FinishReason : string }.
End Choice.

Module RoutingInfo.
Record t := {
  Provider : string;
  AccountID : string;
  Model : string;
  Attempts : nat;
  Free : bool
}.
End RoutingInfo.

Module ChatResponse.
Record t := {
  ID : string;
  Choices : list Choice.t;
  Usage : Usage.t;
  Model : string;
  Routing : RoutingInfo.t
}.
End ChatResponse.

Module RouteEvent.
Record t := {
  Provider : string;
  AccountID : string;
  Model : string;
  Free : bool;
  AttemptNum : nat;
  EstimatedIn : Z
}.
End RouteEvent.

Module ResultEvent.
Import Errors.
Record t := {
  Provider : string;
  AccountID : string;
  Model : string;
  Free : bool;
  Success : bool;
  Duration : Time.Duration;
  Usage : Usage.t;
  Error : option error;
  DollarCost : Float64.t
}.
End ResultEvent.

(** What a [Meter] is told, in the order of the calls. *)
Inductive MeterEvent :=
| OnRoute (e : RouteEvent.t)
| OnResult (e : ResultEvent.t).

(** ** policy.go: candidates *)

Module Candidate.
Import Quota Health.

Record t := {
  Provider : Provider.t;
  AccountID : string;
  Auth : Auth.t;
  Model : string;
  Free : bool;
  Remaining : Z;
  QuotaUnit : Quota.QuotaUnit;
  Health : HealthState;
  CostPerToken : Float64.t;
  CostPerInputToken : Float64.t;
  CostPerOutputToken : Float64.t;
  MaxDailySpend : Float64.t;
  CurrentSpend : Float64.t
}.

Definition BlendedCost (c : t) : Float64.t :=
  if Float64.ltb 0%float (CostPerInputToken c) || Float64.ltb 0%float (CostPerOutputToken c)
  then ((CostPerInputToken c + 2 * CostPerOutputToken c) / 3)%float
  else CostPerToken c.

End Candidate.

(** ** spend.go: the cost of one request *)

Definition calculateSpend (c : Candidate.t) (usage : Usage.t) : Float64.t :=
  if Float64.ltb 0%float (Candidate.CostPerInputToken c)
     || Float64.ltb 0%float (Candidate.CostPerOutputToken c)
  then (Float64.of_int (Usage.PromptTokens usage) * Candidate.CostPerInputToken c
        + Float64.of_int (Usage.CompletionTokens usage) * Candidate.CostPerOutputToken c)%float
  else if Float64.ltb 0%float (Candidate.CostPerToken c)
  then (Float64.of_int (Usage.TotalTokens usage) * Candidate.CostPerToken c)%float
  else 0%float.

(** ** estimate.go *)

Definition EstimateTokens (messages : list Message.t) : Z :=
  Int64.add
    (fold_left
       (fun total m =>
          Int64.add (Int64.add total (Z.of_nat (String.length (Message.Content m)) / 4)) 4)
       messages 0)
    3.

(** ** config.go: the parts of the configuration the router reads *)

Module ModelRef.
Record t := { Provider : string; Model : string }.
End ModelRef.

Module ModelMapping.
Record t := { Alias : string; Models : list ModelRef.t }.
End ModelMapping.

Module AccountConfig.
Record t := {
  Provider : string;
  ID : string;
  Auth : Auth.t;
  DailyFree : Z;
  QuotaUnit : Quota.QuotaUnit;
  PaidEnabled : bool;
  MaxDailySpend : Float64.t;
  CostPerToken : Float64.t;
  CostPerInputToken : Float64.t;
  CostPerOutputToken : Float64.t
}.
End AccountConfig.

Module Config.
Record t := {
  AllowPaid : bool;
  DefaultModel : string;
  Models : list ModelMapping.t;
  Accounts : list AccountConfig.t
}.
End Config.

(** ** candidate.go: the filter *)

Definition filterCandidates (candidates : list Candidate.t) (allowPaid : bool)
    : list Candidate.t :=
  fold_left
    (fun filtered c =>
       if Health.HealthState_eqb (Candidate.Health c) Health.HealthUnhealthy then filtered
       else if negb (Candidate.Free c) && negb allowPaid then filtered
       else (filtered ++ [c])%list)
    candidates [].

(** ** policy: orderings of a candidate list *)

Module Sort.

(** The insertion sort of Go's [sort] package: the element at [i]
    moves towards the front while [less] puts it before its left
    neighbour.  [revPrefix] is the sorted prefix, nearest neighbour
    first. *)
Fixpoint insertBack {A} (less : A -> A -> bool) (x : A) (revPrefix : list A) : list A :=
  match revPrefix with
  | [] => [x]
  | y :: ys => if less x y then y :: insertBack less x ys else x :: y :: ys
  end.

(** [sort.SliceStable].  The library sorts a slice of fewer than 20
    elements by exactly this insertion sort, and a longer one by
    insertion-sorting blocks of 20 and merging them with its stable
    SymMerge; for a [less] that is a strict weak order every stable
    sort returns this same slice. *)
Definition SliceStable {A} (less : A -> A -> bool) (data : list A) : list A :=
  rev (fold_left (fun revPrefix x => insertBack less x revPrefix) data []).

End Sort.

Module FreeFirstPolicy.

Definition less (ci cj : Candidate.t) : bool :=
  if negb (Bool.eqb (Candidate.Free ci) (Candidate.Free cj)) then Candidate.Free ci
  else if Candidate.Free ci then Candidate.Remaining cj <? Candidate.Remaining ci
  else Float64.ltb (Candidate.BlendedCost ci) (Candidate.BlendedCost cj).

Definition Select (candidates : list Candidate.t) : list Candidate.t :=
  Sort.SliceStable less candidates.

End FreeFirstPolicy.

Module CostFirstPolicy.

Definition less (ci cj : Candidate.t) : bool :=
  Float64.ltb (Candidate.BlendedCost ci) (Candidate.BlendedCost cj).

Definition Select (candidates : list Candidate.t) : list Candidate.t :=
  Sort.SliceStable less candidates.

End CostFirstPolicy.

(** The router's built-in policy: free first, input order kept. *)
Module defaultFreeFirstPolicy.

Definition Select (candidates : list Candidate.t) : list Candidate.t :=
  (List.filter Candidate.Free candidates
   ++ List.filter (fun c => negb (Candidate.Free c)) candidates)%list.

End defaultFreeFirstPolicy.
(** ** The [QuotaStore] and [Policy] interfaces *)

(** A quota store with state [Q].  Each method takes the clock reading
    [now] of the call; [Reserve] also takes the UUID it draws for the
    reservation. *)
Class QuotaStore (Q : Type) := {
  qsReserve : Q -> Time.Time -> string -> string -> Z -> Quota.QuotaUnit -> string
              -> (Quota.Reservation + Errors.error) * Q;
  qsCommit : Q -> Time.Time -> Quota.Reservation -> Z -> option Errors.error * Q;
  qsRollback : Q -> Time.Time -> Quota.Reservation -> option Errors.error * Q;
  qsRemaining : Q -> Time.Time -> string -> (Z * option Errors.error) * Q
}.

#[export] Instance MemoryQuotaStore_QuotaStore : QuotaStore MemoryQuotaStore.t := {
  qsReserve s now uuid a amount unit key := MemoryQuotaStore.Reserve s now uuid a amount unit key;
  qsCommit s _ res actual := MemoryQuotaStore.Commit s res actual;
  qsRollback s _ res := MemoryQuotaStore.Rollback s res;
  qsRemaining s now a := (MemoryQuotaStore.Remaining s now a, s)
}.

(** router.go: the store used when none is configured; it allows
    everything. *)
Inductive noopQuotaStore := NoopQuotaStore.

#[export] Instance noopQuotaStore_QuotaStore : QuotaStore noopQuotaStore := {
  qsReserve s _ uuid a amount unit _ :=
    (inl {| Quota.ID := uuid; Quota.AccountID := a;
            Quota.Amount := amount; Quota.Unit := unit |}, s);
  qsCommit s _ _ _ := (None, s);
  qsRollback s _ _ := (None, s);
  qsRemaining s _ _ := ((0, None), s)
}.

(** router_test.go: a store whose [Commit] always fails. *)
Inductive failingCommitQuotaStore := FailingCommitQuotaStore.

#[export] Instance failingCommitQuotaStore_QuotaStore : QuotaStore failingCommitQuotaStore := {
  qsReserve s _ _ a amount unit _ :=
    (inl {| Quota.ID := "test"; Quota.AccountID := a;
            Quota.Amount := amount; Quota.Unit := unit |}, s);
  qsCommit s _ _ _ := (Some (Errors.Errorf "commit failed"), s);
  qsRollback s _ _ := (None, s);
  qsRemaining s _ _ := ((1000, None), s)
}.

Definition Policy := list Candidate.t -> list Candidate.t.

(** ** router.go and stream.go *)

Module Router.
Import Errors Quota Health.

Section WithStore.
Context {Q : Type} `{QuotaStore Q}.

(** Everything a request can read or change: the router's
    collaborators, the meter's record of what it was told, the
    record of provider calls, and the UUID generator and clock as
    streams of values still to be drawn.  [yearDay] is the calendar
    function [Time.YearDay] of Go's [time] package. *)
Record World := {
  quotaStore : Q;
  health : HealthTracker;
  spend : Spend.SpendTracker;
  meter : list MeterEvent;
  providerCalls : list Provider.call;
  uuids : nat -> string;
  uuidPos : nat;
  clock : nat -> Time.Time;
  clockPos : nat;
  yearDay : Time.Time -> Z
}.

Definition withQuotaStore (w : World) (q : Q) : World :=
  {| quotaStore := q; health := health w; spend := spend w; meter := meter w;
     providerCalls := providerCalls w; uuids := uuids w; uuidPos := uuidPos w;
     clock := clock w; clockPos := clockPos w; yearDay := yearDay w |}.

Definition withHealth (w : World) (h : HealthTracker) : World :=
  {| quotaStore := quotaStore w; health := h; spend := spend w; meter := meter w;
     providerCalls := providerCalls w; uuids := uuids w; uuidPos := uuidPos w;
     clock := clock w; clockPos := clockPos w; yearDay := yearDay w |}.

Definition withSpend (w : World) (s : Spend.SpendTracker) : World :=
  {| quotaStore := quotaStore w; health := health w; spend := s; meter := meter w;
     providerCalls := providerCalls w; uuids := uuids w; uuidPos := uuidPos w;
     clock := clock w; clockPos := clockPos w; yearDay := yearDay w |}.

Definition withMeter (w : World) (m : list MeterEvent) : World :=
  {| quotaStore := quotaStore w; health := health w; spend := spend w; meter := m;
     providerCalls := providerCalls w; uuids := uuids w; uuidPos := uuidPos w;
     clock := clock w; clockPos := clockPos w; yearDay := yearDay w |}.

Definition withProviderCalls (w : World) (l : list Provider.call) : World :=
  {| quotaStore := quotaStore w; health := health w; spend := spend w; meter := meter w;
     providerCalls := l; uuids := uuids w; uuidPos := uuidPos w;
     clock := clock w; clockPos := clockPos w; yearDay := yearDay w |}.

(** A computation that reads and changes the world. *)
Definition M (A : Type) : Type := World -> A * World.

Definition ret {A} (a : A) : M A := fun w => (a, w).

Definition bind {A B} (m : M A) (k : A -> M B) : M B :=
  fun w => let '(a, w1) := m w in k a w1.

Notation "'let*' x := m 'in' k" := (bind m (fun x => k))
  (at level 10, x name, m at level 100, k at level 200).
Notation "m ;;; k" := (bind m (fun _ => k))
  (at level 100, k at level 200, right associativity).

(** [uuid.New().String()] *)
Definition newUUID : M string := fun w =>
  (uuids w (uuidPos w),
   {| quotaStore := quotaStore w; health := health w; spend := spend w;
      meter := meter w; providerCalls := providerCalls w;
      uuids := uuids w; uuidPos := S (uuidPos w);
      clock := clock w; clockPos := clockPos w; yearDay := yearDay w |}).

(** [time.Now()] *)
Definition timeNow : M Time.Time := fun w =>
  (clock w (clockPos w),
   {| quotaStore := quotaStore w; health := health w; spend := spend w;
      meter := meter w; providerCalls := providerCalls w;
      uuids := uuids w; uuidPos := uuidPos w;
      clock := clock w; clockPos := S (clockPos w); yearDay := yearDay w |}).

Definition Reserve (accountID : string) (amount : Z) (unit : QuotaUnit) (key : string)
    : M (Reservation + error) :=
  let* now := timeNow in let* uuid := newUUID in
  fun w => let '(r, q) := qsReserve (quotaStore w) now uuid accountID amount unit key in
           (r, withQuotaStore w q).

Definition Commit (res : Reservation) (actual : Z) : M (option error) :=
  let* now := timeNow in
  fun w => let '(r, q) := qsCommit (quotaStore w) now res actual in
           (r, withQuotaStore w q).

Definition Rollback (res : Reservation) : M (option error) :=
  let* now := timeNow in
  fun w => let '(r, q) := qsRollback (quotaStore w) now res in
           (r, withQuotaStore w q).

Definition Remaining (accountID : string) : M (Z * option error) :=
  let* now := timeNow in
  fun w => let '(r, q) := qsRemaining (quotaStore w) now accountID in
           (r, withQuotaStore w q).

Definition GetHealth (accountID : string) : M HealthState :=
  let* now := timeNow in
  fun w => let '(st, h) := Health.GetHealth (health w) now accountID in
           (st, withHealth w h).

Definition RecordSuccess (accountID : string) : M unit :=
  fun w => (tt, withHealth w (Health.RecordSuccess (health w) accountID)).

Definition RecordFailure (accountID : string) : M unit :=
  let* now := timeNow in
  fun w => (tt, withHealth w (Health.RecordFailure (health w) now accountID)).

Definition RecordSpend (accountID : string) (dollars : Float64.t) : M unit :=
  let* now := timeNow in
  fun w => (tt, withSpend w (Spend.RecordSpend (spend w) (yearDay w now) accountID dollars)).

Definition emit (e : MeterEvent) : M unit :=
  fun w => (tt, withMeter w (meter w ++ [e])%list).

(** [c.Provider.ChatCompletion(ctx, provReq)] *)
Definition callProvider (p : Provider.t) (req : ProviderRequest.t)
    : M (ProviderResponse.t + error) :=
  fun w => (Provider.ChatCompletion p (providerCalls w) req,
            withProviderCalls w (providerCalls w ++ [(Provider.Name p, req)])%list).

(** *** candidate.go *)

Definition resolveModel (cfg : Config.t) (requestModel : string) : list ModelRef.t :=
  let model := if String.eqb requestModel "" then Config.DefaultModel cfg
               else requestModel in
  match List.find (fun m => String.eqb (ModelMapping.Alias m) model) (Config.Models cfg) with
  | Some m => ModelMapping.Models m
  | None => []
  end.

Definition modelsForAccount (refs : list ModelRef.t) (acc : AccountConfig.t)
    (prov : Provider.t) (requestModel : string) (cfg : Config.t) : list string :=
  if (0 <? length refs)%nat
  then map ModelRef.Model
         (List.filter (fun ref => String.eqb (ModelRef.Provider ref)
                                             (AccountConfig.Provider acc)) refs)
  else
    let model := if String.eqb requestModel "" then Config.DefaultModel cfg
                 else requestModel in
    if negb (String.eqb model "") && Provider.SupportsModel prov model
    then [model] else [].

Fixpoint candidatesForModels (acc : AccountConfig.t) (prov : Provider.t)
    (models : list string) : M (list Candidate.t) :=
  match models with
  | [] => ret []
  | model :: rest =>
      let* r := Remaining (AccountConfig.ID acc) in
      let remaining := fst r in
      let free := (0 <? AccountConfig.DailyFree acc) && (0 <? remaining) in
      let* st := GetHealth (AccountConfig.ID acc) in
      let c := {| Candidate.Provider := prov;
                  Candidate.AccountID := AccountConfig.ID acc;
                  Candidate.Auth := AccountConfig.Auth acc;
                  Candidate.Model := model;
                  Candidate.Free := free;
                  Candidate.Remaining := remaining;
                  Candidate.QuotaUnit := AccountConfig.QuotaUnit acc;
                  Candidate.Health := st;
                  Candidate.CostPerToken := AccountConfig.CostPerToken acc;
                  Candidate.CostPerInputToken := 0%float;
                  Candidate.CostPerOutputToken := 0%float;
                  Candidate.MaxDailySpend := 0%float;
                  Candidate.CurrentSpend := 0%float |} in
      let* cs := candidatesForModels acc prov rest in
      ret (c :: cs)
  end.

Fixpoint buildCandidatesFrom (cfg : Config.t) (providers : gmap string Provider.t)
    (requestModel : string) (refs : list ModelRef.t)
    (accounts : list AccountConfig.t) : M (list Candidate.t) :=
  match accounts with
  | [] => ret []
  | acc :: rest =>
      match providers !! AccountConfig.Provider acc with
      | None => buildCandidatesFrom cfg providers requestModel refs rest
      | Some prov =>
          let models := modelsForAccount refs acc prov requestModel cfg in
          let* cs := candidatesForModels acc prov models in
          let* cs' := buildCandidatesFrom cfg providers requestModel refs rest in
          ret (cs ++ cs')%list
      end
  end.

Definition buildCandidates (cfg : Config.t) (providers : gmap string Provider.t)
    (requestModel : string) : M (list Candidate.t) :=
  buildCandidatesFrom cfg providers requestModel
    (resolveModel cfg requestModel) (Config.Accounts cfg).

(** *** router.go: one pass through the body of the attempt loop *)

(** How one iteration leaves the loop body: [continue] with the
    error it stored in [lastErr], or [return]. *)
Inductive step :=
| Continue (lastErr : error)
| Return (result : ChatResponse.t + error).

Definition attemptBody (req : ChatRequest.t) (estimatedTokens : Z)
    (attempt : nat) (c : Candidate.t) : M step :=
  let* idempotencyKey := newUUID in
  let reserveAmount :=
    if String.eqb (Candidate.QuotaUnit c) QuotaRequests then 1 else estimatedTokens in
  let* r := Reserve (Candidate.AccountID c) reserveAmount (Candidate.QuotaUnit c) idempotencyKey in
  match r with
  | inr err => ret (Continue err)
  | inl reservation =>
      emit (OnRoute {| RouteEvent.Provider := Provider.Name (Candidate.Provider c);
                       RouteEvent.AccountID := Candidate.AccountID c;
                       RouteEvent.Model := Candidate.Model c;
                       RouteEvent.Free := Candidate.Free c;
                       RouteEvent.AttemptNum := attempt + 1;
                       RouteEvent.EstimatedIn := estimatedTokens |}) ;;;
      let provReq := {| ProviderRequest.Auth := Candidate.Auth c;
                        ProviderRequest.Model := Candidate.Model c;
                        ProviderRequest.Messages := ChatRequest.Messages req;
                        ProviderRequest.Temperature := ChatRequest.Temperature req;
                        ProviderRequest.MaxTokens := ChatRequest.MaxTokens req;
                        ProviderRequest.TopP := ChatRequest.TopP req;
                        ProviderRequest.Stop := ChatRequest.Stop req;
                        ProviderRequest.Stream := false |} in
      let* start := timeNow in
      let* pr := callProvider (Candidate.Provider c) provReq in
      let* finish := timeNow in
      let duration := Time.Since finish start in
      match pr with
      | inr err =>
          Rollback reservation ;;;
          RecordFailure (Candidate.AccountID c) ;;;
          emit (OnResult {| ResultEvent.Provider := Provider.Name (Candidate.Provider c);
                            ResultEvent.AccountID := Candidate.AccountID c;
                            ResultEvent.Model := Candidate.Model c;
                            ResultEvent.Free := Candidate.Free c;
                            ResultEvent.Success := false;
                            ResultEvent.Duration := duration;
                            ResultEvent.Usage := Usage.zero;
                            ResultEvent.Error := Some err;
                            ResultEvent.DollarCost := 0%float |}) ;;;
          if IsFatal err
          then ret (Return (inr (RouterError err
                                   (Provider.Name (Candidate.Provider c))
                                   (Candidate.AccountID c) (Candidate.Model c)
                                   (attempt + 1))))
          else ret (Continue err)
      | inl resp =>
          let actualTokens :=
            if String.eqb (Candidate.QuotaUnit c) QuotaRequests then 1
            else Usage.TotalTokens (ProviderResponse.Usage resp) in
          Commit reservation actualTokens ;;;
          RecordSuccess (Candidate.AccountID c) ;;;
          emit (OnResult {| ResultEvent.Provider := Provider.Name (Candidate.Provider c);
                            ResultEvent.AccountID := Candidate.AccountID c;
                            ResultEvent.Model := Candidate.Model c;
                            ResultEvent.Free := Candidate.Free c;
                            ResultEvent.Success := true;
                            ResultEvent.Duration := duration;
                            ResultEvent.Usage := ProviderResponse.Usage resp;
                            ResultEvent.Error := None;
                            ResultEvent.DollarCost := 0%float |}) ;;;
          ret (Return (inl
            {| ChatResponse.ID := ProviderResponse.ID resp;
               ChatResponse.Model := ProviderResponse.Model resp;
               ChatResponse.Choices :=
                 [ {| Choice.Index := 0;
                      Choice.Message :=
                        {| Message.Role := "assistant";
                           Message.Content := ProviderResponse.Content resp |};
                      Choice.FinishReason := ProviderResponse.FinishReason resp |} ];
               ChatResponse.Usage := ProviderResponse.Usage resp;
               ChatResponse.Routing :=
                 {| RoutingInfo.Provider := Provider.Name (Candidate.Provider c);
                    RoutingInfo.AccountID := Candidate.AccountID c;
                    RoutingInfo.Model := Candidate.Model c;
                    RoutingInfo.Attempts := attempt + 1;
                    RoutingInfo.Free := Candidate.Free c |} |}))
      end
  end.

(** The loop [for attempt, c := range ordered] from index [attempt]
    on, [rest] being the candidates still to try and [total] the
    length of the whole of [ordered], followed by the statements
    after the loop. *)
Fixpoint attemptLoop (req : ChatRequest.t) (estimatedTokens : Z) (total : nat)
    (attempt : nat) (lastErr : option error) (rest : list Candidate.t)
    : M (ChatResponse.t + error) :=
  match rest with
  | [] =>
      match lastErr with
      | Some _ => ret (inr (RouterError (Sentinel ErrAllFailed) "" "" "" total))
      | None => ret (inr (Sentinel ErrNoCandidates))
      end
  | c :: rest' =>
      let* s := attemptBody req estimatedTokens attempt c in
      match s with
      | Continue err => attemptLoop req estimatedTokens total (S attempt) (Some err) rest'
      | Return result => ret result
      end
  end.

Record t := {
  cfg : Config.t;
  providers : gmap string Provider.t;
  policy : Policy
}.

Definition ChatCompletion (r : t) (req : ChatRequest.t) : M (ChatResponse.t + error) :=
  let estimatedTokens := EstimateTokens (ChatRequest.Messages req) in
  let* candidates := buildCandidates (cfg r) (providers r) (ChatRequest.Model req) in
  let candidates := filterCandidates candidates (Config.AllowPaid (cfg r)) in
  if (length candidates =? 0)%nat
  then ret (inr (Sentinel ErrNoCandidates))
  else
    let ordered := policy r candidates in
    attemptLoop req estimatedTokens (length ordered) 0 None ordered.

(** *** stream.go *)

Record RouterStream := {
  inner : ProviderStream.t;
  reservation : Reservation;
  candidate : Candidate.t;
  startTime : Time.Time;
  totalUsage : Usage.t;
  closed : bool;
  streamErr : option error
}.

Definition Next (s : RouterStream) : (StreamChunk.t + error) * RouterStream :=
  let '(r, inner') := ProviderStream.Next (inner s) in
  match r with
  | inr err =>
      (inr err,
       {| inner := inner'; reservation := reservation s; candidate := candidate s;
          startTime := startTime s; totalUsage := totalUsage s; closed := closed s;
          streamErr := match streamErr s with
                       | None => Some err
                       | Some e => Some e
                       end |})
  | inl chunk =>
      (inl chunk,
       {| inner := inner'; reservation := reservation s; candidate := candidate s;
          startTime := startTime s;
          totalUsage := match StreamChunk.Usage chunk with
                        | Some u => u
                        | None => totalUsage s
                        end;
          closed := closed s; streamErr := streamErr s |})
  end.

(** Whether the retained stream error counts as a normal end. *)
Definition isSuccess (s : RouterStream) : bool :=
  match streamErr s with
  | None => true
  | Some e => Is e EOF
  end.

Definition actualTokens (s : RouterStream) : Z :=
  if String.eqb (Candidate.QuotaUnit (candidate s)) QuotaRequests then 1
  else Usage.TotalTokens (totalUsage s).

Definition quotaFailed (quotaErr : error) : error :=
  Wrapf "quota operation failed: " quotaErr.

Definition Close (s : RouterStream) : M (option error * RouterStream) :=
  if closed s then ret (None, s)
  else
    let s' := {| inner := inner s; reservation := reservation s;
                 candidate := candidate s; startTime := startTime s;
                 totalUsage := totalUsage s; closed := true;
                 streamErr := streamErr s |} in
    let err := ProviderStream.Close (inner s) in
    let* finish := timeNow in
    let duration := Time.Since finish (startTime s) in
    let* quotaErr :=
      (if isSuccess s
       then let* qe := Commit (reservation s) (actualTokens s) in
            RecordSuccess (Candidate.AccountID (candidate s)) ;;; ret qe
       else let* qe := Rollback (reservation s) in
            RecordFailure (Candidate.AccountID (candidate s)) ;;; ret qe) in
    let dollarCost :=
      if isSuccess s then calculateSpend (candidate s) (totalUsage s) else 0%float in
    (if isSuccess s && Float64.ltb 0%float dollarCost
     then RecordSpend (Candidate.AccountID (candidate s)) dollarCost
     else ret tt) ;;;
    let resultErr :=
      match quotaErr with
      | Some qe => if isSuccess s then Some (quotaFailed qe) else streamErr s
      | None => streamErr s
      end in
    emit (OnResult
      {| ResultEvent.Provider := Provider.Name (Candidate.Provider (candidate s));
         ResultEvent.AccountID := Candidate.AccountID (candidate s);
         ResultEvent.Model := Candidate.Model (candidate s);
         ResultEvent.Free := Candidate.Free (candidate s);
         ResultEvent.Success :=
           isSuccess s && match quotaErr with None => true | Some _ => false end;
         ResultEvent.Duration := duration;
         ResultEvent.Usage := totalUsage s;
         ResultEvent.Error := resultErr;
         ResultEvent.DollarCost := dollarCost |}) ;;;
    ret (err, s').

End WithStore.

Arguments World Q : clear implicits.
Arguments M Q A : clear implicits.
Arguments RouterStream : clear implicits.

End Router.
(** ** The order of binary64 values

    Every float that is not a NaN is given a key in [Z * Z * Z] whose
    lexicographic order is the order of the floats: the class (negative
    infinity, negative, zero, positive, positive infinity), then the
    exponent and the mantissa, both negated for negative numbers. *)

Module FloatOrder.

Definition key (f : spec_float) : Z * Z * Z :=
  match f with
  | S754_infinity true => (-2, 0, 0)
  | S754_finite true m e => (-1, - e, Z.neg m)
  | S754_zero _ => (0, 0, 0)
  | S754_nan => (0, 0, 0)
  | S754_finite false m e => (1, e, Z.pos m)
  | S754_infinity false => (2, 0, 0)
  end.

Definition lexcmp (a b : Z * Z * Z) : comparison :=
  match fst (fst a) ?= fst (fst b) with
  | Eq => match snd (fst a) ?= snd (fst b) with
          | Eq => snd a ?= snd b
          | c => c
          end
  | c => c
  end.

Definition lexlt (a b : Z * Z * Z) : Prop :=
  fst (fst a) < fst (fst b) \/
  (fst (fst a) = fst (fst b) /\
   (snd (fst a) < snd (fst b) \/
    (snd (fst a) = snd (fst b) /\ snd a < snd b))).

Definition fkey (x : Float64.t) : Z * Z * Z := key (Prim2SF x).

End FloatOrder.

(** ** What the policies are to achieve *)

Module SortSpec.

(** Neither of [a] and [b] is ordered before the other. *)
Definition tie {A} (less : A -> A -> bool) (a b : A) : bool :=
  negb (less a b) && negb (less b a).

End SortSpec.

Module FreeFirstSpec.

(** The blended cost in the words of the specification. *)
Definition blended_cost (c : Candidate.t) : Float64.t :=
  let input := Candidate.CostPerInputToken c in
  let output := Candidate.CostPerOutputToken c in
  if Float64.ltb 0%float input || Float64.ltb 0%float output
  then ((input + 2 * output) / 3)%float
  else Candidate.CostPerToken c.

(** [a] may stand before [b]: a paid candidate never stands before a
    free one, of two free candidates the first has at least as much
    remaining, of two paid ones the first costs at most as much. *)
Definition before (a b : Candidate.t) : Prop :=
  (Candidate.Free b = true -> Candidate.Free a = true) /\
  (Candidate.Free a = true -> Candidate.Free b = true ->
   Candidate.Remaining b <= Candidate.Remaining a) /\
  (Candidate.Free a = false -> Candidate.Free b = false ->
   Float64.leb (blended_cost a) (blended_cost b) = true).

(** The candidate's blended cost is a number. *)
Definition comparable (c : Candidate.t) : Prop :=
  Float64.is_nan (Candidate.BlendedCost c) = false.

End FreeFirstSpec.

Module FilterSpec.

(** The candidates the filter keeps: those not unhealthy, and free
    unless paid ones are allowed. *)
Definition kept (allowPaid : bool) (c : Candidate.t) : bool :=
  negb (Health.HealthState_eqb (Candidate.Health c) Health.HealthUnhealthy)
  && (Candidate.Free c || allowPaid).

(** The third rule in the words of the claim: a paid candidate with a
    ceiling on its daily spend, [max_daily_spend > 0], that its
    [current_spend] has reached. *)
Definition overCeiling (c : Candidate.t) : bool :=
  negb (Candidate.Free c)
  && Float64.ltb 0%float (Candidate.MaxDailySpend c)
  && Float64.leb (Candidate.MaxDailySpend c) (Candidate.CurrentSpend c).

(** The candidates the filter keeps according to the three rules of
    the claim. *)
Definition keptAsClaimed (allowPaid : bool) (c : Candidate.t) : bool :=
  kept allowPaid c && negb (overCeiling c).

End FilterSpec.
(** ** Vocabulary for statements about the attempt loop *)

Module RouterSpec.
Import Errors Quota Router.

Section WithStore.
Context {Q : Type} `{QuotaStore Q}.

Definition reserveAmount (estimatedTokens : Z) (c : Candidate.t) : Z :=
  if String.eqb (Candidate.QuotaUnit c) QuotaRequests then 1 else estimatedTokens.

(** The first two statements of the loop body: draw the idempotency
    key and reserve. *)
Definition reserveStep (estimatedTokens : Z) (c : Candidate.t)
    : M Q (Reservation + error) :=
  bind newUUID (fun idempotencyKey =>
    Reserve (Candidate.AccountID c) (reserveAmount estimatedTokens c)
            (Candidate.QuotaUnit c) idempotencyKey).

(** The request the loop body sends to the candidate's provider. *)
Definition providerRequest (req : ChatRequest.t) (c : Candidate.t) : ProviderRequest.t :=
  {| ProviderRequest.Auth := Candidate.Auth c;
     ProviderRequest.Model := Candidate.Model c;
     ProviderRequest.Messages := ChatRequest.Messages req;
     ProviderRequest.Temperature := ChatRequest.Temperature req;
     ProviderRequest.MaxTokens := ChatRequest.MaxTokens req;
     ProviderRequest.TopP := ChatRequest.TopP req;
     ProviderRequest.Stop := ChatRequest.Stop req;
     ProviderRequest.Stream := false |}.

(** What the candidate's provider answers when called in world [w]. *)
Definition providerAnswer (req : ChatRequest.t) (c : Candidate.t) (w : World Q)
    : ProviderResponse.t + error :=
  Provider.ChatCompletion (Candidate.Provider c) (providerCalls w) (providerRequest req c).

(** The record of the call to the candidate's provider. *)
Definition providerCall (req : ChatRequest.t) (c : Candidate.t) : Provider.call :=
  (Provider.Name (Candidate.Provider c), providerRequest req c).

(** [AllContinue req est i cs last w last' w']: tried in order from
    attempt index [i] in world [w], every candidate of [cs] ends its
    pass through the loop body with [continue]; [last'] is the last
    error stored and [w'] the world afterwards. *)
Inductive AllContinue (req : ChatRequest.t) (estimatedTokens : Z)
    : nat -> list Candidate.t -> option error -> World Q -> option error -> World Q -> Prop :=
| AllContinue_nil i last w :
    AllContinue req estimatedTokens i [] last w last w
| AllContinue_cons i c cs last w err w1 last' w' :
    attemptBody req estimatedTokens i c w = (Continue err, w1) ->
    AllContinue req estimatedTokens (S i) cs (Some err) w1 last' w' ->
    AllContinue req estimatedTokens i (c :: cs) last w last' w'.

End WithStore.

End RouterSpec.
(** ** Vocabulary for statements about the health tracker *)

Module HealthSpec.
Import Health.

(** [RecordFailure] for one account at each of the times [ts], in
    order. *)
Definition recordFailures (h : HealthTracker) (a : string) (ts : list Time.Time)
    : HealthTracker :=
  fold_left (fun h t => RecordFailure h t a) ts h.

(** Every time of the list is less than [window] after each of the
    times before it. *)
Definition within_window (window : Time.Duration) (ts : list Time.Time) : Prop :=
  ForallOrdPairs (fun t u => u - window < t) ts.

(** Every time of the list is at least [window] after the one before
    it. *)
Fixpoint spaced (window : Time.Duration) (ts : list Time.Time) : Prop :=
  match ts with
  | t :: (u :: _) as rest => t + window <= u /\ spaced window rest
  | _ => True
  end.

(** The record [getOrCreate] makes for an account it has not seen. *)
Definition freshRecord : accountHealth :=
  {| state := HealthHealthy; failures := []; unhealthyAt := zeroTime |}.

(** What [RecordFailure] at time [now] makes of an account's record. *)
Definition afterFailure (c : HealthConfig) (ah : accountHealth) (now : Time.Time)
    : accountHealth :=
  if HealthState_eqb (state ah) HealthUnhealthy then ah
  else
    let failures' :=
      (List.filter (fun t => Time.After t (Time.Add now (- FailureWindow c))) (failures ah)
       ++ [now])%list in
    if FailureThreshold c <=? Z.of_nat (length failures')
    then {| state := HealthUnhealthy; failures := failures'; unhealthyAt := now |}
    else {| state := state ah; failures := failures'; unhealthyAt := unhealthyAt ah |}.

End HealthSpec.

(** ** Vocabulary for statements about errors and policies *)

Module ErrorSpec.
Import Errors.

(** The error is built from sentinels and messages by [%w] and
    [RouterError] wrapping alone, so that [Unwrap] leads along a single
    chain: what the provider adapters of the repository return. *)
Fixpoint singleChain (err : error) : bool :=
  match err with
  | Sentinel _ | Errorf _ => true
  | Wrapf _ inner | RouterError inner _ _ _ _ => singleChain inner
  | Join _ | Custom _ _ _ => false
  end.

End ErrorSpec.

Module CostFirstSpec.

(** [a] may stand before [b]: it costs at most as much. *)
Definition before (a b : Candidate.t) : Prop :=
  Float64.leb (Candidate.BlendedCost a) (Candidate.BlendedCost b) = true.

End CostFirstSpec.
(** ** Concrete stores, calls and candidates used to run the definitions *)

Module Samples.
Import Errors Quota MemoryQuotaStore QuotaRuns.

Definition c1_calls : list reserveCall :=
  [ {| c_now := 10; c_uuid := "u1"; c_account := "acct"; c_amount := 1;
       c_unit := QuotaRequests; c_key := "k1" |};
    {| c_now := 20; c_uuid := "u2"; c_account := "acct"; c_amount := 1;
       c_unit := QuotaRequests; c_key := "" |};
    {| c_now := 30; c_uuid := "u3"; c_account := "acct"; c_amount := 1;
       c_unit := QuotaRequests; c_key := "k3" |} ].

(** Three calls that present the same idempotency key. *)
Definition sameKeyCalls : list reserveCall :=
  [ {| c_now := 10; c_uuid := "u1"; c_account := "acct"; c_amount := 1;
       c_unit := QuotaRequests; c_key := "k" |};
    {| c_now := 20; c_uuid := "u2"; c_account := "acct"; c_amount := 1;
       c_unit := QuotaRequests; c_key := "k" |};
    {| c_now := 30; c_uuid := "u3"; c_account := "acct"; c_amount := 1;
       c_unit := QuotaRequests; c_key := "k" |} ].

(** Two calls, the second after the midnight that follows the first. *)
Definition twoDayCalls : list reserveCall :=
  [ {| c_now := 10; c_uuid := "u1"; c_account := "acct"; c_amount := 1;
       c_unit := QuotaRequests; c_key := "k1" |};
    {| c_now := Time.Day + 10; c_uuid := "u2"; c_account := "acct"; c_amount := 1;
       c_unit := QuotaRequests; c_key := "k2" |} ].

(** An account with a limit of 10 tokens set at time 0, of which 4
    have been reserved and committed. *)
Definition usedStore : MemoryQuotaStore.t :=
  let s1 := SetQuota NewMemoryQuotaStore 0 "acct" 10 QuotaTokens in
  let res := {| ID := "r1"; AccountID := "acct"; Amount := 4; Unit := QuotaTokens |} in
  snd (Commit (snd (Reserve s1 1 "r1" "acct" 4 QuotaTokens "k1")) res 4).

(** [usedStore] with a reservation of 2 more still outstanding. *)
Definition busyStore : MemoryQuotaStore.t :=
  snd (Reserve usedStore 2 "r3" "acct" 2 QuotaTokens "k3").

(** Two days after time 0: past the reset time of [usedStore]'s row. *)
Definition twoDaysLater : Time.Time := 2 * Time.Day.

Definition healthOps : list Health.op :=
  [ Health.OpRecordFailure 5 "other"; Health.OpGetHealth 6 "acct";
    Health.OpRecordFailure 7 "other"; Health.OpRecordSuccess "third";
    Health.OpRecordFailure 8 "other"; Health.OpGetHealth (8 + 31 * Time.Second) "other" ].

Definition okResponse : ProviderResponse.t :=
  {| ProviderResponse.ID := "resp-1"; ProviderResponse.Content := "hello";
     ProviderResponse.FinishReason := "stop";
     ProviderResponse.Usage := {| Usage.PromptTokens := 10; Usage.CompletionTokens := 20;
                                  Usage.TotalTokens := 30 |};
     ProviderResponse.Model := "test-model" |}.

(** A provider that answers every call with [result]. *)
Definition mockProvider (name : string) (result : ProviderResponse.t + error) : Provider.t :=
  {| Provider.Name := name;
     Provider.SupportsModel := fun _ => true;
     Provider.ChatCompletion := fun _ _ => result;
     Provider.ChatCompletionStream := fun _ _ => inr (Sentinel ErrProviderUnavailable) |}.

Definition candidate (prov : Provider.t) (account : string) (free : bool)
    (remaining : Z) (unit : QuotaUnit) (cost : Float64.t) : Candidate.t :=
  {| Candidate.Provider := prov; Candidate.AccountID := account;
     Candidate.Auth := {| Auth.APIKey := "secret" |}; Candidate.Model := "test-model";
     Candidate.Free := free; Candidate.Remaining := remaining;
     Candidate.QuotaUnit := unit; Candidate.Health := Health.HealthHealthy;
     Candidate.CostPerToken := cost;
     Candidate.CostPerInputToken := 0%float; Candidate.CostPerOutputToken := 0%float;
     Candidate.MaxDailySpend := 0%float; Candidate.CurrentSpend := 0%float |}.

Definition good : Provider.t := mockProvider "good" (inl okResponse).

(** Paid at 0.5, free with 5 left, paid at 0.25 with separate rates,
    free with 9 left, paid at 0.5 again, free with 5 left again. *)
Definition mixedCandidates : list Candidate.t :=
  [ candidate good "paid-a" false 0 QuotaTokens 0.5%float;
    candidate good "free-a" true 5 QuotaTokens 0%float;
    {| Candidate.Provider := good; Candidate.AccountID := "paid-b";
       Candidate.Auth := {| Auth.APIKey := "secret" |}; Candidate.Model := "test-model";
       Candidate.Free := false; Candidate.Remaining := 0;
       Candidate.QuotaUnit := QuotaTokens; Candidate.Health := Health.HealthHealthy;
       Candidate.CostPerToken := 4%float;
       Candidate.CostPerInputToken := 0.25%float; Candidate.CostPerOutputToken := 0.25%float;
       Candidate.MaxDailySpend := 0%float; Candidate.CurrentSpend := 0%float |};
    candidate good "free-b" true 9 QuotaTokens 0%float;
    candidate good "paid-c" false 0 QuotaTokens 0.5%float;
    candidate good "free-c" true 5 QuotaTokens 0%float ].

(** Three paid candidates: the second has a NaN for its cost. *)
Definition nanCandidates : list Candidate.t :=
  [ candidate good "paid-2" false 0 QuotaTokens 2%float;
    candidate good "paid-nan" false 0 QuotaTokens PrimFloat.nan;
    candidate good "paid-1" false 0 QuotaTokens 1%float ].

(** A healthy paid candidate whose spend of 0.75 is over its ceiling of
    0.5. *)
Definition overSpent : Candidate.t :=
  {| Candidate.Provider := good; Candidate.AccountID := "paid-1";
     Candidate.Auth := {| Auth.APIKey := "secret" |}; Candidate.Model := "test-model";
     Candidate.Free := false; Candidate.Remaining := 0;
     Candidate.QuotaUnit := QuotaTokens; Candidate.Health := Health.HealthHealthy;
     Candidate.CostPerToken := 0.5%float;
     Candidate.CostPerInputToken := 0%float; Candidate.CostPerOutputToken := 0%float;
     Candidate.MaxDailySpend := 0.5%float; Candidate.CurrentSpend := 0.75%float |}.

Definition limited : Provider.t :=
  mockProvider "limited" (inr (Sentinel ErrRateLimited)).

Definition denied : Provider.t :=
  mockProvider "denied" (inr (Wrapf "status 401: " (Sentinel ErrAuthFailed))).

(** [errors.Join(ErrRateLimited, ErrAuthFailed)], and a provider that
    answers every call with it. *)
Definition tornError : error :=
  Join [Sentinel ErrRateLimited; Sentinel ErrAuthFailed].

Definition torn : Provider.t := mockProvider "torn" (inr tornError).

(** Four accounts; the second has no quota left. *)
Definition routerStore : MemoryQuotaStore.t :=
  SetQuota (SetQuota (SetQuota (SetQuota NewMemoryQuotaStore 0 "acct-1" 1000 QuotaTokens)
                        0 "acct-2" 0 QuotaTokens)
              0 "acct-3" 1000 QuotaTokens)
    0 "acct-4" 1000 QuotaTokens.

Definition ordered : list Candidate.t :=
  [ candidate limited "acct-1" true 1000 QuotaTokens 0%float;
    candidate good "acct-2" true 1 QuotaTokens 0%float;
    candidate denied "acct-3" true 1000 QuotaTokens 0%float;
    candidate good "acct-4" true 1000 QuotaTokens 0%float ]%list.

Definition hello : ChatRequest.t :=
  {| ChatRequest.Model := "test-model";
     ChatRequest.Messages := [ {| Message.Role := "user"; Message.Content := "hello" |} ];
     ChatRequest.Temperature := None; ChatRequest.MaxTokens := None;
     ChatRequest.TopP := None; ChatRequest.Stream := false; ChatRequest.Stop := [] |}.

(** The [n]-th UUID drawn is a run of [n + 1] letters. *)
Definition uuidStream (n : nat) : string :=
  String.string_of_list_ascii (repeat (Ascii.ascii_of_nat 117) (S n)).

Definition world0 : Router.World MemoryQuotaStore.t :=
  {| Router.quotaStore := routerStore;
     Router.health := Health.NewHealthTracker;
     Router.spend := Spend.NewSpendTracker 1;
     Router.meter := [];
     Router.providerCalls := [];
     Router.uuids := uuidStream;
     Router.uuidPos := 0;
     Router.clock := fun n => 1000 + Z.of_nat n;
     Router.clockPos := 0;
     Router.yearDay := fun t => t / Time.Day + 1 |}.

Definition tornCandidate : Candidate.t :=
  candidate torn "acct-1" true 1000 QuotaTokens 0%float.
Definition limitedCandidate : Candidate.t :=
  candidate limited "acct-1" true 1000 QuotaTokens 0%float.
Definition exhaustedCandidate : Candidate.t :=
  candidate good "acct-2" true 1 QuotaTokens 0%float.
Definition deniedCandidate : Candidate.t :=
  candidate denied "acct-3" true 1000 QuotaTokens 0%float.
Definition goodCandidate : Candidate.t :=
  candidate good "acct-4" true 1000 QuotaTokens 0%float.

(** The world after the passes of the first and of the second
    candidate of [ordered]. *)
Definition world1 : Router.World MemoryQuotaStore.t :=
  snd (Router.attemptBody hello 8 0 limitedCandidate world0).
Definition world2 : Router.World MemoryQuotaStore.t :=
  snd (Router.attemptBody hello 8 1 exhaustedCandidate world1).

(** A stream that has delivered its chunks, the last with usage
    [{5, 2, 7}], and then [io.EOF]; its reservation is not settled. *)
Definition finishedStream : Router.RouterStream :=
  {| Router.inner := {| ProviderStream.pending := []; ProviderStream.closeErr := None |};
     Router.reservation := {| ID := "test"; AccountID := "free-1"; Amount := 8;
                              Unit := QuotaTokens |};
     Router.candidate := candidate good "free-1" true 1000 QuotaTokens 0%float;
     Router.startTime := 990;
     Router.totalUsage := {| Usage.PromptTokens := 5; Usage.CompletionTokens := 2;
                             Usage.TotalTokens := 7 |};
     Router.closed := false;
     Router.streamErr := Some (Sentinel EOF) |}.

Definition failingWorld : Router.World failingCommitQuotaStore :=
  {| Router.quotaStore := FailingCommitQuotaStore;
     Router.health := Health.NewHealthTracker;
     Router.spend := Spend.NewSpendTracker 1;
     Router.meter := [];
     Router.providerCalls := [];
     Router.uuids := uuidStream;
     Router.uuidPos := 0;
     Router.clock := fun n => 1000 + Z.of_nat n;
     Router.clockPos := 0;
     Router.yearDay := fun t => t / Time.Day + 1 |}.

End Samples.


(** ** Vocabulary for statements about what a request leaves behind *)

Module TraceSpec.
Import Errors Quota Router.

(** The [OnRoute] event, the [OnResult] event and the provider call of
    one attempt name the same provider, account and model; the call is
    not a streaming one. *)
Definition sameAttempt (r : RouteEvent.t) (s : ResultEvent.t) (call : Provider.call)
    : Prop :=
  RouteEvent.Provider r = fst call /\
  ResultEvent.Provider s = fst call /\
  ResultEvent.AccountID s = RouteEvent.AccountID r /\
  RouteEvent.Model r = ProviderRequest.Model (snd call) /\
  ResultEvent.Model s = ProviderRequest.Model (snd call) /\
  ProviderRequest.Stream (snd call) = false.

(** [attempts evs calls ok]: the events [evs] are, for each call of
    [calls] in order, an [OnRoute] followed by the [OnResult] of the
    same attempt; only the last [OnResult] can report success, and it
    does iff [ok]. *)
Fixpoint attempts (evs : list MeterEvent) (calls : list Provider.call) (ok : bool)
    : Prop :=
  match evs, calls with
  | [], [] => ok = false
  | OnRoute r :: OnResult s :: evs', call :: calls' =>
      sameAttempt r s call /\
      if ResultEvent.Success s then evs' = [] /\ calls' = [] /\ ok = true
      else attempts evs' calls' ok
  | _, _ => False
  end.

(** Between [w] and [w1] the meter was told nothing, no provider was
    called and no spend was recorded. *)
Definition sameTrace {Q} (w w1 : World Q) : Prop :=
  meter w1 = meter w /\ providerCalls w1 = providerCalls w /\ spend w1 = spend w.

(** The result is a response, not an error. *)
Definition isResponse {A} (r : A + error) : bool :=
  match r with inl _ => true | inr _ => false end.

(** What a call of the router can return: a response routed at an
    attempt between 1 and [n], a [RouterError] around a fatal error
    with such an attempt number, [ErrAllFailed] with [n] attempts, or
    [ErrNoCandidates]. *)
Definition outcome (n : nat) (r : ChatResponse.t + error) : Prop :=
  (exists resp, r = inl resp /\
     (1 <= RoutingInfo.Attempts (ChatResponse.Routing resp) <= n)%nat) \/
  (exists err p a m k, r = inr (RouterError err p a m k) /\
     IsFatal err = true /\ (1 <= k <= n)%nat) \/
  (r = inr (RouterError (Sentinel ErrAllFailed) "" "" "" n) /\ (0 < n)%nat) \/
  r = inr (Sentinel ErrNoCandidates).

End TraceSpec.

(** ** Vocabulary for statements about the candidate list *)

Module CandidateSpec.
Import Errors Quota Router.



End CandidateSpec.

(** ** Vocabulary for statements about the rows of the in-memory store *)

Module MemorySpec.
Import MemoryQuotaStore.

(** The row [q] with its two counters replaced. *)
Definition withCounts (q : accountQuota) (used reserved : Z) : accountQuota :=
  {| DailyLimit := DailyLimit q; Used := used; Reserved := reserved;
     QUnit := QUnit q; ResetAt := ResetAt q |}.

(** The rows of [s] with the row of account [a] put through [f]; the
    rows of [s] themselves when the account has none. *)
Definition updateRow (s : t) (a : string) (f : accountQuota -> accountQuota)
    : gmap string accountQuota :=
  match accounts s !! a with
  | None => accounts s
  | Some q0 => <[a := f q0]> (accounts s)
  end.

(** What a row has left. *)
Definition left (q : accountQuota) : Z := DailyLimit q - Used q - Reserved q.

End MemorySpec.

(** ** Concrete routers used to run the definitions *)

Module RouterSamples.
Import Errors Quota.

Definition freeAccount : AccountConfig.t :=
  {| AccountConfig.Provider := "good"; AccountConfig.ID := "free-1";
     AccountConfig.Auth := {| Auth.APIKey := "secret" |};
     AccountConfig.DailyFree := 1000; AccountConfig.QuotaUnit := QuotaTokens;
     AccountConfig.PaidEnabled := false;
     AccountConfig.MaxDailySpend := 0%float; AccountConfig.CostPerToken := 0%float;
     AccountConfig.CostPerInputToken := 0%float;
     AccountConfig.CostPerOutputToken := 0%float |}.

(** One free account, paid use not allowed. *)
Definition freeOnlyConfig : Config.t :=
  {| Config.AllowPaid := false; Config.DefaultModel := "test-model";
     Config.Models := []; Config.Accounts := [freeAccount] |}.

Definition freeOnlyRouter : Router.t :=
  {| Router.cfg := freeOnlyConfig;
     Router.providers := {[ "good" := Samples.good ]};
     Router.policy := defaultFreeFirstPolicy.Select |}.

(** The world of a router that was given no quota store. *)
Definition noopWorld : Router.World noopQuotaStore :=
  {| Router.quotaStore := NoopQuotaStore;
     Router.health := Health.NewHealthTracker;
     Router.spend := Spend.NewSpendTracker 1;
     Router.meter := [];
     Router.providerCalls := [];
     Router.uuids := Samples.uuidStream;
     Router.uuidPos := 0;
     Router.clock := fun n => 1000 + Z.of_nat n;
     Router.clockPos := 0;
     Router.yearDay := fun t => t / Time.Day + 1 |}.

(** A paid account without a free allowance, and an account that is
    neither paid nor has an allowance. *)
Definition paidAccount : AccountConfig.t :=
  {| AccountConfig.Provider := "good"; AccountConfig.ID := "paid-1";
     AccountConfig.Auth := {| Auth.APIKey := "secret" |};
     AccountConfig.DailyFree := 0; AccountConfig.QuotaUnit := QuotaTokens;
     AccountConfig.PaidEnabled := true;
     AccountConfig.MaxDailySpend := 0%float; AccountConfig.CostPerToken := 0.5%float;
     AccountConfig.CostPerInputToken := 0%float;
     AccountConfig.CostPerOutputToken := 0%float |}.

Definition idleAccount : AccountConfig.t :=
  {| AccountConfig.Provider := "good"; AccountConfig.ID := "idle-1";
     AccountConfig.Auth := {| Auth.APIKey := "secret" |};
     AccountConfig.DailyFree := 0; AccountConfig.QuotaUnit := QuotaRequests;
     AccountConfig.PaidEnabled := false;
     AccountConfig.MaxDailySpend := 0%float; AccountConfig.CostPerToken := 0%float;
     AccountConfig.CostPerInputToken := 0%float;
     AccountConfig.CostPerOutputToken := 0%float |}.

Definition mixedConfig : Config.t :=
  {| Config.AllowPaid := true; Config.DefaultModel := "test-model";
     Config.Models := [];
     Config.Accounts := [freeAccount; paidAccount; idleAccount] |}.

(** A world whose quota store is new and empty. *)
Definition emptyWorld : Router.World MemoryQuotaStore.t :=
  {| Router.quotaStore := MemoryQuotaStore.NewMemoryQuotaStore;
     Router.health := Health.NewHealthTracker;
     Router.spend := Spend.NewSpendTracker 1;
     Router.meter := [];
     Router.providerCalls := [];
     Router.uuids := Samples.uuidStream;
     Router.uuidPos := 0;
     Router.clock := fun n => 1000 + Z.of_nat n;
     Router.clockPos := 0;
     Router.yearDay := fun t => t / Time.Day + 1 |}.

(** The store of [Samples.world0] after 40 tokens were reserved and
    committed on each of "acct-1" and "acct-4" on the day the quotas
    were set. *)
Definition spentStore : MemoryQuotaStore.t :=
  let charge (s : MemoryQuotaStore.t) (a : string) :=
    snd (MemoryQuotaStore.Commit
           (snd (MemoryQuotaStore.Reserve s 1 "r" a 40 QuotaTokens ""))
           {| ID := "r"; AccountID := a; Amount := 40; Unit := QuotaTokens |} 40) in
  charge (charge Samples.routerStore "acct-1") "acct-4".

(** Two days later: the reset time of every row has passed. *)
Definition laterWorld : Router.World MemoryQuotaStore.t :=
  {| Router.quotaStore := spentStore;
     Router.health := Health.NewHealthTracker;
     Router.spend := Spend.NewSpendTracker 1;
     Router.meter := [];
     Router.providerCalls := [];
     Router.uuids := Samples.uuidStream;
     Router.uuidPos := 0;
     Router.clock := fun n => 2 * Time.Day + Z.of_nat n;
     Router.clockPos := 0;
     Router.yearDay := fun t => t / Time.Day + 1 |}.

End RouterSamples.

(** ** router.go: opening a stream *)

Module RouterStreaming.
Import Errors Quota Health Router.

Section WithStore.
Context {Q : Type} `{QuotaStore Q}.

Notation "'let*' x := m 'in' k" := (bind m (fun x => k))
  (at level 10, x name, m at level 100, k at level 200).
Notation "m ;;; k" := (bind m (fun _ => k))
  (at level 100, k at level 200, right associativity).

(** [c.Provider.ChatCompletionStream(ctx, provReq)] *)
Definition callProviderStream (p : Provider.t) (req : ProviderRequest.t)
    : M Q (ProviderStream.t + error) :=
  fun w => (Provider.ChatCompletionStream p (providerCalls w) req,
            withProviderCalls w (providerCalls w ++ [(Provider.Name p, req)])%list).

(** How one iteration leaves the body of the loop of
    [ChatCompletionStream]. *)
Inductive streamStep :=
| StreamContinue (lastErr : error)
| StreamReturn (result : RouterStream + error).

Definition streamAttemptBody (req : ChatRequest.t) (estimatedTokens : Z)
    (attempt : nat) (c : Candidate.t) : M Q streamStep :=
  let* idempotencyKey := newUUID in
  let reserveAmount :=
    if String.eqb (Candidate.QuotaUnit c) QuotaRequests then 1 else estimatedTokens in
  let* r := Reserve (Candidate.AccountID c) reserveAmount (Candidate.QuotaUnit c) idempotencyKey in
  match r with
  | inr err => ret (StreamContinue err)
  | inl reservation =>
      emit (OnRoute {| RouteEvent.Provider := Provider.Name (Candidate.Provider c);
                       RouteEvent.AccountID := Candidate.AccountID c;
                       RouteEvent.Model := Candidate.Model c;
                       RouteEvent.Free := Candidate.Free c;
                       RouteEvent.AttemptNum := attempt + 1;
                       RouteEvent.EstimatedIn := estimatedTokens |}) ;;;
      let provReq := {| ProviderRequest.Auth := Candidate.Auth c;
                        ProviderRequest.Model := Candidate.Model c;
                        ProviderRequest.Messages := ChatRequest.Messages req;
                        ProviderRequest.Temperature := ChatRequest.Temperature req;
                        ProviderRequest.MaxTokens := ChatRequest.MaxTokens req;
                        ProviderRequest.TopP := ChatRequest.TopP req;
                        ProviderRequest.Stop := ChatRequest.Stop req;
                        ProviderRequest.Stream := true |} in
      let* sr := callProviderStream (Candidate.Provider c) provReq in
      match sr with
      | inr err =>
          Rollback reservation ;;;
          RecordFailure (Candidate.AccountID c) ;;;
          if IsFatal err
          then ret (StreamReturn (inr (RouterError err
                                         (Provider.Name (Candidate.Provider c))
                                         (Candidate.AccountID c) (Candidate.Model c)
                                         (attempt + 1))))
          else ret (StreamContinue err)
      | inl stream =>
          let* now := timeNow in
          ret (StreamReturn (inl
            {| inner := stream; reservation := reservation; candidate := c;
               startTime := now; totalUsage := Usage.zero; closed := false;
               streamErr := None |}))
      end
  end.

Fixpoint streamAttemptLoop (req : ChatRequest.t) (estimatedTokens : Z) (total : nat)
    (attempt : nat) (lastErr : option error) (rest : list Candidate.t)
    : M Q (RouterStream + error) :=
  match rest with
  | [] =>
      match lastErr with
      | Some _ => ret (inr (RouterError (Sentinel ErrAllFailed) "" "" "" total))
      | None => ret (inr (Sentinel ErrNoCandidates))
      end
  | c :: rest' =>
      let* s := streamAttemptBody req estimatedTokens attempt c in
      match s with
      | StreamContinue err =>
          streamAttemptLoop req estimatedTokens total (S attempt) (Some err) rest'
      | StreamReturn result => ret result
      end
  end.

Definition ChatCompletionStream (r : Router.t) (req : ChatRequest.t)
    : M Q (RouterStream + error) :=
  let estimatedTokens := EstimateTokens (ChatRequest.Messages req) in
  let* candidates := buildCandidates (cfg r) (providers r) (ChatRequest.Model req) in
  let candidates := filterCandidates candidates (Config.AllowPaid (cfg r)) in
  if (length candidates =? 0)%nat
  then ret (inr (Sentinel ErrNoCandidates))
  else
    let ordered := policy r candidates in
    streamAttemptLoop req estimatedTokens (length ordered) 0 None ordered.

End WithStore.

End RouterStreaming.

Module StreamSpec.
Import Errors Quota Router.

(** The [OnRoute] event and the provider call of one attempt to open a
    stream name the same provider and model; the call is a streaming
    one. *)
Definition routed (r : RouteEvent.t) (call : Provider.call) : Prop :=
  RouteEvent.Provider r = fst call /\
  RouteEvent.Model r = ProviderRequest.Model (snd call) /\
  ProviderRequest.Stream (snd call) = true.

(** What [ChatCompletionStream] can return: an open stream that has
    seen no chunk and no error, for the candidate of the last
    [OnRoute] event [last], routed at an attempt after [i] and up to
    [n]; a [RouterError] around a fatal error with such an attempt
    number; [ErrAllFailed] with [n] attempts; or [ErrNoCandidates]. *)
Definition opened (i n : nat) (last : option RouteEvent.t) (r : RouterStream + error)
    : Prop :=
  match r with
  | inl s =>
      closed s = false /\ streamErr s = None /\ totalUsage s = Usage.zero /\
      exists e, last = Some e /\
        RouteEvent.AccountID e = Candidate.AccountID (candidate s) /\
        RouteEvent.Model e = Candidate.Model (candidate s) /\
        (i < RouteEvent.AttemptNum e <= n)%nat
  | inr err =>
      (exists e p a m k, err = RouterError e p a m k /\ IsFatal e = true /\
                         (i < k <= n)%nat) \/
      (err = RouterError (Sentinel ErrAllFailed) "" "" "" n /\ (0 < n)%nat) \/
      err = Sentinel ErrNoCandidates
  end.

End StreamSpec.

(** ** Vocabulary for statements about reading and closing a stream *)

Module StreamReadSpec.
Import Errors Quota Router.

(** [Next] called [n] times in a row: what the calls return, in
    order, and the stream afterwards. *)
Fixpoint readN (n : nat) (s : RouterStream) : list (StreamChunk.t + error) * RouterStream :=
  match n with
  | O => ([], s)
  | S n' =>
      let '(r, s1) := Next s in
      let '(rs, s2) := readN n' s1 in
      (r :: rs, s2)
  end.

(** The errors among the results of a run of [Next] calls, and the
    usage records its chunks carried, both in order. *)
Definition errorsOf (rs : list (StreamChunk.t + error)) : list error :=
  omap (fun r => match r with inr e => Some e | inl _ => None end) rs.

Definition usagesOf (rs : list (StreamChunk.t + error)) : list Usage.t :=
  omap (fun r => match r with inl chunk => StreamChunk.Usage chunk | inr _ => None end) rs.

(** What the inner stream's [Next] returns over [n] calls. *)
Fixpoint innerReads (n : nat) (p : ProviderStream.t) : list (StreamChunk.t + error) :=
  match n with
  | O => []
  | S n' => fst (ProviderStream.Next p) :: innerReads n' (snd (ProviderStream.Next p))
  end.

(** The request the loop body of [ChatCompletionStream] sends to the
    candidate's provider. *)
Definition streamRequest (req : ChatRequest.t) (c : Candidate.t) : ProviderRequest.t :=
  {| ProviderRequest.Auth := Candidate.Auth c;
     ProviderRequest.Model := Candidate.Model c;
     ProviderRequest.Messages := ChatRequest.Messages req;
     ProviderRequest.Temperature := ChatRequest.Temperature req;
     ProviderRequest.MaxTokens := ChatRequest.MaxTokens req;
     ProviderRequest.TopP := ChatRequest.TopP req;
     ProviderRequest.Stop := ChatRequest.Stop req;
     ProviderRequest.Stream := true |}.

End StreamReadSpec.

Module StreamSamples.
Import Errors Quota.

Definition chunk (text : string) (usage : option Usage.t) : StreamChunk.t :=
  {| StreamChunk.ID := "chunk";
     StreamChunk.Choices :=
       [ {| StreamDelta.Index := 0;
            StreamDelta.Delta := {| Delta.Role := "assistant"; Delta.Content := text |};
            StreamDelta.FinishReason := "" |} ];
     StreamChunk.Model := "test-model"; StreamChunk.Usage := usage |}.

Definition usage7 : Usage.t :=
  {| Usage.PromptTokens := 5; Usage.CompletionTokens := 2; Usage.TotalTokens := 7 |}.

(** Two chunks, the second with usage [{5, 2, 7}], then a failure of
    the connection, then a late chunk. *)
Definition brokenInner : ProviderStream.t :=
  {| ProviderStream.pending :=
       [ inl (chunk "hel" None); inl (chunk "lo" (Some usage7));
         inr (Sentinel ErrProviderUnavailable); inl (chunk "!" None) ];
     ProviderStream.closeErr := None |}.

(** A provider whose streams deliver [brokenInner]. *)
Definition streaming : Provider.t :=
  {| Provider.Name := "streaming";
     Provider.SupportsModel := fun _ => true;
     Provider.ChatCompletion := fun _ _ => inl Samples.okResponse;
     Provider.ChatCompletionStream := fun _ _ => inl brokenInner |}.

Definition streamingCandidate : Candidate.t :=
  Samples.candidate streaming "acct-4" true 1000 QuotaTokens 0%float.

(** An open stream on a paid account at 0.5 per token that has not
    been read yet. *)
Definition paidCandidate : Candidate.t :=
  Samples.candidate streaming "paid-1" false 0 QuotaTokens 0.5%float.

Definition freshStream : Router.RouterStream :=
  {| Router.inner := brokenInner;
     Router.reservation := {| ID := "test"; AccountID := "paid-1"; Amount := 8;
                              Unit := QuotaTokens |};
     Router.candidate := paidCandidate;
     Router.startTime := 990;
     Router.totalUsage := Usage.zero;
     Router.closed := false;
     Router.streamErr := None |}.

(** A paid stream that has delivered usage [{5, 2, 7}] and ended with
    [io.EOF]. *)
Definition paidFinished : Router.RouterStream :=
  {| Router.inner := {| ProviderStream.pending := []; ProviderStream.closeErr := None |};
     Router.reservation := {| ID := "test"; AccountID := "paid-1"; Amount := 8;
                              Unit := QuotaTokens |};
     Router.candidate := paidCandidate;
     Router.startTime := 990;
     Router.totalUsage := usage7;
     Router.closed := false;
     Router.streamErr := Some (Sentinel EOF) |}.

End StreamSamples.

(** ** config.go: validation and cost normalisation *)

Module ConfigCheck.
Import Errors Quota.

(** [%d] of an index. *)
Definition decimal (i : nat) : string := pretty.pretty i.

(** The start of the messages about account [i]. *)
Definition accountAt (i : nat) (id : string) : string :=
  "inferrouter: config: account[" ++ decimal i ++ "] (" ++ id ++ "): ".

(** One pass through the body of the loop over the accounts: the
    error it returns, or the ids seen so far. *)
Definition checkAccount (ids : gmap string bool) (i : nat) (acc : AccountConfig.t)
    : error + gmap string bool :=
  if String.eqb (AccountConfig.Provider acc) ""
  then inl (Errorf ("inferrouter: config: account[" ++ decimal i
                    ++ "]: provider is required"))
  else if String.eqb (AccountConfig.ID acc) ""
  then inl (Errorf ("inferrouter: config: account[" ++ decimal i ++ "]: id is required"))
  else if default false (ids !! AccountConfig.ID acc)
  then inl (Errorf ("inferrouter: config: duplicate account id "
                    ++ MemoryQuotaStore.quote (AccountConfig.ID acc)))
  else
    let ids := <[AccountConfig.ID acc := true]> ids in
    let at_ := accountAt i (AccountConfig.ID acc) in
    if String.eqb (AccountConfig.QuotaUnit acc) ""
    then inl (Errorf (at_ ++ "quota_unit is required"))
    else if negb (String.eqb (AccountConfig.QuotaUnit acc) QuotaTokens)
            && negb (String.eqb (AccountConfig.QuotaUnit acc) QuotaRequests)
            && negb (String.eqb (AccountConfig.QuotaUnit acc) QuotaDollars)
    then inl (Errorf (at_ ++ "invalid quota_unit "
                      ++ MemoryQuotaStore.quote (AccountConfig.QuotaUnit acc)))
    else if AccountConfig.DailyFree acc <? 0
    then inl (Errorf (at_ ++ "daily_free must be >= 0"))
    else if Float64.ltb (AccountConfig.MaxDailySpend acc) 0%float
    then inl (Errorf (at_ ++ "max_daily_spend must be >= 0"))
    else if Float64.ltb (AccountConfig.CostPerToken acc) 0%float
    then inl (Errorf (at_ ++ "cost_per_token must be >= 0"))
    else if Float64.ltb (AccountConfig.CostPerInputToken acc) 0%float
    then inl (Errorf (at_ ++ "cost_per_input_token must be >= 0"))
    else if Float64.ltb (AccountConfig.CostPerOutputToken acc) 0%float
    then inl (Errorf (at_ ++ "cost_per_output_token must be >= 0"))
    else if AccountConfig.PaidEnabled acc
            && negb (Float64.ltb 0%float (AccountConfig.CostPerToken acc)
                     || Float64.ltb 0%float (AccountConfig.CostPerInputToken acc)
                     || Float64.ltb 0%float (AccountConfig.CostPerOutputToken acc))
    then inl (Errorf (at_ ++ "paid_enabled requires cost configuration"))
    else inr ids.

(** The loop [for i, acc := range c.Accounts] from index [i] on. *)
Fixpoint checkAccounts (ids : gmap string bool) (i : nat) (accounts : list AccountConfig.t)
    : option error :=
  match accounts with
  | [] => None
  | acc :: rest =>
      match checkAccount ids i acc with
      | inl err => Some err
      | inr ids' => checkAccounts ids' (S i) rest
      end
  end.

(** The loop [for i, m := range c.Models] from index [i] on. *)
Fixpoint checkModels (i : nat) (models : list ModelMapping.t) : option error :=
  match models with
  | [] => None
  | m :: rest =>
      if String.eqb (ModelMapping.Alias m) ""
      then Some (Errorf ("inferrouter: config: models[" ++ decimal i
                         ++ "]: alias is required"))
      else if (length (ModelMapping.Models m) =? 0)%nat
      then Some (Errorf ("inferrouter: config: models[" ++ decimal i ++ "] ("
                         ++ ModelMapping.Alias m
                         ++ "): at least one model ref is required"))
      else checkModels (S i) rest
  end.

(** [Config.Validate]: [None] is Go's [nil]. *)
Definition Validate (c : Config.t) : option error :=
  if (length (Config.Accounts c) =? 0)%nat
  then Some (Errorf "inferrouter: config: at least one account is required")
  else
    match checkAccounts ∅ 0 (Config.Accounts c) with
    | Some err => Some err
    | None => checkModels 0 (Config.Models c)
    end.

Definition normalizeAccount (acc : AccountConfig.t) : AccountConfig.t :=
  if Float64.ltb 0%float (AccountConfig.CostPerToken acc)
     && PrimFloat.eqb (AccountConfig.CostPerInputToken acc) 0%float
     && PrimFloat.eqb (AccountConfig.CostPerOutputToken acc) 0%float
  then {| AccountConfig.Provider := AccountConfig.Provider acc;
          AccountConfig.ID := AccountConfig.ID acc;
          AccountConfig.Auth := AccountConfig.Auth acc;
          AccountConfig.DailyFree := AccountConfig.DailyFree acc;
          AccountConfig.QuotaUnit := AccountConfig.QuotaUnit acc;
          AccountConfig.PaidEnabled := AccountConfig.PaidEnabled acc;
          AccountConfig.MaxDailySpend := AccountConfig.MaxDailySpend acc;
          AccountConfig.CostPerToken := AccountConfig.CostPerToken acc;
          AccountConfig.CostPerInputToken := AccountConfig.CostPerToken acc;
          AccountConfig.CostPerOutputToken := AccountConfig.CostPerToken acc |}
  else acc.

(** [NormalizeCosts]: the configuration after the call. *)
Definition NormalizeCosts (c : Config.t) : Config.t :=
  {| Config.AllowPaid := Config.AllowPaid c;
     Config.DefaultModel := Config.DefaultModel c;
     Config.Models := Config.Models c;
     Config.Accounts := map normalizeAccount (Config.Accounts c) |}.

End ConfigCheck.

Module ConfigSpec.
Import Quota.

(** What [Validate] asks of one account.  The cost checks are the
    code's comparisons: a value is refused when it is less than 0. *)
Definition accountOK (acc : AccountConfig.t) : Prop :=
  AccountConfig.Provider acc <> "" /\
  AccountConfig.ID acc <> "" /\
  (AccountConfig.QuotaUnit acc = QuotaTokens \/
   AccountConfig.QuotaUnit acc = QuotaRequests \/
   AccountConfig.QuotaUnit acc = QuotaDollars) /\
  0 <= AccountConfig.DailyFree acc /\
  Float64.ltb (AccountConfig.MaxDailySpend acc) 0%float = false /\
  Float64.ltb (AccountConfig.CostPerToken acc) 0%float = false /\
  Float64.ltb (AccountConfig.CostPerInputToken acc) 0%float = false /\
  Float64.ltb (AccountConfig.CostPerOutputToken acc) 0%float = false /\
  (AccountConfig.PaidEnabled acc = true ->
   Float64.ltb 0%float (AccountConfig.CostPerToken acc) = true \/
   Float64.ltb 0%float (AccountConfig.CostPerInputToken acc) = true \/
   Float64.ltb 0%float (AccountConfig.CostPerOutputToken acc) = true).

Definition mappingOK (m : ModelMapping.t) : Prop :=
  ModelMapping.Alias m <> "" /\ ModelMapping.Models m <> [].

Definition valid (c : Config.t) : Prop :=
  Config.Accounts c <> [] /\
  Forall accountOK (Config.Accounts c) /\
  NoDup (map AccountConfig.ID (Config.Accounts c)) /\
  Forall mappingOK (Config.Models c).

End ConfigSpec.

(** ** provider/openaicompat and provider/gemini: HTTP status to error *)

Module ProviderHTTP.
Import Errors.

(** [mapHTTPError]; [body] is the response body, of which the code
    reads at most 1024 bytes.  [None] is Go's [nil].  The error for
    status 400 is made by [fmt.Errorf("%w: %s", ...)]: [Wrapf] holds
    the text that follows the wrapped error's. *)
Definition mapHTTPError (statusCode : Z) (body : string) : option error :=
  if (200 <=? statusCode) && (statusCode <? 300) then None
  else
    let body := String.substring 0 1024 body in
    if statusCode =? 429 then Some (Sentinel ErrRateLimited)
    else if (statusCode =? 401) || (statusCode =? 403) then Some (Sentinel ErrAuthFailed)
    else if statusCode =? 400 then Some (Wrapf (": " ++ body) (Sentinel ErrInvalidRequest))
    else Some (Sentinel ErrProviderUnavailable).

End ProviderHTTP.

Module EstimateSpec.

(** A quarter of the length of each message's content, rounded down,
    summed over the messages. *)
Fixpoint contentTokens (messages : list Message.t) : Z :=
  match messages with
  | [] => 0
  | m :: rest => Z.of_nat (String.length (Message.Content m)) / 4 + contentTokens rest
  end.

End EstimateSpec.

(** ** router.go: [NewRouter] *)

(** The optional interface [QuotaInitializer]: a store that can be
    given its limits.  [SetQuota] takes the clock reading of the
    call. *)
Class QuotaInitializer (Q : Type) := {
  qsSetQuota : Q -> Time.Time -> string -> Z -> Quota.QuotaUnit -> Q
}.

#[export] Instance MemoryQuotaStore_QuotaInitializer : QuotaInitializer MemoryQuotaStore.t := {
  qsSetQuota s now a limit unit := MemoryQuotaStore.SetQuota s now a limit unit
}.

Module RouterSetup.
Import Errors Quota Router.

Section WithStore.
Context {Q : Type} `{QuotaStore Q}.

(** The loop that fills [provMap]. *)
Definition provMap (providers : list Provider.t) : gmap string Provider.t :=
  fold_left (fun m p => <[Provider.Name p := p]> m) providers ∅.

(** The loop over [cfg.Accounts] that initialises the quota limits. *)
Fixpoint initQuotas (init : QuotaInitializer Q) (accounts : list AccountConfig.t)
    : M Q unit :=
  match accounts with
  | [] => ret tt
  | acc :: rest =>
      bind
        (if (0 <? AccountConfig.DailyFree acc) || negb (AccountConfig.PaidEnabled acc)
         then bind timeNow (fun now w =>
                (tt, withQuotaStore w
                       (qsSetQuota (quotaStore w) now (AccountConfig.ID acc)
                                   (AccountConfig.DailyFree acc)
                                   (AccountConfig.QuotaUnit acc))))
         else ret tt)
        (fun _ => initQuotas init rest)
  end.

(** [NewRouter].  The options are arguments: [policy] is the policy
    of [WithPolicy], if given; the quota store, the meter and the
    health tracker of the other options are those of the world, and
    [init] says whether the quota store implements
    [QuotaInitializer]. *)
Definition NewRouter (cfg : Config.t) (providers : list Provider.t)
    (policy : option Policy) (init : option (QuotaInitializer Q))
    : M Q (Router.t + error) :=
  if (length providers =? 0)%nat
  then ret (inr (Errorf "inferrouter: at least one provider is required"))
  else
    let r := {| Router.cfg := cfg;
                Router.providers := provMap providers;
                Router.policy := default defaultFreeFirstPolicy.Select policy |} in
    bind (match init with
          | Some i => initQuotas i (Config.Accounts cfg)
          | None => ret tt
          end)
         (fun _ => ret (inl r)).

End WithStore.

(** Whether [NewRouter] gives the account a quota row. *)
Definition limited (acc : AccountConfig.t) : bool :=
  (0 <? AccountConfig.DailyFree acc) || negb (AccountConfig.PaidEnabled acc).

End RouterSetup.

(** ** provider/gonka/bech32.go

    A byte, a [uint32] and a [uint] are integers with their
    wrap-around written out. *)

Module UInt8.
Definition wrap (z : Z) : Z := z mod 2 ^ 8.
End UInt8.

Module UInt32.
Definition wrap (z : Z) : Z := z mod 2 ^ 32.
Definition shl (x n : Z) : Z := wrap (Z.shiftl x n).
End UInt32.

Module UInt.
Definition wrap (z : Z) : Z := z mod 2 ^ 64.
End UInt.

Module Gonka.
Import Errors.

Definition bech32Charset : string := "qpzry9x8gf2tvdw0s3jn54khce6mua7l".

(** The characters of a string as [range] yields them; the model
    covers the strings of ASCII characters, whose code points are
    their bytes. *)
Definition runes (s : string) : list Z :=
  map (fun a => Z.of_nat (Ascii.nat_of_ascii a)) (String.list_ascii_of_string s).

Definition bech32HRPExpand (hrp : string) : list Z :=
  (map (fun c => UInt8.wrap (Z.shiftr c 5)) (runes hrp)
   ++ [0]
   ++ map (fun c => UInt8.wrap (Z.land c 31)) (runes hrp))%list.

Definition gen : list Z :=
  [0x3b6a57b2; 0x26508e6d; 0x1ea119fa; 0x3d4233dd; 0x2a1462b3].

(** The body of the loop over [values]. *)
Definition polymodStep (chk v : Z) : Z :=
  let b := Z.shiftr chk 25 in
  let chk := Z.lxor (UInt32.shl (Z.land chk 0x1ffffff) 5) v in
  fold_left
    (fun chk i =>
       if Z.land (Z.shiftr b (Z.of_nat i)) 1 =? 1
       then Z.lxor chk (nth i gen 0)
       else chk)
    (seq 0 5) chk.

Definition bech32Polymod (values : list Z) : Z :=
  fold_left polymodStep values 1.

Definition bech32Checksum (hrp : string) (data : list Z) : list Z :=
  let values := (bech32HRPExpand hrp ++ data)%list in
  let values := (values ++ [0; 0; 0; 0; 0; 0])%list in
  let polymod := Z.lxor (bech32Polymod values) 1 in
  map (fun i => UInt8.wrap (Z.land (Z.shiftr polymod (5 * (5 - Z.of_nat i))) 31))
      (seq 0 6).

(** [bech32Charset[v]] for an index within the string. *)
Definition charAt (v : Z) : Ascii.ascii :=
  default Ascii.zero (String.get (Z.to_nat v) bech32Charset).

(** The loop over [combined], [result] being the bytes appended so
    far. *)
Fixpoint encodeLoop (result : list Ascii.ascii) (combined : list Z) : string + error :=
  match combined with
  | [] => inl (String.string_of_list_ascii result)
  | v :: rest =>
      if Z.of_nat (String.length bech32Charset) <=? v
      then inr (Errorf ("gonka: bech32: invalid data byte " ++ pretty.pretty v))
      else encodeLoop (result ++ [charAt v])%list rest
  end.

Definition bech32Encode (hrp : string) (data : list Z) : string + error :=
  let checksum := bech32Checksum hrp data in
  let combined := (data ++ checksum)%list in
  encodeLoop (String.list_ascii_of_string hrp ++ [Ascii.ascii_of_nat 49])%list combined.

(** The loop [for bits >= toBits]: it runs at most [bits] times when
    [toBits] is positive, and [fuel] is given as that. *)
Fixpoint drainBits (fuel : nat) (toBits maxv acc bits : Z) (result : list Z)
    : Z * list Z :=
  match fuel with
  | O => (bits, result)
  | S fuel' =>
      if toBits <=? bits
      then
        let bits := UInt.wrap (bits - toBits) in
        drainBits fuel' toBits maxv acc bits
          (result ++ [UInt8.wrap (Z.land (Z.shiftr acc bits) maxv)])%list
      else (bits, result)
  end.

(** The loop over [data]: the error it returns, or [acc], [bits] and
    [result] after it. *)
Fixpoint convertLoop (fromBits toBits maxv : Z) (data : list Z)
    (acc bits : Z) (result : list Z) : error + Z * Z * list Z :=
  match data with
  | [] => inr (acc, bits, result)
  | b :: rest =>
      if negb (Z.shiftr b fromBits =? 0)
      then inl (Errorf ("gonka: bech32: invalid data byte " ++ pretty.pretty b))
      else
        let acc := UInt32.wrap (Z.lor (UInt32.shl acc fromBits) b) in
        let bits := UInt.wrap (bits + fromBits) in
        let '(bits, result) := drainBits (Z.to_nat bits) toBits maxv acc bits result in
        convertLoop fromBits toBits maxv rest acc bits result
  end.

Definition convertBits (data : list Z) (fromBits toBits : Z) (pad : bool)
    : list Z + error :=
  let maxv := UInt32.wrap (UInt32.shl 1 toBits - 1) in
  match convertLoop fromBits toBits maxv data 0 0 [] with
  | inl err => inr err
  | inr (acc, bits, result) =>
      if pad
      then
        if 0 <? bits
        then inl (result ++ [UInt8.wrap (Z.land (UInt32.shl acc (UInt.wrap (toBits - bits)))
                                                maxv)])%list
        else inl result
      else if fromBits <=? bits
      then inr (Errorf "gonka: bech32: excess padding")
      else if negb (Z.land (UInt32.shl acc (UInt.wrap (toBits - bits))) maxv =? 0)
      then inr (Errorf "gonka: bech32: non-zero padding")
      else inl result
  end.

End Gonka.

Module Bech32Spec.

(** [z] is a byte. *)
Definition isByte (z : Z) : Prop := 0 <= z < 256.

(** Every character of the string is an ASCII character. *)
Definition isASCII (s : string) : Prop :=
  Forall (fun c => c < 128) (Gonka.runes s).

(** The check a bech32 decoder makes of the human-readable part, the
    data and the checksum. *)
Definition verifies (hrp : string) (dataAndChecksum : list Z) : Prop :=
  Gonka.bech32Polymod (Gonka.bech32HRPExpand hrp ++ dataAndChecksum)%list = 1.

(** [d] with the five-bit groups of the list appended to it, the
    first group most significant. *)
Definition pack (groups : list Z) (d : Z) : Z :=
  fold_left (fun d s => Z.lxor (Z.shiftl d 5) s) groups d.

(** The number whose digits in base [2 ^ w] are those of [a] followed
    by the groups of the list, the first most significant. *)
Definition valFrom (w : Z) (groups : list Z) (a : Z) : Z :=
  fold_left (fun a x => a * 2 ^ w + x) groups a.

End Bech32Spec.

Module Bech32Samples.

(** Twenty bytes, as a RIPEMD-160 digest has. *)
Definition digest : list Z :=
  [0; 1; 2; 3; 4; 5; 6; 7; 8; 9; 250; 251; 252; 253; 254; 255; 16; 32; 64; 128].

End Bech32Samples.
(** * Theorems *)

Section Int64Facts.

Lemma wrap_in_range z : Int64.in_range z -> Int64.wrap z = z.
Proof.
  unfold Int64.in_range, Int64.wrap, Int64.min_int, Int64.max_int.
  intros H. rewrite Z.mod_small; lia.
Qed.

Lemma wrap_range z : Int64.in_range (Int64.wrap z).
Proof.
  unfold Int64.in_range, Int64.wrap, Int64.min_int, Int64.max_int.
  pose proof (Z.mod_pos_bound (z + 2 ^ 63) (2 ^ 64) ltac:(lia)). lia.
Qed.

Lemma wrap_wrap_add a b : Int64.wrap (Int64.wrap a + b) = Int64.wrap (a + b).
Proof.
  unfold Int64.wrap. f_equal.
  replace ((a + 2 ^ 63) mod 2 ^ 64 - 2 ^ 63 + b + 2 ^ 63)
    with ((a + 2 ^ 63) mod 2 ^ 64 + b) by lia.
  replace (a + b + 2 ^ 63) with ((a + 2 ^ 63) + b) by lia.
  rewrite Zplus_mod_idemp_l. reflexivity.
Qed.

End Int64Facts.

Section MemoryQuotaStoreFacts.
Import Errors Quota MemoryQuotaStore QuotaRuns.

Lemma available_exact q :
  row_inv q -> DailyLimit q <= Int64.max_int ->
  Int64.sub (Int64.sub (DailyLimit q) (Used q)) (Reserved q)
  = DailyLimit q - Used q - Reserved q.
Proof.
  intros (Hu & Hr & Hs) Hl. unfold Int64.sub.
  rewrite (wrap_in_range (DailyLimit q - Used q)).
  - apply wrap_in_range.
    unfold Int64.in_range, Int64.min_int, Int64.max_int in *. lia.
  - unfold Int64.in_range, Int64.min_int, Int64.max_int in *. lia.
Qed.

Lemma maybeReset_inv now q :
  row_inv q -> row_inv (maybeReset now q).
Proof.
  intros (Hu & Hr & Hs). unfold maybeReset.
  destruct (Time.After now (ResetAt q)); unfold row_inv; simpl; lia.
Qed.

Lemma maybeReset_limit now q : DailyLimit (maybeReset now q) = DailyLimit q.
Proof. unfold maybeReset. destruct (Time.After _ _); reflexivity. Qed.

Lemma maybeReset_idle now q :
  Time.After now (ResetAt q) = false -> maybeReset now q = q.
Proof. unfold maybeReset. intros ->. reflexivity. Qed.

Lemma store_inv_insert (s : t) a q sn :
  store_inv s -> row_inv q -> DailyLimit q <= Int64.max_int ->
  store_inv {| accounts := <[a := q]> (accounts s); seen := sn |}.
Proof.
  intros Hs Hq Hl a' q'. simpl.
  destruct (decide (a = a')) as [->|Hne].
  - rewrite lookup_insert_eq. intros [= <-]. split; assumption.
  - rewrite lookup_insert_ne by assumption. apply Hs.
Qed.

(** One [Reserve] of a non-negative amount keeps every row within the
    invariant, whatever its outcome. *)
Lemma Reserve_store_inv s now uuid a amount unit key :
  store_inv s -> 0 <= amount ->
  store_inv (snd (Reserve s now uuid a amount unit key)).
Proof.
  intros Hs Ha. unfold Reserve.
  destruct (negb (String.eqb key "") && seenKey s key); [exact Hs|].
  destruct (accounts s !! a) as [q0|] eqn:Hq0; [|exact Hs].
  destruct (Hs _ _ Hq0) as [Hinv Hlim].
  pose proof (maybeReset_inv now q0 Hinv) as Hinv'.
  pose proof (maybeReset_limit now q0) as Hlim'.
  set (q := maybeReset now q0) in *.
  rewrite (available_exact q Hinv') by lia.
  destruct (DailyLimit q - Used q - Reserved q <? amount) eqn:Hcmp; simpl.
  - apply store_inv_insert; [assumption..|lia].
  - apply Z.ltb_ge in Hcmp. destruct Hinv' as (Hu & Hr & Hsum).
    assert (Hadd : Int64.add (Reserved q) amount = Reserved q + amount).
    { apply wrap_in_range.
      unfold Int64.in_range, Int64.min_int, Int64.max_int in *. lia. }
    apply store_inv_insert; [assumption| |simpl; lia].
    unfold row_inv; simpl. rewrite Hadd. lia.
Qed.

Lemma runReserves_store_inv calls : forall s,
  store_inv s -> Forall (fun c => 0 <= c_amount c) calls ->
  store_inv (snd (runReserves s calls)).
Proof.
  induction calls as [|c rest IH]; intros s Hs Hall; simpl; [exact Hs|].
  inversion Hall as [|? ? Hc Hrest]; subst.
  destruct (doReserve s c) as [r s1] eqn:Hd.
  specialize (IH s1).
  destruct (runReserves s1 rest) as [rs s2] eqn:Hr. simpl in *.
  apply IH; [|assumption].
  unfold doReserve in Hd.
  pose proof (Reserve_store_inv s (c_now c) (c_uuid c) (c_account c)
                (c_amount c) (c_unit c) (c_key c) Hs Hc) as H.
  rewrite Hd in H. exact H.
Qed.

Lemma runReserves_length calls : forall s,
  length (fst (runReserves s calls)) = length calls.
Proof.
  induction calls as [|c rest IH]; intros s; simpl; [reflexivity|].
  destruct (doReserve s c) as [r s1].
  specialize (IH s1). destruct (runReserves s1 rest) as [rs s2].
  simpl in *. congruence.
Qed.

End MemoryQuotaStoreFacts.

Section NeverOverAllocate.
Import Errors Quota MemoryQuotaStore QuotaRuns.

Lemma fresh_keys_head s k ks :
  fresh_keys s (k :: ks) ->
  negb (String.eqb k "") && seenKey s k = false.
Proof.
  intros [_ Hall]. inversion Hall as [|? ? Hk _]; subst.
  destruct (String.eqb_spec k ""); simpl; [reflexivity|]. apply Hk. assumption.
Qed.

Lemma fresh_keys_tail s s' k ks :
  fresh_keys s (k :: ks) ->
  seen s' = (if String.eqb k "" then seen s else <[k := true]> (seen s)) ->
  fresh_keys s' ks.
Proof.
  intros [Hnd Hall] Hseen. inversion Hall as [|? ? _ Hrest]; subst.
  simpl in Hnd. split.
  - destruct (String.eqb k ""); simpl in Hnd; [assumption|].
    apply NoDup_cons in Hnd. tauto.
  - rewrite Forall_forall in Hrest |- *. intros k' Hin Hne.
    unfold seenKey. rewrite Hseen.
    destruct (String.eqb_spec k "") as [->|Hk]; simpl in Hnd.
    + apply Hrest; assumption.
    + apply NoDup_cons in Hnd. destruct Hnd as [Hnotin _].
      rewrite lookup_insert_ne.
      * apply Hrest; assumption.
      * intros ->. apply Hnotin. apply list_elem_of_In, filter_In.
        split; [apply list_elem_of_In; assumption|].
        destruct (String.eqb_spec k' ""); [contradiction|reflexivity].
Qed.

Lemma fresh_keys_same_seen s s' ks :
  fresh_keys s ks -> seen s' = seen s -> fresh_keys s' ks.
Proof.
  intros [Hnd Hall] Hseen. split; [assumption|].
  unfold seenKey in *. rewrite Hseen. assumption.
Qed.

(** [Reserve(a, 1)] calls against a row within its invariant, with no
    daily reset falling due: the [i]-th succeeds exactly when [i] is
    below what the row had available. *)
Lemma runReserves_ones a calls : forall s q,
  accounts s !! a = Some q ->
  row_inv q -> DailyLimit q <= Int64.max_int ->
  Forall (fun c => c_account c = a /\ c_amount c = 1 /\
                   Time.After (c_now c) (ResetAt q) = false) calls ->
  fresh_keys s (map c_key calls) ->
  fst (runReserves s calls)
  = imap (expectedResult (DailyLimit q - Used q - Reserved q)) calls.
Proof.
  induction calls as [|c rest IH]; intros s q Hq Hinv Hlim Hall Hfresh;
    [reflexivity|].
  inversion Hall as [|? ? (Hacc & Hamt & Hnow) Hrest]; subst.
  simpl map in Hfresh.
  pose proof (fresh_keys_head _ _ _ Hfresh) as Hhead.
  cbn [runReserves]. unfold doReserve, Reserve.
  rewrite Hhead, Hq, (maybeReset_idle _ _ Hnow), (available_exact q Hinv Hlim), Hamt.
  rewrite imap_cons. unfold expectedResult at 1. change (Z.of_nat 0) with 0.
  destruct Hinv as (Hu & Hr & Hsum).
  destruct (DailyLimit q - Used q - Reserved q <? 1) eqn:Hcmp.
  - (* exhausted: the row and the ledger stay as they are *)
    apply Z.ltb_lt in Hcmp.
    match goal with |- context [runReserves ?s1 rest] =>
      specialize (IH s1 q); destruct (runReserves s1 rest) as [rs s2] eqn:Hrun end.
    simpl in IH |- *.
    replace (0 <? DailyLimit q - Used q - Reserved q) with false
      by (symmetry; apply Z.ltb_ge; lia).
    f_equal. rewrite IH.
    + apply imap_ext. intros i x _. unfold expectedResult. simpl.
      replace (Z.of_nat (S i) <? DailyLimit q - Used q - Reserved q) with false
        by (symmetry; apply Z.ltb_ge; lia).
      replace (Z.of_nat i <? DailyLimit q - Used q - Reserved q) with false
        by (symmetry; apply Z.ltb_ge; lia).
      reflexivity.
    + apply lookup_insert_eq.
    + unfold row_inv; lia.
    + assumption.
    + assumption.
    + eapply fresh_keys_same_seen; [|reflexivity].
      destruct Hfresh as [Hnd Hf]. split.
      * simpl in Hnd. destruct (negb (String.eqb (c_key c) "")); [|assumption].
        apply NoDup_cons in Hnd. tauto.
      * inversion Hf; assumption.
  - (* one more unit is reserved *)
    apply Z.ltb_ge in Hcmp.
    assert (Hadd : Int64.add (Reserved q) 1 = Reserved q + 1).
    { apply wrap_in_range.
      unfold Int64.in_range, Int64.min_int, Int64.max_int in *. lia. }
    rewrite Hadd.
    match goal with |- context [runReserves ?s1 rest] =>
      specialize (IH s1 {| DailyLimit := DailyLimit q; Used := Used q;
                           Reserved := Reserved q + 1;
                           QUnit := QUnit q; ResetAt := ResetAt q |});
      destruct (runReserves s1 rest) as [rs s2] eqn:Hrun end.
    simpl in IH |- *.
    replace (0 <? DailyLimit q - Used q - Reserved q) with true
      by (symmetry; apply Z.ltb_lt; lia).
    f_equal.
    rewrite IH.
    + apply imap_ext. intros i x _. unfold expectedResult. simpl.
      replace (Z.of_nat (S i) <? DailyLimit q - Used q - Reserved q)
        with (Z.of_nat i <? DailyLimit q - Used q - (Reserved q + 1)).
      * reflexivity.
      * destruct (Z.ltb_spec (Z.of_nat i) (DailyLimit q - Used q - (Reserved q + 1)));
        destruct (Z.ltb_spec (Z.of_nat (S i)) (DailyLimit q - Used q - Reserved q));
        try reflexivity; lia.
    + apply lookup_insert_eq.
    + unfold row_inv; simpl; lia.
    + simpl; assumption.
    + simpl; assumption.
    + eapply fresh_keys_tail; [exact Hfresh|reflexivity].
Qed.

Lemma expected_successes calls : forall N,
  length (List.filter succeeded (imap (expectedResult N) calls))
  = Z.to_nat (Z.min (Z.of_nat (length calls)) N).
Proof.
  induction calls as [|c rest IH]; intros N.
  - simpl. lia.
  - rewrite imap_cons.
    rewrite (imap_ext _ (expectedResult (N - 1)) rest).
    + unfold expectedResult at 1. change (Z.of_nat 0) with 0.
      destruct (Z.ltb_spec 0 N); cbn [List.filter succeeded length];
        rewrite IH, ?Nat2Z.inj_succ; lia.
    + intros i x _. unfold expectedResult. simpl.
      destruct (Z.ltb_spec (Z.of_nat (S i)) N);
        destruct (Z.ltb_spec (Z.of_nat i) (N - 1)); try reflexivity; lia.
Qed.

End NeverOverAllocate.

Section ClaimC1.
Import Errors Quota MemoryQuotaStore QuotaRuns.

Lemma SetQuota_store_inv s now a N unit :
  store_inv s -> 0 <= N <= Int64.max_int ->
  store_inv (SetQuota s now a N unit).
Proof.
  intros Hs HN. unfold SetQuota. apply store_inv_insert; [assumption| |simpl; lia].
  unfold row_inv; simpl; lia.
Qed.

Lemma NewMemoryQuotaStore_inv : store_inv NewMemoryQuotaStore.
Proof. intros a q H. simpl in H. rewrite lookup_empty in H. discriminate. Qed.

(** C1 (amended). Starting from rows within the invariant [used >= 0],
    [reserved >= 0], [used + reserved <= daily_limit], every sequence of
    [Reserve] calls for non-negative amounts leaves every row within
    it, after each call of the sequence.  In particular, after
    [SetQuota(a, N)], a sequence of [Reserve(a, 1)] calls with fresh
    idempotency keys, no daily reset falling due and no Commit or
    Rollback in between returns a reservation for each of the first
    [N] calls and [ErrQuotaExceeded] for every later one, so the
    number of successes is [min (number of calls) N]. *)
Theorem C1_reserve_never_over_allocates
    (s : t) (t0 : Time.Time) (a : string) (N : Z) (unit : QuotaUnit)
    (calls : list reserveCall) :
  store_inv s -> 0 <= N <= Int64.max_int ->
  Forall (fun c => 0 <= c_amount c) calls ->
  let s0 := SetQuota s t0 a N unit in
  (forall n, store_inv (snd (runReserves s (take n calls))) /\
             store_inv (snd (runReserves s0 (take n calls)))) /\
  (Forall (fun c => c_account c = a /\ c_amount c = 1 /\
                    Time.After (c_now c) (nextMidnightUTC t0) = false) calls ->
   fresh_keys s (map c_key calls) ->
   fst (runReserves s0 calls) = imap (expectedResult N) calls /\
   length (List.filter succeeded (fst (runReserves s0 calls)))
   = Z.to_nat (Z.min (Z.of_nat (length calls)) N)).
Proof.
  intros Hs HN Hamt s0.
  assert (Hs0 : store_inv s0) by (apply SetQuota_store_inv; assumption).
  split.
  - intros n. split; apply runReserves_store_inv;
      try assumption; apply Forall_take; assumption.
  - intros Hones Hfresh.
    assert (Hrun : fst (runReserves s0 calls) = imap (expectedResult N) calls).
    { pose (q := {| DailyLimit := N; Used := 0; Reserved := 0;
                    QUnit := unit; ResetAt := nextMidnightUTC t0 |}).
      rewrite (runReserves_ones a calls s0 q).
      - simpl. f_equal. f_equal. lia.
      - apply lookup_insert_eq.
      - unfold row_inv; simpl; lia.
      - simpl; lia.
      - exact Hones.
      - eapply fresh_keys_same_seen; [exact Hfresh|reflexivity]. }
    split; [exact Hrun|]. rewrite Hrun. apply expected_successes.
Qed.

Lemma C1_reserve_never_over_allocates_witness :
  map succeeded
    (fst (runReserves (SetQuota NewMemoryQuotaStore 0 "acct" 2 QuotaRequests) Samples.c1_calls))
  = [true; true; false] /\
  length (List.filter succeeded
    (fst (runReserves (SetQuota NewMemoryQuotaStore 0 "acct" 2 QuotaRequests) Samples.c1_calls)))
  = 2%nat.
Proof.
  destruct (C1_reserve_never_over_allocates NewMemoryQuotaStore 0 "acct" 2
              QuotaRequests Samples.c1_calls) as [_ H].
  - exact NewMemoryQuotaStore_inv.
  - unfold Int64.max_int. lia.
  - repeat constructor; simpl; lia.
  - destruct H as [H1 H2].
    + repeat constructor.
    + split.
      * apply (bool_decide_unpack _). vm_compute. exact I.
      * repeat constructor; intros _; reflexivity.
    + split; [rewrite H1; reflexivity | rewrite H2; reflexivity].
Defined.

(** C1 as stated fails when an amount is negative: [Reserve] does not
    look at the sign of [amount].  Against a fresh row of limit 10,
    [Reserve(acct, -5)] succeeds and leaves [reserved = -5], so the row
    is outside the invariant after a successful reservation; a
    [Reserve(acct, 15)] then succeeds against the limit of 10.  The
    count of successes is not the limit either when a key is presented
    again (of three [Reserve(acct, 1)] calls with one key against a
    limit of 2, one succeeds and the others fail as duplicates) or when
    a midnight lies between the calls (against a limit of 1, a call on
    each side of it succeeds). *)
Lemma C1_negative_amount_breaks_invariant :
  let s0 := SetQuota NewMemoryQuotaStore 0 "acct" 10 QuotaTokens in
  let r1 := Reserve s0 1 "u1" "acct" (-5) QuotaTokens "" in
  let r2 := Reserve (snd r1) 2 "u2" "acct" 15 QuotaTokens "" in
  store_inv s0 /\
  succeeded (fst r1) = true /\
  accounts (snd r1) !! "acct"
  = Some {| DailyLimit := 10; Used := 0; Reserved := -5; QUnit := QuotaTokens;
            ResetAt := nextMidnightUTC 0 |} /\
  ~ store_inv (snd r1) /\
  succeeded (fst r2) = true /\
  accounts (snd r2) !! "acct"
  = Some {| DailyLimit := 10; Used := 0; Reserved := 10; QUnit := QuotaTokens;
            ResetAt := nextMidnightUTC 0 |} /\
  fst (runReserves (SetQuota NewMemoryQuotaStore 0 "acct" 2 QuotaRequests)
         Samples.sameKeyCalls)
  = [ inl {| ID := "u1"; AccountID := "acct"; Amount := 1; Unit := QuotaRequests |};
      inr (duplicateKey "k"); inr (duplicateKey "k") ] /\
  map succeeded
    (fst (runReserves (SetQuota NewMemoryQuotaStore 0 "acct" 1 QuotaRequests)
            Samples.twoDayCalls))
  = [true; true].
Proof.
  cbv zeta.
  assert (Hrow : accounts (snd (Reserve (SetQuota NewMemoryQuotaStore 0 "acct" 10 QuotaTokens)
                                  1 "u1" "acct" (-5) QuotaTokens "")) !! "acct"
                 = Some {| DailyLimit := 10; Used := 0; Reserved := -5;
                           QUnit := QuotaTokens; ResetAt := nextMidnightUTC 0 |})
    by (vm_compute; reflexivity).
  split; [|split; [|split; [|split; [|split; [|split; [|split]]]]]].
  - apply SetQuota_store_inv; [exact NewMemoryQuotaStore_inv|].
    unfold Int64.max_int. lia.
  - vm_compute. reflexivity.
  - exact Hrow.
  - intros Hinv. destruct (Hinv _ _ Hrow) as [(_ & Hr & _) _]. simpl in Hr. lia.
  - vm_compute. reflexivity.
  - vm_compute. reflexivity.
  - vm_compute. reflexivity.
  - vm_compute. reflexivity.
Qed.

End ClaimC1.

Section ClaimC3.
Import Errors Quota MemoryQuotaStore QuotaRuns.

(** On a configured account, a successful [Reserve] with a non-empty
    key makes every later [Reserve] with that key fail as a
    duplicate. *)
Lemma Reserve_configured_records_key s now uuid a amount unit key r s1 :
  is_Some (accounts s !! a) -> key <> "" ->
  Reserve s now uuid a amount unit key = (inl r, s1) ->
  forall now' uuid' a' amount' unit',
    Reserve s1 now' uuid' a' amount' unit' key = (inr (duplicateKey key), s1).
Proof.
  intros [q Hq] Hkey Hres now' uuid' a' amount' unit'.
  unfold Reserve in Hres. rewrite Hq in Hres.
  destruct (String.eqb_spec key "") as [|_]; [contradiction|].
  simpl in Hres. destruct (seenKey s key); [discriminate|].
  match type of Hres with context [if ?b then _ else _] => destruct b end;
    [discriminate|].
  injection Hres as _ <-.
  unfold Reserve, seenKey. simpl.
  destruct (String.eqb_spec key "") as [|_]; [contradiction|].
  rewrite lookup_insert_eq. reflexivity.
Qed.

(** A [Reserve] that fails with [ErrQuotaExceeded] leaves the ledger
    as it was, and its key was not in it. *)
Lemma Reserve_exceeded_keeps_ledger s now uuid a amount unit key s1 :
  Reserve s now uuid a amount unit key = (inr (Sentinel ErrQuotaExceeded), s1) ->
  seen s1 = seen s /\ (key <> "" -> seenKey s1 key = false).
Proof.
  unfold Reserve. intros Hres.
  destruct (String.eqb_spec key "") as [->|Hne]; simpl in Hres.
  - destruct (accounts s !! a); [|discriminate].
    match type of Hres with context [if ?b then _ else _] => destruct b end;
      [|discriminate].
    injection Hres as <-. split; [reflexivity|]. intros Hc; contradiction.
  - destruct (seenKey s key) eqn:Hseen; [discriminate|].
    destruct (accounts s !! a); [|discriminate].
    match type of Hres with context [if ?b then _ else _] => destruct b end;
      [|discriminate].
    injection Hres as <-. split; [reflexivity|]. intros _. exact Hseen.
Qed.

Lemma Reserve_unconfigured s now uuid a amount unit key :
  accounts s !! a = None -> seenKey s key = false ->
  Reserve s now uuid a amount unit key
  = (inl {| ID := uuid; AccountID := a; Amount := amount; Unit := unit |}, s).
Proof.
  intros Ha Hk. unfold Reserve. rewrite Hk, Ha, andb_false_r. reflexivity.
Qed.

(** C3 (the code departs from the claim). On an account without a
    quota row, [Reserve] returns before it records the idempotency
    key: two [Reserve] calls with the same non-empty key both
    succeed, and the key is still absent from the ledger afterwards. *)
Theorem C3_same_key_twice_on_unconfigured_account
    (s : t) (a key : string) (now1 now2 : Time.Time) (uuid1 uuid2 : string)
    (amount1 amount2 : Z) (unit1 unit2 : QuotaUnit) :
  accounts s !! a = None -> key <> "" -> seenKey s key = false ->
  let '(r1, s1) := Reserve s now1 uuid1 a amount1 unit1 key in
  let '(r2, s2) := Reserve s1 now2 uuid2 a amount2 unit2 key in
  succeeded r1 = true /\ succeeded r2 = true /\ seenKey s2 key = false.
Proof.
  intros Ha _ Hk.
  rewrite (Reserve_unconfigured s now1 uuid1 a amount1 unit1 key Ha Hk).
  rewrite (Reserve_unconfigured s now2 uuid2 a amount2 unit2 key Ha Hk).
  simpl. auto.
Qed.

Lemma C3_same_key_twice_on_unconfigured_account_witness :
  let '(r1, s1) := Reserve NewMemoryQuotaStore 10 "u1" "ghost" 1 QuotaTokens "key-1" in
  let '(r2, s2) := Reserve s1 20 "u2" "ghost" 1 QuotaTokens "key-1" in
  succeeded r1 = true /\ succeeded r2 = true /\ seenKey s2 "key-1" = false.
Proof.
  apply (C3_same_key_twice_on_unconfigured_account
           NewMemoryQuotaStore "ghost" "key-1" 10 20 "u1" "u2" 1 1 QuotaTokens QuotaTokens).
  - reflexivity.
  - discriminate.
  - reflexivity.
Defined.

End ClaimC3.

Section ClaimC6.
Import Errors Quota MemoryQuotaStore QuotaRuns.

(** What [Remaining] computes: zero for an account without a row, and
    otherwise the stored [daily_limit - used - reserved], floored at
    zero. *)
Lemma Remaining_unconfigured s now a :
  accounts s !! a = None -> Remaining s now a = (0, None).
Proof. intros Ha. unfold Remaining. rewrite Ha. reflexivity. Qed.

Lemma Remaining_configured s now a q :
  accounts s !! a = Some q -> row_inv q -> DailyLimit q <= Int64.max_int ->
  Remaining s now a = (Z.max 0 (DailyLimit q - Used q - Reserved q), None).
Proof.
  intros Ha Hinv Hlim. unfold Remaining. rewrite Ha, (available_exact q Hinv Hlim).
  destruct (Z.ltb_spec (DailyLimit q - Used q - Reserved q) 0); f_equal; lia.
Qed.

(** [Remaining] never looks at the clock. *)
Lemma Remaining_ignores_clock s now now' a :
  Remaining s now a = Remaining s now' a.
Proof. reflexivity. Qed.

(** C6 (the code departs from the claim). The account of
    [Samples.usedStore] has limit 10 and 4 used, and its reset time is
    the first midnight after time 0.  Two days later [Remaining]
    still answers 6, not the full limit 10, although a [Reserve] of
    all 10 at that same time succeeds, because [Reserve] does apply
    the reset. *)
Theorem C6_Remaining_skips_daily_reset :
  (exists q, accounts Samples.usedStore !! "acct" = Some q /\
             DailyLimit q = 10 /\ Used q = 4 /\ Reserved q = 0 /\
             Time.After Samples.twoDaysLater (ResetAt q) = true) /\
  Remaining Samples.usedStore Samples.twoDaysLater "acct" = (6, None) /\
  succeeded (fst (Reserve Samples.usedStore Samples.twoDaysLater "r2" "acct" 10
                    QuotaTokens "k2")) = true.
Proof.
  split; [|split].
  - eexists. split; [vm_compute; reflexivity|]. vm_compute. auto.
  - vm_compute. reflexivity.
  - vm_compute. reflexivity.
Qed.

End ClaimC6.

Section ClaimC7.
Import Errors Quota MemoryQuotaStore QuotaRuns.

Lemma wrap_add_sub r x :
  Int64.in_range r -> Int64.sub (Int64.add r x) x = r.
Proof.
  intros Hr. unfold Int64.sub, Int64.add.
  replace (Int64.wrap (r + x) - x) with (Int64.wrap (r + x) + - x) by lia.
  rewrite wrap_wrap_add. replace (r + x + - x) with r by lia.
  apply wrap_in_range. assumption.
Qed.

(** When no daily reset is due at the time of the [Reserve], a
    successful [Reserve] followed by the [Rollback] of its reservation
    puts the row back as it was, so [Remaining] answers as before. *)
Lemma Reserve_Rollback_restores s now uuid a x unit key q r s1 :
  accounts s !! a = Some q -> Int64.in_range (Reserved q) ->
  Time.After now (ResetAt q) = false ->
  Reserve s now uuid a x unit key = (inl r, s1) ->
  accounts (snd (Rollback s1 r)) = accounts s /\
  forall now', Remaining (snd (Rollback s1 r)) now' a = Remaining s now' a.
Proof.
  intros Hq Hr Hnow Hres.
  assert (Hacc : accounts (snd (Rollback s1 r)) = accounts s).
  { unfold Reserve in Hres. rewrite Hq, (maybeReset_idle _ _ Hnow) in Hres.
    destruct (negb (String.eqb key "") && seenKey s key); [discriminate|].
    match type of Hres with context [if (?lhs <? x) then _ else _] =>
      destruct (lhs <? x) end; [discriminate|].
    injection Hres as <- <-.
    unfold Rollback. simpl. rewrite lookup_insert_eq. simpl.
    rewrite insert_insert_eq, (wrap_add_sub _ _ Hr).
    apply insert_id. rewrite Hq. destruct q; reflexivity. }
  split; [exact Hacc|].
  intros now'. unfold Remaining. rewrite Hacc. reflexivity.
Qed.

(** C7 (the code departs from the claim). Two days after its quota
    was set, the account of [Samples.usedStore] reports 6 remaining.
    A [Reserve] of 1 at that time succeeds and is rolled back, with
    no other call in between, and [Remaining] then reports 10: the
    [Reserve] applied the daily reset that [Remaining] had not. *)
Theorem C7_Reserve_Rollback_changes_Remaining_after_reset :
  let now := Samples.twoDaysLater in
  let before := Remaining Samples.usedStore now "acct" in
  let '(r, s1) := Reserve Samples.usedStore now "r2" "acct" 1 QuotaTokens "k2" in
  match r with
  | inl res =>
      let '(e, s2) := Rollback s1 res in
      e = None /\ before = (6, None) /\ Remaining s2 now "acct" = (10, None)
  | inr _ => False
  end.
Proof. vm_compute. auto. Qed.

End ClaimC7.

Section ClaimC9.
Import Errors Quota MemoryQuotaStore QuotaRuns.

(** The in-memory [SetQuota] stores a fresh row whatever was there. *)
Lemma SetQuota_row s now a limit unit :
  accounts (SetQuota s now a limit unit) !! a
  = Some {| DailyLimit := limit; Used := 0; Reserved := 0; QUnit := unit;
            ResetAt := nextMidnightUTC now |}.
Proof. unfold SetQuota. simpl. apply lookup_insert_eq. Qed.

(** The Redis-backed [SetQuota] on an existing hash writes the limit
    and the unit and leaves the other fields alone. *)
Lemma Redis_SetQuota_preserves_usage (s : RedisStore.Store) now a limit unit h field :
  RedisStore.client s !! RedisStore.accountKey s a = Some h ->
  field <> "daily_limit" -> field <> "unit" ->
  RedisStore.HGet (RedisStore.SetQuota s now a limit unit) a field
  = RedisStore.HGet s a field.
Proof.
  intros Hh Hf1 Hf2. unfold RedisStore.HGet, RedisStore.SetQuota, RedisStore.Exists.
  rewrite Hh. simpl. unfold RedisStore.HSet, RedisStore.accountKey in *. simpl.
  rewrite lookup_insert_eq, Hh. simpl.
  rewrite !lookup_insert_ne by congruence. reflexivity.
Qed.

Lemma Redis_SetQuota_updates_limit (s : RedisStore.Store) now a limit unit h :
  RedisStore.client s !! RedisStore.accountKey s a = Some h ->
  RedisStore.HGet (RedisStore.SetQuota s now a limit unit) a "daily_limit"
  = Some (RedisStore.VInt limit) /\
  RedisStore.HGet (RedisStore.SetQuota s now a limit unit) a "unit"
  = Some (RedisStore.VStr unit).
Proof.
  intros Hh. unfold RedisStore.HGet, RedisStore.SetQuota, RedisStore.Exists.
  rewrite Hh. simpl. unfold RedisStore.HSet, RedisStore.accountKey in *. simpl.
  rewrite lookup_insert_eq, Hh. simpl. split.
  - rewrite lookup_insert_ne by discriminate. apply lookup_insert_eq.
  - apply lookup_insert_eq.
Qed.

(** C9 (the code departs from the claim). The row of
    [Samples.busyStore] has 4 used and 2 reserved; the in-memory
    [SetQuota] called on it with limit 20 installs the new limit and
    unit and sets [used] and [reserved] back to 0. *)
Theorem C9_memory_SetQuota_discards_usage :
  (Used <$> accounts Samples.busyStore !! "acct") = Some 4 /\
  (Reserved <$> accounts Samples.busyStore !! "acct") = Some 2 /\
  let s' := SetQuota Samples.busyStore Samples.twoDaysLater "acct" 20 QuotaRequests in
  (DailyLimit <$> accounts s' !! "acct") = Some 20 /\
  (QUnit <$> accounts s' !! "acct") = Some QuotaRequests /\
  (Used <$> accounts s' !! "acct") = Some 0 /\
  (Reserved <$> accounts s' !! "acct") = Some 0.
Proof. vm_compute. repeat split. Qed.

End ClaimC9.

Section ClaimC10.
Import Health.

Lemma GetHealth_other h now a b :
  accounts h !! a = None -> accounts (snd (GetHealth h now b)) !! a = None.
Proof.
  intros Ha. unfold GetHealth.
  destruct (accounts h !! b) as [ah|] eqn:Hb; [|exact Ha].
  destruct (HealthState_eqb (state ah) HealthUnhealthy
            && (UnhealthyPeriod (cfg h) <=? Time.Since now (unhealthyAt ah)));
    simpl; [|exact Ha].
  rewrite lookup_insert_ne; [exact Ha|]. intros ->. congruence.
Qed.

Lemma getOrCreate_other h a b :
  a <> b -> accounts h !! a = None -> accounts (snd (getOrCreate h b)) !! a = None.
Proof.
  intros Hne Ha. unfold getOrCreate.
  destruct (accounts h !! b); simpl; [exact Ha|].
  rewrite lookup_insert_ne by congruence. exact Ha.
Qed.

Lemma applyOp_keeps_absent h o a :
  records a o = false -> accounts h !! a = None ->
  accounts (applyOp h o) !! a = None.
Proof.
  intros Hrec Ha. destruct o as [now b|b|now b]; simpl in *.
  - apply GetHealth_other. exact Ha.
  - apply String.eqb_neq in Hrec.
    pose proof (getOrCreate_other h a b ltac:(congruence) Ha) as Hc.
    unfold RecordSuccess. destruct (getOrCreate h b) as [ah h1]. simpl in *.
    rewrite lookup_insert_ne by congruence. exact Hc.
  - apply String.eqb_neq in Hrec.
    pose proof (getOrCreate_other h a b ltac:(congruence) Ha) as Hc.
    unfold RecordFailure. destruct (getOrCreate h b) as [ah h1]. simpl in *.
    destruct (HealthState_eqb (state ah) HealthUnhealthy); [exact Hc|].
    simpl. rewrite lookup_insert_ne by congruence. exact Hc.
Qed.

Lemma run_keeps_absent ops : forall h a,
  Forall (fun o => records a o = false) ops -> accounts h !! a = None ->
  accounts (fold_left applyOp ops h) !! a = None.
Proof.
  induction ops as [|o rest IH]; intros h a Hall Ha; simpl; [exact Ha|].
  inversion Hall; subst. apply IH; [assumption|].
  apply applyOp_keeps_absent; assumption.
Qed.

(** C10. After any sequence of tracker operations that holds no
    [RecordSuccess] and no [RecordFailure] for an account,
    [GetHealth] answers [HealthHealthy] for it and returns the tracker
    as it was, still without a record for the account; a single
    [RecordFailure] that follows stores a failure window holding that
    one failure only. *)
Theorem C10_GetHealth_unknown_account
    (c : HealthConfig) (ops : list op) (a : string) (now now' : Time.Time) :
  Forall (fun o => records a o = false) ops ->
  let h := fold_left applyOp ops (NewHealthTrackerWithConfig c) in
  GetHealth h now a = (HealthHealthy, h) /\
  accounts (snd (GetHealth h now a)) !! a = None /\
  (failures <$> accounts (RecordFailure (snd (GetHealth h now a)) now' a) !! a)
  = Some [now'].
Proof.
  intros Hall h.
  assert (Ha : accounts h !! a = None).
  { apply run_keeps_absent; [exact Hall|]. apply lookup_empty. }
  assert (Hget : GetHealth h now a = (HealthHealthy, h)).
  { unfold GetHealth. rewrite Ha. reflexivity. }
  rewrite Hget. simpl. repeat split; [exact Ha|].
  unfold RecordFailure, getOrCreate. rewrite Ha. simpl.
  rewrite lookup_insert_eq.
  destruct (FailureThreshold (cfg h) <=? Z.of_nat 1); reflexivity.
Qed.

Lemma C10_GetHealth_unknown_account_witness :
  let h := fold_left applyOp Samples.healthOps NewHealthTracker in
  GetHealth h 100 "acct" = (HealthHealthy, h) /\
  accounts (snd (GetHealth h 100 "acct")) !! "acct" = None /\
  (failures <$> accounts (RecordFailure (snd (GetHealth h 100 "acct")) 200 "acct") !! "acct")
  = Some [200].
Proof.
  apply (C10_GetHealth_unknown_account DefaultHealthConfig Samples.healthOps
           "acct" 100 200).
  repeat constructor.
Defined.

End ClaimC10.

Section FloatOrderFacts.
Import FloatOrder.

Lemma SFcompare_key x y :
  x <> S754_nan -> y <> S754_nan ->
  SFcompare x y = Some (lexcmp (key x) (key y)).
Proof.
  intros Hx Hy.
  destruct x as [sx|sx| |sx mx ex]; try contradiction;
  destruct y as [sy|sy| |sy my ey]; try contradiction;
  try destruct sx; try destruct sy; try reflexivity.
  (* what is left: both negative and finite *)
  unfold lexcmp; simpl. rewrite Z.compare_opp, (Z.compare_antisym ex ey).
  destruct (ex ?= ey); reflexivity.
Qed.

Lemma lexcmp_Lt a b : lexcmp a b = Lt <-> lexlt a b.
Proof.
  destruct a as [[a1 a2] a3], b as [[b1 b2] b3]. unfold lexcmp, lexlt; simpl.
  destruct (Z.compare_spec a1 b1); [|split; [lia|reflexivity]|split; [discriminate|lia]].
  destruct (Z.compare_spec a2 b2); [|split; [lia|reflexivity]|split; [discriminate|lia]].
  rewrite Z.compare_lt_iff. lia.
Qed.

Lemma lexcmp_Gt a b : lexcmp a b = Gt <-> lexlt b a.
Proof.
  destruct a as [[a1 a2] a3], b as [[b1 b2] b3]. unfold lexcmp, lexlt; simpl.
  destruct (Z.compare_spec a1 b1); [|split; [discriminate|lia]|split; [lia|reflexivity]].
  destruct (Z.compare_spec a2 b2); [|split; [discriminate|lia]|split; [lia|reflexivity]].
  destruct (Z.compare_spec a3 b3); split; try discriminate; try reflexivity; lia.
Qed.

Lemma not_nan_spec x : Float64.is_nan x = false -> Prim2SF x <> S754_nan.
Proof.
  unfold Float64.is_nan, is_nan. rewrite FloatAxioms.eqb_spec. intros H Hn.
  rewrite Hn in H. discriminate.
Qed.

(** On floats that are not NaN, [<] is the lexicographic order of the
    keys. *)
Lemma ltb_key x y :
  Float64.is_nan x = false -> Float64.is_nan y = false ->
  (Float64.ltb x y = true <-> lexlt (fkey x) (fkey y)).
Proof.
  intros Hx Hy. unfold Float64.ltb. rewrite FloatAxioms.ltb_spec. unfold SFltb.
  rewrite (SFcompare_key _ _ (not_nan_spec x Hx) (not_nan_spec y Hy)).
  rewrite <- lexcmp_Lt. unfold fkey.
  destruct (lexcmp (key (Prim2SF x)) (key (Prim2SF y))); split; congruence.
Qed.

Lemma leb_key x y :
  Float64.is_nan x = false -> Float64.is_nan y = false ->
  (Float64.leb x y = true <-> ~ lexlt (fkey y) (fkey x)).
Proof.
  intros Hx Hy. unfold Float64.leb. rewrite FloatAxioms.leb_spec. unfold SFleb.
  rewrite (SFcompare_key _ _ (not_nan_spec x Hx) (not_nan_spec y Hy)).
  rewrite <- lexcmp_Gt. unfold fkey.
  destruct (lexcmp (key (Prim2SF x)) (key (Prim2SF y))); split; congruence.
Qed.

Lemma ltb_false_key x y :
  Float64.is_nan x = false -> Float64.is_nan y = false ->
  (Float64.ltb x y = false <-> ~ lexlt (fkey x) (fkey y)).
Proof.
  intros Hx Hy. rewrite <- (ltb_key x y Hx Hy).
  destruct (Float64.ltb x y); split; congruence.
Qed.

Lemma ltb_asym x y :
  Float64.is_nan x = false -> Float64.is_nan y = false ->
  Float64.ltb x y = true -> Float64.ltb y x = false.
Proof.
  intros Hx Hy H. apply (ltb_key x y Hx Hy) in H. apply (ltb_false_key y x Hy Hx).
  unfold lexlt in *. lia.
Qed.

Lemma ltb_negtrans x y z :
  Float64.is_nan x = false -> Float64.is_nan y = false -> Float64.is_nan z = false ->
  Float64.ltb x y = false -> Float64.ltb y z = false -> Float64.ltb x z = false.
Proof.
  intros Hx Hy Hz H1 H2.
  apply (ltb_false_key x y Hx Hy) in H1. apply (ltb_false_key y z Hy Hz) in H2.
  apply (ltb_false_key x z Hx Hz). unfold lexlt in *. lia.
Qed.

Lemma ltb_false_leb x y :
  Float64.is_nan x = false -> Float64.is_nan y = false ->
  Float64.ltb y x = false -> Float64.leb x y = true.
Proof.
  intros Hx Hy H. apply (ltb_false_key y x Hy Hx) in H.
  apply (leb_key x y Hx Hy). exact H.
Qed.

End FloatOrderFacts.

(** ** Stable insertion sort under a strict weak order *)

Section StableSort.
Import Sort SortSpec.
Context {A : Type} (less : A -> A -> bool) (D : A -> Prop).
Hypothesis less_asym : forall x y, D x -> D y -> less x y = true -> less y x = false.
Hypothesis less_negtrans : forall x y z, D x -> D y -> D z ->
  less x y = false -> less y z = false -> less x z = false.

Lemma insertBack_perm x (l : list A) : Permutation (insertBack less x l) (x :: l).
Proof.
  induction l as [|y ys IH]; simpl; [reflexivity|].
  destruct (less x y); [|reflexivity].
  rewrite IH. apply perm_swap.
Qed.

Lemma fold_insertBack_perm (l : list A) : forall acc,
  Permutation (fold_left (fun p x => insertBack less x p) l acc) (rev l ++ acc).
Proof.
  induction l as [|x xs IH]; intros acc; simpl; [reflexivity|].
  rewrite IH, insertBack_perm, <- app_assoc. simpl.
  apply Permutation_app_head. reflexivity.
Qed.

Lemma SliceStable_perm (l : list A) : Permutation (SliceStable less l) l.
Proof.
  unfold SliceStable. rewrite <- Permutation_rev, fold_insertBack_perm, app_nil_r.
  symmetry. apply Permutation_rev.
Qed.

Lemma insertBack_Forall (P : A -> Prop) x (l : list A) :
  P x -> Forall P l -> Forall P (insertBack less x l).
Proof.
  intros Hx Hl. induction Hl as [|y ys Hy Hys IH]; simpl.
  - constructor; [assumption|constructor].
  - destruct (less x y); repeat constructor; assumption.
Qed.

(** The reversed prefix stays sorted: no element is [less] than one
    that follows it. *)
Lemma insertBack_sorted x (l : list A) :
  D x -> Forall D l ->
  StronglySorted (fun a b => less a b = false) l ->
  StronglySorted (fun a b => less a b = false) (insertBack less x l).
Proof.
  intros Hx HD Hs. induction Hs as [|y ys Hys IH Hall]; simpl.
  - repeat constructor.
  - inversion HD as [|? ? Hy HDys]; subst.
    destruct (less x y) eqn:Hxy.
    + constructor; [apply IH; assumption|].
      apply insertBack_Forall; [|assumption].
      apply less_asym; assumption.
    + constructor; [constructor; assumption|].
      constructor; [assumption|].
      rewrite Forall_forall in Hall, HDys |- *. intros z Hz.
      apply (less_negtrans x y z); auto.
Qed.

Lemma fold_insertBack_sorted (l : list A) : forall acc,
  Forall D l -> Forall D acc ->
  StronglySorted (fun a b => less a b = false) acc ->
  StronglySorted (fun a b => less a b = false)
    (fold_left (fun p x => insertBack less x p) l acc) /\
  Forall D (fold_left (fun p x => insertBack less x p) l acc).
Proof.
  induction l as [|x xs IH]; intros acc Hl Hacc Hs; simpl; [split; assumption|].
  inversion Hl; subst. apply IH; [assumption| |].
  - apply insertBack_Forall; assumption.
  - apply insertBack_sorted; assumption.
Qed.

Lemma StronglySorted_rev_flip (R : A -> A -> Prop) (l : list A) :
  StronglySorted R l -> StronglySorted (fun a b => R b a) (rev l).
Proof.
  induction 1 as [|x xs Hxs IH Hall]; simpl; [constructor|].
  apply StronglySorted_app_2; [|assumption|repeat constructor].
  intros a b Ha Hb. apply list_elem_of_singleton in Hb. subst b.
  rewrite Forall_forall in Hall. apply Hall.
  apply list_elem_of_In, in_rev, list_elem_of_In. assumption.
Qed.

(** The result is sorted: no element is [less] than one before it. *)
Lemma SliceStable_sorted (l : list A) :
  Forall D l ->
  StronglySorted (fun a b => less b a = false) (SliceStable less l).
Proof.
  intros Hl. unfold SliceStable.
  apply (StronglySorted_rev_flip (fun a b => less a b = false)).
  apply fold_insertBack_sorted; [assumption|constructor|constructor].
Qed.

(** Moving [x] into the prefix does not move it past an element it
    ties with [c] together with. *)
Lemma insertBack_tie c x (l : list A) :
  D c -> D x -> Forall D l ->
  List.filter (tie less c) (insertBack less x l) = List.filter (tie less c) (x :: l).
Proof.
  intros Hc Hx Hl. induction Hl as [|y ys Hy Hys IH]; [reflexivity|].
  cbn [insertBack]. destruct (less x y) eqn:Hxy; [|reflexivity].
  cbn [List.filter] in IH |- *. rewrite IH.
  destruct (tie less c x) eqn:Hcx; [|reflexivity].
  destruct (tie less c y) eqn:Hcy; [|reflexivity].
  exfalso. unfold tie in Hcx, Hcy.
  apply andb_prop in Hcx as [_ Hxc]. apply andb_prop in Hcy as [Hcy _].
  apply negb_true_iff in Hxc, Hcy.
  rewrite (less_negtrans x c y Hx Hc Hy Hxc Hcy) in Hxy. discriminate.
Qed.

Lemma fold_insertBack_tie c (l : list A) : forall acc,
  D c -> Forall D l -> Forall D acc ->
  List.filter (tie less c) (fold_left (fun p x => insertBack less x p) l acc)
  = List.filter (tie less c) (rev l ++ acc).
Proof.
  induction l as [|x xs IH]; intros acc Hc Hl Hacc; [reflexivity|].
  inversion Hl; subst. cbn [fold_left].
  rewrite IH; [|assumption|assumption|apply insertBack_Forall; assumption].
  cbn [rev]. rewrite <- app_assoc, !List.filter_app.
  rewrite insertBack_tie by assumption. f_equal.
  change (x :: acc) with ([x] ++ acc)%list. apply List.filter_app.
Qed.

(** Stability: the elements that tie with [c] come out in the order in
    which they came in. *)
Lemma SliceStable_stable c (l : list A) :
  D c -> Forall D l ->
  List.filter (tie less c) (SliceStable less l) = List.filter (tie less c) l.
Proof.
  intros Hc Hl. unfold SliceStable.
  rewrite filter_rev, fold_insertBack_tie by (assumption || constructor).
  rewrite app_nil_r, filter_rev, rev_involutive. reflexivity.
Qed.

End StableSort.

Section ClaimC8.
Import Sort SortSpec FreeFirstSpec.

Lemma FreeFirst_less_asym x y :
  comparable x -> comparable y ->
  FreeFirstPolicy.less x y = true -> FreeFirstPolicy.less y x = false.
Proof.
  unfold comparable, FreeFirstPolicy.less. intros Hx Hy.
  destruct (Candidate.Free x), (Candidate.Free y); simpl; try congruence.
  - intros H. apply Z.ltb_lt in H. apply Z.ltb_ge. lia.
  - apply ltb_asym; assumption.
Qed.

Lemma FreeFirst_less_negtrans x y z :
  comparable x -> comparable y -> comparable z ->
  FreeFirstPolicy.less x y = false -> FreeFirstPolicy.less y z = false ->
  FreeFirstPolicy.less x z = false.
Proof.
  unfold comparable, FreeFirstPolicy.less. intros Hx Hy Hz.
  destruct (Candidate.Free x), (Candidate.Free y), (Candidate.Free z);
    simpl; try congruence.
  - intros H1 H2. apply Z.ltb_ge in H1, H2. apply Z.ltb_ge. lia.
  - apply ltb_negtrans; assumption.
Qed.

Lemma FreeFirst_not_less_before a b :
  comparable a -> comparable b ->
  FreeFirstPolicy.less b a = false -> before a b.
Proof.
  unfold comparable, FreeFirstPolicy.less, before. intros Ha Hb.
  destruct (Candidate.Free a), (Candidate.Free b); simpl; intros H;
    repeat split; try congruence.
  - intros _ _. apply Z.ltb_ge in H. exact H.
  - intros _ _. exact (ltb_false_leb _ _ Ha Hb H).
Qed.

Lemma StronglySorted_weaken {A} (R R' : A -> A -> Prop) (D : A -> Prop) (l : list A) :
  (forall a b, D a -> D b -> R a b -> R' a b) ->
  Forall D l -> StronglySorted R l -> StronglySorted R' l.
Proof.
  intros Himp HD Hs. induction Hs as [|x xs Hxs IH Hall]; [constructor|].
  inversion HD as [|? ? Hx HDxs]; subst.
  constructor; [apply IH; assumption|].
  rewrite Forall_forall in Hall, HDxs |- *. intros y Hy. apply Himp; auto.
Qed.

(** C8 (amended). For every list of candidates none of whose blended
    costs is a NaN, [FreeFirstPolicy.Select] returns a permutation of
    the list in which no paid candidate stands before a free one, free
    candidates stand in order of decreasing [Remaining] and paid ones
    in order of increasing blended cost, and in which the candidates
    that tie with any given candidate keep the order they had in the
    input.  The order is stated with the blended cost in the words of
    the claim: [(input + 2 * output) / 3] when either of the two rates
    is positive, and the legacy rate otherwise. *)
Theorem C8_FreeFirstPolicy_Select_stable_order (candidates : list Candidate.t) :
  Forall comparable candidates ->
  Permutation (FreeFirstPolicy.Select candidates) candidates /\
  StronglySorted before (FreeFirstPolicy.Select candidates) /\
  (forall c, comparable c ->
     List.filter (tie FreeFirstPolicy.less c) (FreeFirstPolicy.Select candidates)
     = List.filter (tie FreeFirstPolicy.less c) candidates).
Proof.
  intros Hall. unfold FreeFirstPolicy.Select.
  assert (Hperm : Permutation (SliceStable FreeFirstPolicy.less candidates) candidates)
    by apply SliceStable_perm.
  split; [|split].
  - exact Hperm.
  - apply (StronglySorted_weaken
             (fun a b => FreeFirstPolicy.less b a = false) before comparable).
    + intros a b Ha Hb. apply FreeFirst_not_less_before; assumption.
    + rewrite Forall_forall in Hall |- *. intros c Hc. apply Hall.
      rewrite <- Hperm. exact Hc.
    + apply (SliceStable_sorted FreeFirstPolicy.less comparable);
        [exact FreeFirst_less_asym|exact FreeFirst_less_negtrans|exact Hall].
  - intros c Hc.
    apply (SliceStable_stable FreeFirstPolicy.less comparable);
      [exact FreeFirst_less_negtrans|exact Hc|exact Hall].
Qed.

Lemma C8_FreeFirstPolicy_Select_stable_order_witness :
  map Candidate.AccountID (FreeFirstPolicy.Select Samples.mixedCandidates)
  = ["free-b"; "free-a"; "free-c"; "paid-b"; "paid-a"; "paid-c"] /\
  Permutation (FreeFirstPolicy.Select Samples.mixedCandidates) Samples.mixedCandidates /\
  StronglySorted before (FreeFirstPolicy.Select Samples.mixedCandidates).
Proof.
  destruct (C8_FreeFirstPolicy_Select_stable_order Samples.mixedCandidates)
    as (Hperm & Hsorted & _).
  - repeat constructor.
  - split; [vm_compute; reflexivity|]. split; assumption.
Defined.

(** C8 as stated fails on a list with a NaN cost.  Three paid
    candidates cost 2, NaN and 1, in this order.  No comparison with
    the NaN holds, so the insertion sort moves nothing: [Select]
    returns the list as it is, with the candidate that costs 2 before
    the one that costs 1. *)
Lemma C8_NaN_cost_breaks_the_order :
  map Candidate.Free Samples.nanCandidates = [false; false; false] /\
  map (fun c => Float64.is_nan (Candidate.BlendedCost c)) Samples.nanCandidates
  = [false; true; false] /\
  map Candidate.AccountID (FreeFirstPolicy.Select Samples.nanCandidates)
  = ["paid-2"; "paid-nan"; "paid-1"] /\
  Float64.ltb (blended_cost (Samples.candidate Samples.good "paid-1" false 0
                               Quota.QuotaTokens 1%float))
              (blended_cost (Samples.candidate Samples.good "paid-2" false 0
                               Quota.QuotaTokens 2%float)) = true /\
  ~ StronglySorted before (FreeFirstPolicy.Select Samples.nanCandidates).
Proof.
  split; [reflexivity|]. split; [vm_compute; reflexivity|].
  split; [vm_compute; reflexivity|]. split; [vm_compute; reflexivity|].
  assert (Hsel : FreeFirstPolicy.Select Samples.nanCandidates = Samples.nanCandidates)
    by (vm_compute; reflexivity).
  rewrite Hsel. unfold Samples.nanCandidates. intros Hs.
  inversion Hs as [|? ? _ Hall]; subst.
  inversion Hall as [|? ? _ Hrest]; subst.
  inversion Hrest as [|? ? (_ & _ & Hcost) _]; subst.
  specialize (Hcost eq_refl eq_refl). vm_compute in Hcost. discriminate.
Qed.

End ClaimC8.

Section ClaimC4.

Import FilterSpec.

Lemma filterCandidates_from (allowPaid : bool) (cs : list Candidate.t) : forall acc,
  fold_left
    (fun filtered c =>
       if Health.HealthState_eqb (Candidate.Health c) Health.HealthUnhealthy then filtered
       else if negb (Candidate.Free c) && negb allowPaid then filtered
       else (filtered ++ [c])%list)
    cs acc
  = (acc ++ List.filter (kept allowPaid) cs)%list.
Proof.
  induction cs as [|c rest IH]; intros acc; simpl; [symmetry; apply app_nil_r|].
  rewrite IH. unfold kept.
  destruct (Health.HealthState_eqb (Candidate.Health c) Health.HealthUnhealthy);
    simpl; [reflexivity|].
  destruct (Candidate.Free c), allowPaid; simpl;
    rewrite <- ?app_assoc; reflexivity.
Qed.

(** The filter is the subsequence of the input that drops the unhealthy
    candidates and, when paid ones are not allowed, the paid ones;
    half-open candidates are kept.  The spend fields are not read. *)
Lemma filterCandidates_spec (cs : list Candidate.t) (allowPaid : bool) :
  filterCandidates cs allowPaid = List.filter (kept allowPaid) cs.
Proof. unfold filterCandidates. apply filterCandidates_from. Qed.

Lemma filter_kept_no_ceiling (cs : list Candidate.t) (allowPaid : bool) :
  Forall (fun c => overCeiling c = false) cs ->
  List.filter (keptAsClaimed allowPaid) cs = List.filter (kept allowPaid) cs.
Proof.
  induction 1 as [|c rest Hc _ IH]; [reflexivity|].
  cbn [List.filter]. unfold keptAsClaimed at 1. rewrite Hc, andb_true_r, IH.
  reflexivity.
Qed.

Lemma candidatesForModels_no_ceiling {Q : Type} `{QuotaStore Q} acc prov models :
  forall w : Router.World Q,
  Forall (fun c => overCeiling c = false)
         (fst (Router.candidatesForModels acc prov models w)).
Proof.
  induction models as [|model rest IH]; intros w; [constructor|].
  cbn [Router.candidatesForModels]. unfold Router.bind, Router.ret.
  destruct (Router.Remaining (AccountConfig.ID acc) w) as [r w1].
  destruct (Router.GetHealth (AccountConfig.ID acc) w1) as [st w2].
  specialize (IH w2). destruct (Router.candidatesForModels acc prov rest w2) as [cs w3].
  cbn [fst] in IH |- *. constructor; [|exact IH].
  unfold overCeiling. cbn [Candidate.MaxDailySpend Candidate.CurrentSpend].
  replace (Float64.ltb 0%float 0%float) with false by (vm_compute; reflexivity).
  rewrite andb_false_r. reflexivity.
Qed.

(** The candidates [buildCandidates] makes carry no spend figures:
    both fields are left at zero, so none is over a ceiling. *)
Lemma buildCandidates_no_ceiling {Q : Type} `{QuotaStore Q}
    cfg provs requestModel (w : Router.World Q) :
  Forall (fun c => overCeiling c = false)
         (fst (Router.buildCandidates cfg provs requestModel w)).
Proof.
  unfold Router.buildCandidates. generalize (Config.Accounts cfg) as accounts.
  intros accounts. revert w. induction accounts as [|acc rest IH]; intros w; [constructor|].
  cbn [Router.buildCandidatesFrom].
  destruct (provs !! AccountConfig.Provider acc) as [prov|]; [|apply IH].
  unfold Router.bind, Router.ret.
  pose proof (candidatesForModels_no_ceiling acc prov
                (Router.modelsForAccount (Router.resolveModel cfg requestModel) acc prov
                                         requestModel cfg) w) as Hcs.
  destruct (Router.candidatesForModels acc prov _ w) as [cs w1]. cbn [fst] in Hcs.
  specialize (IH w1).
  destruct (Router.buildCandidatesFrom cfg provs requestModel _ rest w1) as [cs' w2].
  cbn [fst] in IH |- *. apply Forall_app. split; assumption.
Qed.

(** C4 (amended). For every candidate list and [allowPaid] flag the
    filter returns exactly the subsequence of the input without the
    unhealthy candidates and, when paid ones are not allowed, without
    the paid ones; half-open candidates are kept.  There is no third
    rule: the spend fields are not read.  On a list in which no paid
    candidate has reached a ceiling the result is what the three
    rules of the claim give, and every list [buildCandidates] hands to
    the filter is such a list, its candidates carrying no spend
    figures. *)
Theorem C4_filterCandidates_rules {Q : Type} `{QuotaStore Q}
    (cs : list Candidate.t) (allowPaid : bool) :
  filterCandidates cs allowPaid = List.filter (kept allowPaid) cs /\
  sublist (filterCandidates cs allowPaid) cs /\
  (forall c, In c cs -> Candidate.Health c = Health.HealthHalfOpen ->
     Candidate.Free c = true \/ allowPaid = true ->
     In c (filterCandidates cs allowPaid)) /\
  (Forall (fun c => overCeiling c = false) cs ->
   filterCandidates cs allowPaid = List.filter (keptAsClaimed allowPaid) cs) /\
  (forall cfg provs requestModel (w : Router.World Q),
     let built := fst (Router.buildCandidates cfg provs requestModel w) in
     filterCandidates built allowPaid = List.filter (keptAsClaimed allowPaid) built).
Proof.
  rewrite filterCandidates_spec.
  split; [reflexivity|]. split; [|split; [|split]].
  - clear. induction cs as [|c cs IH]; simpl; [constructor|].
    destruct (kept allowPaid c); [apply sublist_skip|apply sublist_cons]; exact IH.
  - intros c Hin Hh Hf. apply filter_In. split; [exact Hin|].
    unfold kept. rewrite Hh. simpl.
    destruct Hf as [-> | ->]; [reflexivity|apply orb_true_r].
  - intros Hall. symmetry. apply filter_kept_no_ceiling. exact Hall.
  - intros cfg provs requestModel w built. rewrite filterCandidates_spec.
    symmetry. apply filter_kept_no_ceiling. apply buildCandidates_no_ceiling.
Qed.

Lemma C4_filterCandidates_rules_witness :
  map Candidate.AccountID (filterCandidates Samples.mixedCandidates false)
  = ["free-a"; "free-b"; "free-c"] /\
  filterCandidates Samples.mixedCandidates false
  = List.filter (keptAsClaimed false) Samples.mixedCandidates.
Proof.
  destruct (C4_filterCandidates_rules (Q := noopQuotaStore) Samples.mixedCandidates false)
    as (_ & _ & _ & Hclaimed & _).
  split; [vm_compute; reflexivity|].
  apply Hclaimed. repeat constructor.
Defined.

(** C4 as stated fails.  [Samples.overSpent] is a healthy paid
    candidate with [max_daily_spend = 0.5 > 0] and
    [current_spend = 0.75 >= max_daily_spend]; with paid candidates
    allowed the third rule of the claim drops it and the filter keeps
    it. *)
Lemma C4_filter_keeps_candidate_over_spend_ceiling :
  Candidate.Free Samples.overSpent = false /\
  Float64.ltb 0%float (Candidate.MaxDailySpend Samples.overSpent) = true /\
  Float64.leb (Candidate.MaxDailySpend Samples.overSpent)
              (Candidate.CurrentSpend Samples.overSpent) = true /\
  List.filter (keptAsClaimed true) [Samples.overSpent] = [] /\
  filterCandidates [Samples.overSpent] true = [Samples.overSpent].
Proof. repeat split. Qed.

End ClaimC4.

(** ** The attempt loop *)

Section AttemptLoop.
Import Errors Quota Router RouterSpec.
Context {Q : Type} `{QuotaStore Q}.

Lemma reserveStep_providerCalls est c (w w1 : World Q) r :
  reserveStep est c w = (r, w1) -> providerCalls w1 = providerCalls w.
Proof.
  unfold reserveStep, Reserve, bind, newUUID, timeNow. simpl.
  destruct (qsReserve _ _ _ _ _ _ _) as [r' q]. intros [= _ <-]. reflexivity.
Qed.

(** A failed [Reserve] ends the pass with [continue]: no meter event,
    no provider call, no health record. *)
Lemma attemptBody_reserve_failed req est i c (w w1 : World Q) err :
  reserveStep est c w = (inr err, w1) ->
  attemptBody req est i c w = (Continue err, w1).
Proof.
  unfold attemptBody, reserveStep, reserveAmount, bind. intros Hres.
  destruct (newUUID w) as [key w0].
  destruct (Reserve _ _ _ key w0) as [r w1'].
  injection Hres as -> ->. reflexivity.
Qed.

(** A provider error after a successful [Reserve]: the pass ends with
    [return] of a [RouterError] carrying the attempt number when the
    error is fatal, and with [continue] otherwise; either way exactly
    this one provider call is added to the record. *)
Lemma attemptBody_provider_error req est i c (w w1 : World Q) res err :
  reserveStep est c w = (inl res, w1) ->
  providerAnswer req c w = inr err ->
  exists w',
    attemptBody req est i c w
    = (if IsFatal err
       then Return (inr (RouterError err (Provider.Name (Candidate.Provider c))
                           (Candidate.AccountID c) (Candidate.Model c) (i + 1)))
       else Continue err, w') /\
    providerCalls w' = (providerCalls w ++ [providerCall req c])%list.
Proof.
  intros Hres Hans.
  pose proof (reserveStep_providerCalls _ _ _ _ _ Hres) as Hcalls.
  unfold attemptBody, reserveStep, reserveAmount, bind in *.
  destruct (newUUID w) as [key w0].
  destruct (Reserve _ _ _ key w0) as [r w1'].
  injection Hres as -> ->.
  unfold providerAnswer, providerRequest in Hans.
  unfold emit, timeNow, callProvider, Rollback, RecordFailure, bind. simpl.
  rewrite Hcalls, Hans. simpl.
  destruct (qsRollback _ _ _) as [e q]. simpl.
  destruct (IsFatal err); simpl; eexists; (split; [reflexivity|]); reflexivity.
Qed.

(** A provider success after a successful [Reserve] ends the pass with
    [return] of the response, routed with the attempt number. *)
Lemma attemptBody_success req est i c (w w1 : World Q) res resp :
  reserveStep est c w = (inl res, w1) ->
  providerAnswer req c w = inl resp ->
  exists w' r,
    attemptBody req est i c w = (Return (inl r), w') /\
    RoutingInfo.Attempts (ChatResponse.Routing r) = (i + 1)%nat /\
    RoutingInfo.AccountID (ChatResponse.Routing r) = Candidate.AccountID c /\
    providerCalls w' = (providerCalls w ++ [providerCall req c])%list.
Proof.
  intros Hres Hans.
  pose proof (reserveStep_providerCalls _ _ _ _ _ Hres) as Hcalls.
  unfold attemptBody, reserveStep, reserveAmount, bind in *.
  destruct (newUUID w) as [key w0].
  destruct (Reserve _ _ _ key w0) as [r w1'].
  injection Hres as -> ->.
  unfold providerAnswer, providerRequest in Hans.
  unfold emit, timeNow, callProvider, Commit, RecordSuccess, bind. simpl.
  rewrite Hcalls, Hans. simpl.
  destruct (qsCommit _ _ _ _) as [e q]. simpl.
  do 2 eexists. split; [reflexivity|]. simpl. auto.
Qed.

Lemma attemptLoop_continue req est total i last c rest (w w1 : World Q) err :
  attemptBody req est i c w = (Continue err, w1) ->
  attemptLoop req est total i last (c :: rest) w
  = attemptLoop req est total (S i) (Some err) rest w1.
Proof. intros Hb. cbn [attemptLoop]. unfold bind. rewrite Hb. reflexivity. Qed.

Lemma attemptLoop_return req est total i last c rest (w w1 : World Q) r :
  attemptBody req est i c w = (Return r, w1) ->
  attemptLoop req est total i last (c :: rest) w = (r, w1).
Proof. intros Hb. cbn [attemptLoop]. unfold bind. rewrite Hb. reflexivity. Qed.

(** Candidates that all [continue] are passed one by one, the attempt
    index growing by one for each. *)
Lemma attemptLoop_prefix req est total pre rest :
  forall i last (w : World Q) last' w',
  AllContinue req est i pre last w last' w' ->
  attemptLoop req est total i last (pre ++ rest) w
  = attemptLoop req est total (i + length pre) last' rest w'.
Proof.
  induction pre as [|c cs IH]; intros i last w last' w' Hall;
    inversion Hall; subst.
  - simpl. rewrite Nat.add_0_r. reflexivity.
  - simpl app. erewrite attemptLoop_continue by eassumption.
    rewrite (IH _ _ _ _ _ ltac:(eassumption)). f_equal. simpl. lia.
Qed.

Lemma AllContinue_last req est cs :
  forall i last (w : World Q) last' w',
  AllContinue req est i cs last w last' w' ->
  cs <> [] -> is_Some last'.
Proof.
  induction cs as [|c cs IH]; intros i last w last' w' Hall Hne; [contradiction|].
  inversion Hall; subst.
  destruct cs as [|c' cs'].
  - match goal with Hc : AllContinue _ _ _ [] _ _ _ _ |- _ => inversion Hc; subst end.
    eexists; reflexivity.
  - eapply IH; [eassumption|discriminate].
Qed.

(** Every pass through the loop body ends in one of three ways, and
    calls a provider at most once. *)
Lemma attemptBody_cases req est i c (w : World Q) :
  (length (providerCalls (snd (attemptBody req est i c w)))
   <= length (providerCalls w) + 1)%nat /\
  match fst (attemptBody req est i c w) with
  | Continue _ => True
  | Return (inl r) => RoutingInfo.Attempts (ChatResponse.Routing r) = (i + 1)%nat
  | Return (inr e) =>
      exists err p a m, e = RouterError err p a m (i + 1) /\ IsFatal err = true
  end.
Proof.
  destruct (reserveStep est c w) as [[res|err] w1] eqn:Hres.
  - destruct (providerAnswer req c w) as [resp|err] eqn:Hans.
    + destruct (attemptBody_success req est i c w w1 res resp Hres Hans)
        as (w' & r & -> & Hatt & _ & Hcalls).
      simpl. rewrite Hcalls, length_app. simpl. split; [lia|exact Hatt].
    + destruct (attemptBody_provider_error req est i c w w1 res err Hres Hans)
        as (w' & -> & Hcalls).
      simpl. rewrite Hcalls, length_app. simpl. split; [lia|].
      destruct (IsFatal err) eqn:Hf; [|exact I].
      do 4 eexists. split; [reflexivity|exact Hf].
  - rewrite (attemptBody_reserve_failed req est i c w w1 err Hres). simpl.
    rewrite (reserveStep_providerCalls _ _ _ _ _ Hres). split; [lia|exact I].
Qed.

(** The loop always returns, and what it returns is a response routed
    at some attempt, a [RouterError] wrapping a fatal error with the
    number of that attempt, [ErrAllFailed] with the number of
    candidates, or [ErrNoCandidates] when there was none. *)
Lemma attemptLoop_outcome req est total rest :
  forall i last (w : World Q),
  (i + length rest = total)%nat ->
  (i = 0%nat -> last = None) -> ((0 < i)%nat -> is_Some last) ->
  let r := fst (attemptLoop req est total i last rest w) in
  (exists resp, r = inl resp /\
     (i < RoutingInfo.Attempts (ChatResponse.Routing resp) <= total)%nat) \/
  (exists err p a m n, r = inr (RouterError err p a m n) /\
     IsFatal err = true /\ (i < n <= total)%nat) \/
  (r = inr (RouterError (Sentinel ErrAllFailed) "" "" "" total) /\ (0 < total)%nat) \/
  (r = inr (Sentinel ErrNoCandidates) /\ total = 0%nat).
Proof.
  induction rest as [|c rest IH]; intros i last w Hlen Hzero Hpos; cbn zeta.
  - simpl in Hlen. cbn [attemptLoop]. destruct last as [e|]; simpl.
    + right. right. left. split; [reflexivity|].
      destruct (Nat.eq_dec i 0%nat) as [Hi|Hi]; [specialize (Hzero Hi); discriminate|lia].
    + right. right. right. split; [reflexivity|].
      destruct (Nat.eq_dec i 0%nat) as [Hi|Hi]; [lia|].
      destruct (Hpos ltac:(lia)) as [e He]. discriminate.
  - simpl in Hlen. cbn [attemptLoop]. unfold bind.
    pose proof (attemptBody_cases req est i c w) as [_ Hcase].
    destruct (attemptBody req est i c w) as [[err|[resp|e]] w1]; simpl in Hcase |- *.
    + specialize (IH (S i) (Some err) w1 ltac:(lia) ltac:(discriminate)
                     ltac:(intros _; eexists; reflexivity)).
      cbn zeta in IH.
      destruct IH as [(resp & -> & Hr)|[(e & p & a & m & n & -> & Hf & Hn)|[(-> & Ht)|(-> & Ht)]]].
      * left. exists resp. split; [reflexivity|lia].
      * right. left. exists e, p, a, m, n. repeat split; try assumption; lia.
      * right. right. left. split; [reflexivity|assumption].
      * lia.
    + left. exists resp. split; [reflexivity|lia].
    + destruct Hcase as (err & p & a & m & -> & Hf).
      right. left. exists err, p, a, m, (i + 1)%nat. repeat split; try assumption; lia.
Qed.

End AttemptLoop.

Section ClaimC2.
Import Errors ErrorSpec Quota Router RouterSpec.

Lemma Is_unique err s s' :
  singleChain err = true -> Is err s = true -> Is err s' = true -> s = s'.
Proof.
  induction err as [s0| | | | |]; simpl; try discriminate; auto.
  intros _. destruct s0, s; try discriminate; destruct s'; try discriminate; reflexivity.
Qed.

(** Along a single [Unwrap] chain, a retryable error is not fatal. *)
Lemma IsRetryable_not_fatal err :
  singleChain err = true -> IsRetryable err = true -> IsFatal err = false.
Proof.
  unfold IsRetryable, IsFatal. intros Hc Hr.
  destruct (Is err ErrAuthFailed) eqn:Ha; simpl.
  - repeat (apply orb_prop in Hr as [Hr|Hr]);
      discriminate (Is_unique _ _ _ Hc Ha Hr).
  - destruct (Is err ErrInvalidRequest) eqn:Hi; [|reflexivity].
    repeat (apply orb_prop in Hr as [Hr|Hr]);
      discriminate (Is_unique _ _ _ Hc Hi Hr).
Qed.

(** C2 (amended). The attempt loop of [ChatCompletion], run over
    [ordered] from world [w].
    (1) If the candidates before [c] all end their pass with
    [continue], [c]'s [Reserve] succeeds and its provider answers with
    a fatal error, the loop returns at once a [RouterError] wrapping
    that error with [Attempts] the 1-based position of [c]; the record
    of provider calls ends with the call to [c], so no later
    candidate's provider is invoked.  This is so also when the error
    is retryable as well: the loop asks [IsFatal] only.
    (2) A failed [Reserve], and a provider error that is not fatal,
    make the loop go on with the next candidate.
    (3) A retryable error is one that is not fatal whenever its
    [Unwrap] leads along a single chain, so such a retryable error
    makes the loop go on.
    (4) If every candidate ends with [continue], the loop returns
    [RouterError{Err: ErrAllFailed, Attempts: len(ordered)}] when
    [ordered] is not empty and [ErrNoCandidates] when it is. *)
Theorem C2_attempt_loop_outcomes {Q : Type} `{QuotaStore Q}
    (req : ChatRequest.t) (est : Z) (ordered : list Candidate.t) (w : World Q) :
  (forall pre c post last1 w1 res w2 err,
     ordered = (pre ++ c :: post)%list ->
     AllContinue req est 0 pre None w last1 w1 ->
     reserveStep est c w1 = (inl res, w2) ->
     providerAnswer req c w1 = inr err ->
     IsFatal err = true ->
     exists w',
       attemptLoop req est (length ordered) 0 None ordered w
       = (inr (RouterError err (Provider.Name (Candidate.Provider c))
                 (Candidate.AccountID c) (Candidate.Model c) (length pre + 1)), w') /\
       providerCalls w' = (providerCalls w1 ++ [providerCall req c])%list) /\
  (forall total i last c rest (wi : World Q),
     (forall err w1,
        reserveStep est c wi = (inr err, w1) ->
        attemptLoop req est total i last (c :: rest) wi
        = attemptLoop req est total (S i) (Some err) rest w1) /\
     (forall res w1 err,
        reserveStep est c wi = (inl res, w1) ->
        providerAnswer req c wi = inr err ->
        IsFatal err = false ->
        exists w',
          providerCalls w' = (providerCalls wi ++ [providerCall req c])%list /\
          attemptLoop req est total i last (c :: rest) wi
          = attemptLoop req est total (S i) (Some err) rest w') /\
     (forall res w1 err,
        reserveStep est c wi = (inl res, w1) ->
        providerAnswer req c wi = inr err ->
        singleChain err = true -> IsRetryable err = true ->
        exists w',
          providerCalls w' = (providerCalls wi ++ [providerCall req c])%list /\
          attemptLoop req est total i last (c :: rest) wi
          = attemptLoop req est total (S i) (Some err) rest w')) /\
  (forall last' w',
     AllContinue req est 0 ordered None w last' w' ->
     attemptLoop req est (length ordered) 0 None ordered w
     = (match ordered with
        | [] => inr (Sentinel ErrNoCandidates)
        | _ :: _ => inr (RouterError (Sentinel ErrAllFailed) "" "" "" (length ordered))
        end, w')).
Proof.
  assert (Hgo : forall total i last c rest (wi : World Q) res w1 err,
            reserveStep est c wi = (inl res, w1) ->
            providerAnswer req c wi = inr err ->
            IsFatal err = false ->
            exists w',
              providerCalls w' = (providerCalls wi ++ [providerCall req c])%list /\
              attemptLoop req est total i last (c :: rest) wi
              = attemptLoop req est total (S i) (Some err) rest w').
  { intros total i last c rest wi res w1 err Hres Hans Hfatal.
    destruct (attemptBody_provider_error req est i c wi w1 res err Hres Hans)
      as (w' & Hbody & Hcalls).
    rewrite Hfatal in Hbody. exists w'. split; [exact Hcalls|].
    apply attemptLoop_continue. exact Hbody. }
  split; [|split].
  - intros pre c post last1 w1 res w2 err -> Hpre Hres Hans Hfatal.
    destruct (attemptBody_provider_error req est (length pre) c w1 w2 res err Hres Hans)
      as (w' & Hbody & Hcalls).
    rewrite Hfatal in Hbody. exists w'. split; [|exact Hcalls].
    rewrite (attemptLoop_prefix req est _ pre (c :: post) 0 None w last1 w1 Hpre).
    apply attemptLoop_return. exact Hbody.
  - intros total i last c rest wi. split; [|split].
    + intros err w1 Hres. apply attemptLoop_continue.
      apply attemptBody_reserve_failed. exact Hres.
    + apply Hgo.
    + intros res w1 err Hres Hans Hc Hr.
      apply (Hgo total i last c rest wi res w1 err Hres Hans).
      apply IsRetryable_not_fatal; assumption.
  - intros last' w' Hall.
    pose proof (attemptLoop_prefix req est (length ordered) ordered [] 0 None w last' w' Hall)
      as Hloop.
    rewrite app_nil_r in Hloop. rewrite Hloop. simpl.
    destruct ordered as [|c cs].
    + inversion Hall; subst. reflexivity.
    + destruct (AllContinue_last req est (c :: cs) 0 None w last' w' Hall ltac:(discriminate))
        as [e ->]. reflexivity.
Qed.

Lemma pair_from_fst {A B : Type} (p : A * B) (a : A) :
  fst p = a -> p = (a, snd p).
Proof. intros <-. apply surjective_pairing. Qed.

Lemma C2_attempt_loop_outcomes_witness :
  exists w',
    attemptLoop Samples.hello 8 4 0 None Samples.ordered Samples.world0
    = (inr (RouterError (Wrapf "status 401: " (Sentinel ErrAuthFailed))
              "denied" "acct-3" "test-model" 3), w') /\
    map fst (providerCalls w') = ["limited"; "denied"].
Proof.
  destruct (C2_attempt_loop_outcomes Samples.hello 8 Samples.ordered Samples.world0)
    as (Hfatal & _).
  destruct (Hfatal [Samples.limitedCandidate; Samples.exhaustedCandidate]
              Samples.deniedCandidate [Samples.goodCandidate]
              (Some (Sentinel ErrQuotaExceeded)) Samples.world2
              {| ID := "uuuuuu"; AccountID := "acct-3"; Amount := 8; Unit := "tokens" |}
              (snd (reserveStep 8 Samples.deniedCandidate Samples.world2))
              (Wrapf "status 401: " (Sentinel ErrAuthFailed)))
    as (w' & Hloop & Hcalls).
  - reflexivity.
  - apply (AllContinue_cons _ _ 0 _ _ None _ (Sentinel ErrRateLimited) Samples.world1).
    + unfold Samples.world1. apply pair_from_fst. vm_compute. reflexivity.
    + apply (AllContinue_cons _ _ 1 _ _ _ _ (Sentinel ErrQuotaExceeded) Samples.world2).
      * unfold Samples.world2. apply pair_from_fst. vm_compute. reflexivity.
      * apply AllContinue_nil.
  - apply pair_from_fst. vm_compute. reflexivity.
  - vm_compute. reflexivity.
  - reflexivity.
  - exists w'. split; [exact Hloop|]. rewrite Hcalls. vm_compute. reflexivity.
Defined.

(** C2 as stated fails.  The provider of the first of two candidates
    answers with [errors.Join(ErrRateLimited, ErrAuthFailed)]: the
    error is retryable, yet the loop does not go on with the next
    candidate.  It returns a [RouterError] with [Attempts = 1], the
    second candidate's provider is not called, and the result differs
    from that of every run that goes on with the second candidate. *)
Lemma C2_retryable_error_stops_the_loop :
  IsRetryable Samples.tornError = true /\
  IsFatal Samples.tornError = true /\
  providerAnswer Samples.hello Samples.tornCandidate Samples.world0
  = inr Samples.tornError /\
  fst (attemptLoop Samples.hello 8 2 0 None
         [Samples.tornCandidate; Samples.goodCandidate] Samples.world0)
  = inr (RouterError Samples.tornError "torn" "acct-1" "test-model" 1) /\
  map fst (providerCalls
             (snd (attemptLoop Samples.hello 8 2 0 None
                     [Samples.tornCandidate; Samples.goodCandidate] Samples.world0)))
  = ["torn"] /\
  (forall w1 : World MemoryQuotaStore.t,
     fst (attemptLoop Samples.hello 8 2 0 None
            [Samples.tornCandidate; Samples.goodCandidate] Samples.world0)
     <> fst (attemptLoop Samples.hello 8 2 1 (Some Samples.tornError)
               [Samples.goodCandidate] w1)).
Proof.
  assert (Hrun : fst (attemptLoop Samples.hello 8 2 0 None
                        [Samples.tornCandidate; Samples.goodCandidate] Samples.world0)
                 = inr (RouterError Samples.tornError "torn" "acct-1" "test-model" 1))
    by (vm_compute; reflexivity).
  split; [reflexivity|]. split; [reflexivity|]. split; [reflexivity|].
  split; [exact Hrun|]. split; [vm_compute; reflexivity|].
  intros w1. rewrite Hrun.
  pose proof (attemptLoop_outcome Samples.hello 8 2 [Samples.goodCandidate] 1
                (Some Samples.tornError) w1 eq_refl ltac:(discriminate)
                ltac:(intros _; eexists; reflexivity)) as Hout.
  cbv zeta in Hout.
  destruct Hout
    as [(resp & -> & _)|[(e & p & a & m & n & -> & _ & Hn)|[(-> & _)|(_ & Hz)]]];
    [discriminate| |discriminate|discriminate].
  intros [= _ _ _ _ <-]. lia.
Qed.

End ClaimC2.

Section ClaimC5.
Import Errors Quota Router.

(** [Next] keeps the usage of the latest chunk that carried one, and
    the first error of the stream. *)
Lemma Next_tracks_usage_and_error (s : RouterStream) :
  match fst (ProviderStream.Next (inner s)) with
  | inl chunk =>
      totalUsage (snd (Next s)) = default (totalUsage s) (StreamChunk.Usage chunk) /\
      streamErr (snd (Next s)) = streamErr s
  | inr err =>
      totalUsage (snd (Next s)) = totalUsage s /\
      streamErr (snd (Next s)) = Some (default err (streamErr s))
  end.
Proof.
  unfold Next. destruct (ProviderStream.Next (inner s)) as [[chunk|err] inner'];
    simpl; split; try reflexivity.
  destruct (streamErr s); reflexivity.
Qed.

(** C5. [Close] on a closed stream returns [nil] and changes nothing.
    On an open stream it returns what the inner stream's [Close]
    returns and marks the stream closed, so a second [Close] is the
    no-op.  The stream counts as successful iff the retained error is
    nil or end-of-stream; then the reservation is committed with the
    last usage total seen (1 when the unit is requests) and a success
    is recorded for the account, otherwise the reservation is rolled
    back and a failure recorded.  The meter is told exactly one event,
    an [OnResult], whose [Success] is false whenever the quota
    operation failed; when the [Commit] of a successful stream fails
    its [Error] is the failure wrapped by
    [fmt.Errorf("quota operation failed: %w", quotaErr)], and
    otherwise it is the retained stream error. *)
Theorem C5_RouterStream_Close {Q : Type} `{QuotaStore Q}
    (s : RouterStream) (w : World Q) :
  (closed s = true -> Close s w = ((None, s), w)) /\
  (closed s = false ->
   let result := Close s w in
   let s' := snd (fst result) in
   let w' := snd result in
   fst (fst result) = ProviderStream.Close (inner s) /\
   closed s' = true /\
   Close s' w' = ((None, s'), w') /\
   (isSuccess s = true <->
    streamErr s = None \/ exists e, streamErr s = Some e /\ Is e EOF = true) /\
   actualTokens s
   = (if String.eqb (Candidate.QuotaUnit (candidate s)) QuotaRequests then 1
      else Usage.TotalTokens (totalUsage s)) /\
   exists now quotaErr ev,
     (if isSuccess s
      then qsCommit (quotaStore w) now (reservation s) (actualTokens s)
           = (quotaErr, quotaStore w') /\
           health w' = Health.RecordSuccess (health w) (Candidate.AccountID (candidate s))
      else qsRollback (quotaStore w) now (reservation s) = (quotaErr, quotaStore w') /\
           exists now', health w'
                        = Health.RecordFailure (health w) now'
                            (Candidate.AccountID (candidate s))) /\
     meter w' = (meter w ++ [OnResult ev])%list /\
     ResultEvent.Success ev
     = isSuccess s && match quotaErr with None => true | Some _ => false end /\
     ResultEvent.Error ev
     = match quotaErr with
       | Some qe =>
           if isSuccess s then Some (Wrapf "quota operation failed: " qe)
           else streamErr s
       | None => streamErr s
       end /\
     ResultEvent.Usage ev = totalUsage s).
Proof.
  split.
  - intros Hc. unfold Close. rewrite Hc. reflexivity.
  - intros Hc result s' w'.
    assert (Hsucc : isSuccess s = true <->
              streamErr s = None \/ exists e, streamErr s = Some e /\ Is e EOF = true).
    { unfold isSuccess. destruct (streamErr s) as [e|].
      - split; [intros He; right; exists e; auto|].
        intros [Hn|(e' & [= <-] & He)]; [discriminate|exact He].
      - split; auto. }
    subst result s' w'.
    destruct (Close s w) as [[r s'] w'] eqn:HC. cbn [fst snd].
    unfold Close in HC. rewrite Hc in HC.
    cbv [bind timeNow Commit Rollback RecordSuccess RecordFailure RecordSpend emit ret] in HC.
    simpl in HC.
    destruct (isSuccess s) eqn:Hs.
    + match type of HC with context [qsCommit ?a ?b ?c ?d] =>
        destruct (qsCommit a b c d) as [qe q] eqn:Hq end.
      simpl in HC.
      destruct (Float64.ltb 0%float (calculateSpend (candidate s) (totalUsage s)));
        simpl in HC; injection HC as <- <- <-;
        (split; [reflexivity|]); (split; [reflexivity|]); (split; [reflexivity|]);
        (split; [exact Hsucc|]); (split; [reflexivity|]);
        eexists _, qe, _; simpl;
        (split; [split; [exact Hq|reflexivity]|]);
        (split; [reflexivity|]); simpl; repeat split.
    + match type of HC with context [qsRollback ?a ?b ?c] =>
        destruct (qsRollback a b c) as [qe q] eqn:Hq end.
      simpl in HC. injection HC as <- <- <-.
      split; [reflexivity|]. split; [reflexivity|]. split; [reflexivity|].
      split; [exact Hsucc|]. split; [reflexivity|].
      eexists _, qe, _. simpl.
      split; [split; [exact Hq|eexists; reflexivity]|].
      split; [reflexivity|]. simpl. repeat split.
Qed.

Lemma C5_RouterStream_Close_witness :
  let result := Close Samples.finishedStream Samples.failingWorld in
  fst (fst result) = None /\
  Close (snd (fst result)) (snd result) = ((None, snd (fst result)), snd result) /\
  exists ev,
    meter (snd result) = [OnResult ev] /\
    ResultEvent.Success ev = false /\
    ResultEvent.Error ev
    = Some (Wrapf "quota operation failed: " (Errorf "commit failed")).
Proof.
  destruct (C5_RouterStream_Close Samples.finishedStream Samples.failingWorld)
    as [_ Hopen].
  pose proof (Hopen eq_refl) as Ho. cbv zeta in Ho.
  destruct Ho
    as (Hret & _ & Hagain & _ & _ & now & quotaErr & ev & Hq & Hm & Hs & He & _).
  cbv zeta. split; [exact Hret|]. split; [exact Hagain|].
  exists ev. change (isSuccess Samples.finishedStream) with true in Hq, Hs, He.
  destruct Hq as [Hq _]. apply (f_equal fst) in Hq.
  change (Some (Errorf "commit failed") = quotaErr) in Hq. subst quotaErr.
  split; [exact Hm|]. split; [exact Hs|exact He].
Defined.

End ClaimC5.

(** * Further properties of the code *)

(** ** The in-memory quota store *)

Section MemoryStoreMore.
Import Errors Quota MemoryQuotaStore QuotaRuns.

Lemma nextMidnightUTC_bounds now :
  now < nextMidnightUTC now <= now + Time.Day /\ nextMidnightUTC now mod Time.Day = 0.
Proof.
  unfold nextMidnightUTC.
  assert (Hd : 0 < Time.Day) by (unfold Time.Day, Time.Second; lia).
  pose proof (Z.div_mod now Time.Day ltac:(lia)) as Hdm.
  pose proof (Z.mod_pos_bound now Time.Day Hd) as Hb.
  split; [nia|]. apply Z.mod_mul. lia.
Qed.

(** Reserve then Commit: with no daily reset due, a successful
    [Reserve(a, x)] followed by [Commit] of the reservation with actual
    amount [y] leaves [reserved] as it was and adds [y] to [used], so
    [Remaining] drops by [y], and stops at zero when [y] is more than
    was left. *)
Theorem Reserve_Commit_accounting
    (s s1 : t) (now now' : Time.Time) (uuid a : string) (x y : Z)
    (unit : QuotaUnit) (key : string) (q : accountQuota) (r : Reservation) :
  accounts s !! a = Some q ->
  row_inv q -> DailyLimit q <= Int64.max_int ->
  Time.After now (ResetAt q) = false ->
  0 <= y -> Used q + y <= Int64.max_int ->
  Reserve s now uuid a x unit key = (inl r, s1) ->
  let s2 := snd (Commit s1 r y) in
  accounts s2 !! a
  = Some {| DailyLimit := DailyLimit q; Used := Used q + y; Reserved := Reserved q;
            QUnit := QUnit q; ResetAt := ResetAt q |} /\
  fst (Remaining s2 now' a) = Z.max 0 (fst (Remaining s now' a) - y).
Proof.
  intros Hq Hinv Hlim Hnow Hy Hyu Hres s2.
  assert (Hrow : accounts s2 !! a
                 = Some {| DailyLimit := DailyLimit q; Used := Used q + y;
                           Reserved := Reserved q; QUnit := QUnit q;
                           ResetAt := ResetAt q |}).
  { subst s2. unfold Reserve in Hres. rewrite Hq, (maybeReset_idle _ _ Hnow) in Hres.
    destruct (negb (String.eqb key "") && seenKey s key); [discriminate|].
    match type of Hres with context [if (?lhs <? x) then _ else _] =>
      destruct (lhs <? x) end; [discriminate|].
    injection Hres as <- <-.
    unfold Commit. simpl. rewrite lookup_insert_eq. simpl. rewrite lookup_insert_eq.
    destruct Hinv as (Hu & Hr & Hsum).
    rewrite wrap_add_sub
      by (unfold Int64.in_range, Int64.min_int, Int64.max_int in *; lia).
    unfold Int64.add. rewrite wrap_in_range
      by (unfold Int64.in_range, Int64.min_int, Int64.max_int in *; lia).
    reflexivity. }
  split; [exact Hrow|].
  rewrite (Remaining_configured s now' a q Hq Hinv Hlim).
  unfold Remaining. rewrite Hrow. simpl.
  destruct Hinv as (Hu & Hr & Hsum).
  unfold Int64.sub.
  rewrite (wrap_in_range (DailyLimit q - (Used q + y)))
    by (unfold Int64.in_range, Int64.min_int, Int64.max_int in *; lia).
  rewrite wrap_in_range
    by (unfold Int64.in_range, Int64.min_int, Int64.max_int in *; lia).
  destruct (Z.ltb_spec (DailyLimit q - (Used q + y) - Reserved q) 0); simpl; lia.
Qed.

Lemma Reserve_Commit_accounting_witness :
  let '(r, s1) := Reserve Samples.usedStore 5 "r9" "acct" 3 QuotaTokens "k9" in
  match r with
  | inl res =>
      fst (Remaining Samples.usedStore 6 "acct") = 6 /\
      fst (Remaining (snd (Commit s1 res 2)) 6 "acct") = 4
  | inr _ => False
  end.
Proof.
  pose proof (Reserve_Commit_accounting Samples.usedStore
                (snd (Reserve Samples.usedStore 5 "r9" "acct" 3 QuotaTokens "k9"))
                5 6 "r9" "acct" 3 2 QuotaTokens "k9"
                {| DailyLimit := 10; Used := 4; Reserved := 0; QUnit := QuotaTokens;
                   ResetAt := nextMidnightUTC 0 |}
                {| ID := "r9"; AccountID := "acct"; Amount := 3; Unit := QuotaTokens |})
    as Hx.
  assert (E : Reserve Samples.usedStore 5 "r9" "acct" 3 QuotaTokens "k9"
              = (inl {| ID := "r9"; AccountID := "acct"; Amount := 3; Unit := QuotaTokens |},
                 snd (Reserve Samples.usedStore 5 "r9" "acct" 3 QuotaTokens "k9")))
    by (apply pair_from_fst; vm_compute; reflexivity).
  destruct Hx as [_ Hrem].
  - vm_compute. reflexivity.
  - unfold row_inv; simpl; lia.
  - unfold Int64.max_int; simpl; lia.
  - vm_compute. reflexivity.
  - lia.
  - unfold Int64.max_int; simpl; lia.
  - exact E.
  - rewrite E. split; [vm_compute; reflexivity|].
    rewrite Hrem. vm_compute. reflexivity.
Defined.

(** An account without a quota row is unlimited: [Reserve] grants any
    amount, [Commit] and [Rollback] of the reservation return no error,
    none of the three changes the store, and [Remaining] reports 0. *)
Theorem unconfigured_account_is_unlimited
    (s : t) (now : Time.Time) (uuid a : string) (x y : Z) (unit : QuotaUnit)
    (key : string) :
  accounts s !! a = None ->
  negb (String.eqb key "") && seenKey s key = false ->
  let res := {| ID := uuid; AccountID := a; Amount := x; Unit := unit |} in
  Reserve s now uuid a x unit key = (inl res, s) /\
  Commit s res y = (None, s) /\
  Rollback s res = (None, s) /\
  Remaining s now a = (0, None).
Proof.
  intros Ha Hk res. unfold Reserve, Commit, Rollback, Remaining. subst res. simpl.
  rewrite Hk, Ha. repeat split.
Qed.

Lemma unconfigured_account_is_unlimited_witness :
  succeeded (fst (Reserve Samples.usedStore 5 "r9" "nobody" (2 ^ 62) QuotaTokens "k9")) = true /\
  Remaining Samples.usedStore 5 "nobody" = (0, None).
Proof.
  destruct (unconfigured_account_is_unlimited Samples.usedStore 5 "r9" "nobody"
              (2 ^ 62) 0 QuotaTokens "k9") as (Hres & _ & _ & Hrem).
  - vm_compute. reflexivity.
  - vm_compute. reflexivity.
  - rewrite Hres, Hrem. split; reflexivity.
Defined.

Lemma Reserve_seen_key s now uuid a x unit key :
  key <> "" -> seenKey s key = true ->
  Reserve s now uuid a x unit key = (inr (duplicateKey key), s).
Proof.
  intros Hne Hk. unfold Reserve. rewrite Hk.
  destruct (String.eqb_spec key ""); [contradiction|reflexivity].
Qed.

(** Neither [Rollback] nor [Commit] takes the idempotency key out of
    the ledger: after a successful [Reserve] on a configured account
    with a non-empty key, the key is refused as a duplicate also once
    the reservation has been rolled back or committed. *)
Theorem settled_reservation_keeps_idempotency_key
    (s s1 : t) (now : Time.Time) (uuid a : string) (x y : Z) (unit : QuotaUnit)
    (key : string) (r : Reservation) :
  is_Some (accounts s !! a) -> key <> "" ->
  Reserve s now uuid a x unit key = (inl r, s1) ->
  forall now' uuid' a' x' unit',
    Reserve (snd (Rollback s1 r)) now' uuid' a' x' unit' key
    = (inr (duplicateKey key), snd (Rollback s1 r)) /\
    Reserve (snd (Commit s1 r y)) now' uuid' a' x' unit' key
    = (inr (duplicateKey key), snd (Commit s1 r y)).
Proof.
  intros Ha Hne Hres now' uuid' a' x' unit'.
  assert (Hseen : seenKey s1 key = true).
  { pose proof (Reserve_configured_records_key s now uuid a x unit key r s1 Ha Hne Hres
                  now uuid a x unit) as Hdup.
    unfold Reserve in Hdup. destruct (seenKey s1 key); [reflexivity|].
    rewrite andb_false_r in Hdup.
    destruct (accounts s1 !! a); [|discriminate].
    match type of Hdup with context [if ?b then _ else _] => destruct b end;
      discriminate. }
  split; apply Reserve_seen_key; try assumption.
  - unfold Rollback. destruct (accounts s1 !! AccountID r); exact Hseen.
  - unfold Commit. destruct (accounts s1 !! AccountID r); exact Hseen.
Qed.

Lemma settled_reservation_keeps_idempotency_key_witness :
  let '(r, s1) := Reserve Samples.usedStore 5 "r9" "acct" 3 QuotaTokens "k9" in
  match r with
  | inl res =>
      succeeded (fst (Reserve (snd (Rollback s1 res)) 6 "r10" "acct" 1 QuotaTokens "k9"))
      = false
  | inr _ => False
  end.
Proof.
  assert (E : Reserve Samples.usedStore 5 "r9" "acct" 3 QuotaTokens "k9"
              = (inl {| ID := "r9"; AccountID := "acct"; Amount := 3; Unit := QuotaTokens |},
                 snd (Reserve Samples.usedStore 5 "r9" "acct" 3 QuotaTokens "k9")))
    by (apply pair_from_fst; vm_compute; reflexivity).
  rewrite E.
  destruct (settled_reservation_keeps_idempotency_key Samples.usedStore _ 5 "r9" "acct"
              3 0 QuotaTokens "k9" _ ltac:(vm_compute; eexists; reflexivity)
              ltac:(discriminate) E 6 "r10" "acct" 1 QuotaTokens) as [Hrb _].
  rewrite Hrb. reflexivity.
Defined.

(** The daily reset: the first [Reserve] after the row's reset time
    sees nothing used and nothing reserved, whatever the row held, so
    it succeeds exactly when the amount is within the daily limit; and
    it moves the reset time to the next midnight, which lies ahead. *)
Theorem Reserve_applies_daily_reset
    (s : t) (now : Time.Time) (uuid a : string) (x : Z) (unit : QuotaUnit)
    (key : string) (q : accountQuota) :
  accounts s !! a = Some q ->
  0 <= DailyLimit q <= Int64.max_int -> Int64.in_range x ->
  negb (String.eqb key "") && seenKey s key = false ->
  Time.After now (ResetAt q) = true ->
  let result := Reserve s now uuid a x unit key in
  succeeded (fst result) = negb (DailyLimit q <? x) /\
  accounts (snd result) !! a
  = Some {| DailyLimit := DailyLimit q; Used := 0;
            Reserved := if DailyLimit q <? x then 0 else x;
            QUnit := QUnit q; ResetAt := nextMidnightUTC now |} /\
  Time.After now (nextMidnightUTC now) = false.
Proof.
  intros Hq Hlim Hx Hk Hnow result. subst result.
  unfold Reserve. rewrite Hk, Hq. unfold maybeReset. rewrite Hnow. simpl.
  unfold Int64.sub. rewrite !Z.sub_0_r.
  rewrite !(wrap_in_range (DailyLimit q))
    by (unfold Int64.in_range, Int64.min_int, Int64.max_int in *; lia).
  unfold Int64.add. rewrite Z.add_0_l, (wrap_in_range x Hx).
  assert (Hafter : Time.After now (nextMidnightUTC now) = false).
  { unfold Time.After. apply Z.ltb_ge.
    pose proof (nextMidnightUTC_bounds now). lia. }
  destruct (DailyLimit q <? x); simpl; rewrite lookup_insert_eq; auto.
Qed.

Lemma Reserve_applies_daily_reset_witness :
  succeeded (fst (Reserve Samples.usedStore Samples.twoDaysLater "r9" "acct" 10
                    QuotaTokens "k9")) = true /\
  succeeded (fst (Reserve Samples.usedStore Samples.twoDaysLater "r9" "acct" 11
                    QuotaTokens "k9")) = false.
Proof.
  pose (q := {| DailyLimit := 10; Used := 4; Reserved := 0; QUnit := QuotaTokens;
                ResetAt := nextMidnightUTC 0 |}).
  assert (Hq : accounts Samples.usedStore !! "acct" = Some q)
    by (vm_compute; reflexivity).
  assert (Hl : 0 <= DailyLimit q <= Int64.max_int)
    by (unfold Int64.max_int; simpl; lia).
  split.
  - destruct (Reserve_applies_daily_reset Samples.usedStore Samples.twoDaysLater
                "r9" "acct" 10 QuotaTokens "k9" q Hq Hl) as (Hs & _).
    + unfold Int64.in_range, Int64.min_int, Int64.max_int; lia.
    + vm_compute; reflexivity.
    + vm_compute; reflexivity.
    + rewrite Hs. reflexivity.
  - destruct (Reserve_applies_daily_reset Samples.usedStore Samples.twoDaysLater
                "r9" "acct" 11 QuotaTokens "k9" q Hq Hl) as (Hs & _).
    + unfold Int64.in_range, Int64.min_int, Int64.max_int; lia.
    + vm_compute; reflexivity.
    + vm_compute; reflexivity.
    + rewrite Hs. reflexivity.
Defined.

End MemoryStoreMore.

(** ** The circuit breaker *)

Section HealthMore.
Import Health HealthSpec.

Lemma RecordFailure_lookup h now a :
  accounts (RecordFailure h now a) !! a
  = Some (afterFailure (cfg h) (default freshRecord (accounts h !! a)) now) /\
  cfg (RecordFailure h now a) = cfg h.
Proof.
  unfold RecordFailure, getOrCreate, afterFailure.
  destruct (accounts h !! a) as [ah|] eqn:Ha; simpl.
  - destruct (HealthState_eqb (state ah) HealthUnhealthy); simpl;
      [split; [exact Ha|reflexivity]|].
    rewrite lookup_insert_eq. split; reflexivity.
  - rewrite lookup_insert_eq. split; reflexivity.
Qed.

Lemma recordFailures_lookup ts : forall h a,
  ts <> [] ->
  accounts (recordFailures h a ts) !! a
  = Some (fold_left (afterFailure (cfg h)) ts (default freshRecord (accounts h !! a))) /\
  cfg (recordFailures h a ts) = cfg h.
Proof.
  induction ts as [|t ts IH]; intros h a Hne; [contradiction|].
  unfold recordFailures in *. cbn [fold_left].
  destruct (RecordFailure_lookup h t a) as [Hl Hc].
  destruct ts as [|u ts'].
  - simpl. split; assumption.
  - destruct (IH (RecordFailure h t a) a ltac:(discriminate)) as [IHl IHc].
    rewrite IHl, IHc, Hl, Hc. split; reflexivity.
Qed.

Lemma filter_all_true {A} (f : A -> bool) (l : list A) :
  Forall (fun x => f x = true) l -> List.filter f l = l.
Proof.
  induction 1 as [|x xs Hx _ IH]; simpl; [reflexivity|]. rewrite Hx, IH. reflexivity.
Qed.

Lemma ForallOrdPairs_app_last {A} (R : A -> A -> Prop) (l : list A) (x : A) :
  ForallOrdPairs R (l ++ [x]) -> Forall (fun y => R y x) l /\ ForallOrdPairs R l.
Proof.
  induction l as [|y ys IH]; simpl; intros Hp; [split; constructor|].
  inversion Hp as [|? ? Hy Hys]; subst.
  destruct (IH Hys) as [Hall Hord].
  apply Forall_app in Hy as [Hy1 Hy2]. inversion Hy2; subst.
  split; constructor; assumption.
Qed.

Lemma ForallOrdPairs_app_l {A} (R : A -> A -> Prop) (l1 l2 : list A) :
  ForallOrdPairs R (l1 ++ l2) -> ForallOrdPairs R l1.
Proof.
  induction l1 as [|y ys IH]; simpl; intros Hp; [constructor|].
  inversion Hp as [|? ? Hy Hys]; subst.
  apply Forall_app in Hy as [Hy1 _]. constructor; auto.
Qed.

(** Failures that stay within the window accumulate while their number
    is below the threshold. *)
Lemma afterFailure_accumulates c ts : forall fs u,
  within_window (FailureWindow c) (fs ++ ts) ->
  Z.of_nat (length (fs ++ ts)) < FailureThreshold c ->
  fold_left (afterFailure c) ts
    {| state := HealthHealthy; failures := fs; unhealthyAt := u |}
  = {| state := HealthHealthy; failures := (fs ++ ts)%list; unhealthyAt := u |}.
Proof.
  induction ts as [|t ts IH]; intros fs u Hw Hlen; simpl.
  - rewrite app_nil_r. reflexivity.
  - replace (fs ++ t :: ts)%list with ((fs ++ [t]) ++ ts)%list in *
      by (rewrite <- app_assoc; reflexivity).
    rewrite <- IH; [|assumption|assumption].
    f_equal. unfold afterFailure. simpl.
    unfold within_window in Hw.
    apply ForallOrdPairs_app_l, ForallOrdPairs_app_last in Hw as [Hall _].
    rewrite filter_all_true.
    + rewrite !length_app in *. simpl in *.
      destruct (Z.leb_spec (FailureThreshold c) (Z.of_nat (length fs + 1)));
        [lia|reflexivity].
    + eapply Forall_impl; [exact Hall|]. simpl. intros f Hf.
      unfold Time.After, Time.Add. apply Z.ltb_lt. lia.
Qed.

(** During the cool-down the answer of [GetHealth] depends on the time
    of the trip alone. *)
Lemma GetHealth_unhealthy h now a fs tl :
  accounts h !! a = Some {| state := HealthUnhealthy; failures := fs; unhealthyAt := tl |} ->
  fst (GetHealth h now a)
  = if UnhealthyPeriod (cfg h) <=? now - tl then HealthHalfOpen else HealthUnhealthy.
Proof.
  intros Ha. unfold GetHealth. rewrite Ha. simpl. unfold Time.Since.
  destruct (UnhealthyPeriod (cfg h) <=? now - tl); reflexivity.
Qed.

(** The threshold: on an account the tracker has no record of, failures
    that fall within one window of each other leave the account
    [Healthy] as long as they are fewer than [FailureThreshold], and
    the failure that makes their number equal to it trips the breaker:
    from its time on [GetHealth] answers [Unhealthy], and [HalfOpen]
    once [UnhealthyPeriod] has passed. *)
Theorem circuit_breaker_threshold
    (h : HealthTracker) (a : string) (ts0 : list Time.Time) (tl now : Time.Time) :
  accounts h !! a = None ->
  within_window (FailureWindow (cfg h)) (ts0 ++ [tl]) ->
  Z.of_nat (length ts0) + 1 = FailureThreshold (cfg h) ->
  fst (GetHealth (recordFailures h a ts0) now a) = HealthHealthy /\
  fst (GetHealth (recordFailures h a (ts0 ++ [tl])) now a)
  = (if UnhealthyPeriod (cfg h) <=? now - tl then HealthHalfOpen else HealthUnhealthy).
Proof.
  intros Ha Hw Hlen.
  assert (Hw0 : within_window (FailureWindow (cfg h)) ([] ++ ts0))
    by (apply ForallOrdPairs_app_l in Hw; exact Hw).
  assert (Hacc : fold_left (afterFailure (cfg h)) ts0 freshRecord
                 = {| state := HealthHealthy; failures := ts0; unhealthyAt := zeroTime |}).
  { apply (afterFailure_accumulates (cfg h) ts0 [] zeroTime Hw0). simpl. lia. }
  split.
  - destruct ts0 as [|t ts'].
    + unfold recordFailures, GetHealth. simpl. rewrite Ha. reflexivity.
    + destruct (recordFailures_lookup (t :: ts') h a ltac:(discriminate)) as [Hl _].
      rewrite Ha in Hl. simpl default in Hl. rewrite Hacc in Hl.
      unfold GetHealth. rewrite Hl. reflexivity.
  - destruct (recordFailures_lookup (ts0 ++ [tl]) h a) as [Hl Hc].
    { destruct ts0; discriminate. }
    rewrite Ha in Hl. simpl default in Hl.
    rewrite fold_left_app, Hacc in Hl. simpl in Hl.
    unfold afterFailure in Hl. simpl in Hl.
    unfold within_window in Hw. apply ForallOrdPairs_app_last in Hw as [Hall _].
    rewrite filter_all_true in Hl.
    + rewrite length_app in Hl. simpl in Hl.
      destruct (Z.leb_spec (FailureThreshold (cfg h)) (Z.of_nat (length ts0 + 1)));
        [|lia].
      rewrite (GetHealth_unhealthy _ now a _ tl Hl), Hc. reflexivity.
    + eapply Forall_impl; [exact Hall|]. simpl. intros f Hf.
      unfold Time.After, Time.Add. apply Z.ltb_lt. lia.
Qed.

Lemma circuit_breaker_threshold_witness :
  fst (GetHealth (recordFailures NewHealthTracker "acct" [10; 20]) 30 "acct")
  = HealthHealthy /\
  fst (GetHealth (recordFailures NewHealthTracker "acct" ([10; 20] ++ [25])) 30 "acct")
  = HealthUnhealthy.
Proof.
  apply (circuit_breaker_threshold NewHealthTracker "acct" [10; 20] 25 30).
  - reflexivity.
  - unfold within_window. repeat constructor; vm_compute; reflexivity.
  - reflexivity.
Defined.

(** While an account is [Unhealthy], failures are ignored: any number
    of [RecordFailure] calls leaves the tracker as it was, so they do
    not prolong the cool-down, which ends [UnhealthyPeriod] after the
    trip. *)
Theorem unhealthy_ignores_failures
    (h : HealthTracker) (a : string) (ah : accountHealth)
    (ts : list Time.Time) (now : Time.Time) :
  accounts h !! a = Some ah -> state ah = HealthUnhealthy ->
  recordFailures h a ts = h /\
  fst (GetHealth (recordFailures h a ts) now a)
  = (if UnhealthyPeriod (cfg h) <=? now - unhealthyAt ah
     then HealthHalfOpen else HealthUnhealthy).
Proof.
  intros Ha Hst.
  assert (Hid : recordFailures h a ts = h).
  { assert (Hone : forall t, RecordFailure h t a = h).
    { intros t. unfold RecordFailure, getOrCreate. rewrite Ha. simpl.
      rewrite Hst. reflexivity. }
    unfold recordFailures. induction ts as [|t ts IH]; simpl; [reflexivity|].
    rewrite Hone. exact IH. }
  split; [exact Hid|]. rewrite Hid.
  destruct ah as [st fs tl]. simpl in *. subst st.
  apply (GetHealth_unhealthy h now a fs tl Ha).
Qed.

Lemma unhealthy_ignores_failures_witness :
  let h := recordFailures NewHealthTracker "acct" [10; 20; 25] in
  fst (GetHealth (recordFailures h "acct" [26; 27; 28]) (25 + 30 * Time.Second) "acct")
  = HealthHalfOpen.
Proof.
  cbv zeta.
  destruct (unhealthy_ignores_failures
              (recordFailures NewHealthTracker "acct" [10; 20; 25]) "acct"
              {| state := HealthUnhealthy; failures := [10; 20; 25]; unhealthyAt := 25 |}
              [26; 27; 28] (25 + 30 * Time.Second)) as [_ Hg].
  - vm_compute. reflexivity.
  - reflexivity.
  - rewrite Hg. vm_compute. reflexivity.
Defined.

(** One success resets the breaker, whatever the state was: the
    account is [Healthy] with an empty window, so it takes a full
    [FailureThreshold] of new failures to trip it again. *)
Theorem success_resets_breaker
    (h : HealthTracker) (a : string) (ts : list Time.Time) (now : Time.Time) :
  within_window (FailureWindow (cfg h)) ts ->
  Z.of_nat (length ts) < FailureThreshold (cfg h) ->
  (failures <$> accounts (RecordSuccess h a) !! a) = Some [] /\
  fst (GetHealth (recordFailures (RecordSuccess h a) a ts) now a) = HealthHealthy.
Proof.
  intros Hw Hlen.
  assert (Hrec : exists u, accounts (RecordSuccess h a) !! a
                 = Some {| state := HealthHealthy; failures := []; unhealthyAt := u |} /\
                 cfg (RecordSuccess h a) = cfg h).
  { unfold RecordSuccess, getOrCreate. destruct (accounts h !! a) as [ah|]; simpl;
      eexists; rewrite lookup_insert_eq; split; reflexivity. }
  destruct Hrec as (u & Hrec & Hcfg).
  split; [rewrite Hrec; reflexivity|].
  destruct ts as [|t ts'].
  - unfold recordFailures, GetHealth. simpl. rewrite Hrec. reflexivity.
  - destruct (recordFailures_lookup (t :: ts') (RecordSuccess h a) a ltac:(discriminate))
      as [Hl _].
    rewrite Hrec, Hcfg in Hl. simpl default in Hl.
    rewrite (afterFailure_accumulates (cfg h) (t :: ts') [] u Hw Hlen) in Hl.
    unfold GetHealth. rewrite Hl. reflexivity.
Qed.

Lemma success_resets_breaker_witness :
  let h := recordFailures NewHealthTracker "acct" [10; 20; 25] in
  fst (GetHealth h 26 "acct") = HealthUnhealthy /\
  fst (GetHealth (recordFailures (RecordSuccess h "acct") "acct" [27; 28]) 29 "acct")
  = HealthHealthy.
Proof.
  cbv zeta. split; [vm_compute; reflexivity|].
  apply (success_resets_breaker (recordFailures NewHealthTracker "acct" [10; 20; 25])
           "acct" [27; 28] 29).
  - unfold within_window. repeat constructor; vm_compute; reflexivity.
  - vm_compute. reflexivity.
Defined.

(** Failures that are each at least a window apart never trip a
    breaker whose threshold is two or more: each failure finds the
    window emptied of the one before, and the account stays
    [Healthy]. *)
Lemma afterFailure_spaced c ts : forall t0 u,
  2 <= FailureThreshold c -> spaced (FailureWindow c) (t0 :: ts) ->
  exists tl,
    fold_left (afterFailure c) ts
      {| state := HealthHealthy; failures := [t0]; unhealthyAt := u |}
    = {| state := HealthHealthy; failures := [tl]; unhealthyAt := u |}.
Proof.
  induction ts as [|t ts IH]; intros t0 u Hth Hsp; simpl; [eexists; reflexivity|].
  destruct Hsp as [Hgap Hsp].
  assert (Hstep : afterFailure c
                    {| state := HealthHealthy; failures := [t0]; unhealthyAt := u |} t
                  = {| state := HealthHealthy; failures := [t]; unhealthyAt := u |}).
  { unfold afterFailure. simpl. unfold Time.After, Time.Add.
    destruct (Z.ltb_spec (t + - FailureWindow c) t0); [lia|]. simpl.
    change (Z.of_nat 1) with 1.
    destruct (Z.leb_spec (FailureThreshold c) 1); [lia|reflexivity]. }
  rewrite Hstep. apply IH; assumption.
Qed.

Theorem sparse_failures_never_trip
    (h : HealthTracker) (a : string) (ts : list Time.Time) (now : Time.Time) :
  accounts h !! a = None ->
  2 <= FailureThreshold (cfg h) -> spaced (FailureWindow (cfg h)) ts ->
  fst (GetHealth (recordFailures h a ts) now a) = HealthHealthy.
Proof.
  intros Ha Hth Hsp. destruct ts as [|t0 ts].
  - unfold recordFailures, GetHealth. simpl. rewrite Ha. reflexivity.
  - destruct (recordFailures_lookup (t0 :: ts) h a ltac:(discriminate)) as [Hl _].
    rewrite Ha in Hl. change (default freshRecord None) with freshRecord in Hl.
    cbn [fold_left] in Hl.
    assert (Hfirst : afterFailure (cfg h) freshRecord t0
                     = {| state := HealthHealthy; failures := [t0];
                          unhealthyAt := zeroTime |}).
    { unfold afterFailure. simpl. change (Z.of_nat 1) with 1.
      destruct (Z.leb_spec (FailureThreshold (cfg h)) 1); [lia|reflexivity]. }
    rewrite Hfirst in Hl.
    destruct (afterFailure_spaced (cfg h) ts t0 zeroTime Hth Hsp) as [tl Htl].
    rewrite Htl in Hl. unfold GetHealth. rewrite Hl. reflexivity.
Qed.

Lemma sparse_failures_never_trip_witness :
  fst (GetHealth
         (recordFailures NewHealthTracker "acct"
            [0; 5 * Time.Minute; 10 * Time.Minute; 15 * Time.Minute; 20 * Time.Minute])
         (20 * Time.Minute) "acct")
  = HealthHealthy.
Proof.
  apply (sparse_failures_never_trip NewHealthTracker "acct").
  - reflexivity.
  - vm_compute. discriminate.
  - vm_compute. repeat split; discriminate.
Defined.

End HealthMore.

(** ** The filter and the policies *)

Section PoliciesMore.
Import Sort SortSpec FilterSpec.

(** The filter keeps, in their input order, exactly the candidates that
    are not [Unhealthy] and that are free or allowed as paid; nothing
    else about a candidate is looked at. *)
Theorem filterCandidates_keeps_exactly (cs : list Candidate.t) (allowPaid : bool) :
  filterCandidates cs allowPaid = List.filter (kept allowPaid) cs /\
  sublist (filterCandidates cs allowPaid) cs /\
  (forall c, In c (filterCandidates cs allowPaid) <->
     In c cs /\ Candidate.Health c <> Health.HealthUnhealthy /\
     (Candidate.Free c = true \/ allowPaid = true)).
Proof.
  rewrite filterCandidates_spec. split; [reflexivity|]. split.
  - induction cs as [|c cs IH]; simpl; [constructor|].
    destruct (kept allowPaid c); [apply sublist_skip|apply sublist_cons]; exact IH.
  - intros c. rewrite filter_In. unfold kept.
    rewrite andb_true_iff, negb_true_iff, orb_true_iff.
    destruct (Candidate.Health c); simpl; intuition congruence.
Qed.

Lemma filter_partition_perm {A} (f : A -> bool) (l : list A) :
  Permutation (List.filter f l ++ List.filter (fun x => negb (f x)) l) l.
Proof.
  induction l as [|x xs IH]; simpl; [constructor|].
  destruct (f x); simpl.
  - constructor. exact IH.
  - rewrite <- Permutation_middle. constructor. exact IH.
Qed.

Lemma filter_filter_same {A} (f : A -> bool) (l : list A) :
  List.filter f (List.filter f l) = List.filter f l.
Proof.
  induction l as [|x xs IH]; simpl; [reflexivity|].
  destruct (f x) eqn:Hx; simpl; rewrite ?Hx, IH; reflexivity.
Qed.

Lemma filter_filter_neg {A} (f : A -> bool) (l : list A) :
  List.filter f (List.filter (fun x => negb (f x)) l) = [].
Proof.
  induction l as [|x xs IH]; simpl; [reflexivity|].
  destruct (f x) eqn:Hx; simpl; rewrite ?Hx; exact IH.
Qed.

(** The router's built-in policy returns a permutation of its input in
    which no paid candidate stands before a free one, and keeps the
    input order among the free and among the paid candidates. *)
Theorem defaultFreeFirstPolicy_Select_partition (cs : list Candidate.t) :
  let out := defaultFreeFirstPolicy.Select cs in
  Permutation out cs /\
  StronglySorted (fun a b => Candidate.Free b = true -> Candidate.Free a = true) out /\
  List.filter Candidate.Free out = List.filter Candidate.Free cs /\
  List.filter (fun c => negb (Candidate.Free c)) out
  = List.filter (fun c => negb (Candidate.Free c)) cs.
Proof.
  cbv zeta. unfold defaultFreeFirstPolicy.Select. repeat split.
  - apply filter_partition_perm.
  - apply StronglySorted_app_2.
    + intros a b Ha _ _. apply list_elem_of_In, filter_In in Ha. tauto.
    + induction cs as [|c cs IH]; simpl; [constructor|].
      destruct (Candidate.Free c) eqn:Hc; [|exact IH].
      constructor; [exact IH|].
      apply Forall_forall. intros b Hb _. exact Hc.
    + induction cs as [|c cs IH]; simpl; [constructor|].
      destruct (Candidate.Free c) eqn:Hc; simpl; [exact IH|].
      constructor; [exact IH|].
      apply Forall_forall. intros b Hb Hfree.
      apply list_elem_of_In, filter_In in Hb as [_ Hb].
      rewrite Hfree in Hb. discriminate.
  - rewrite List.filter_app, filter_filter_same, filter_filter_neg, app_nil_r.
    reflexivity.
  - rewrite List.filter_app, (filter_filter_same (fun c => negb (Candidate.Free c))).
    replace (List.filter (fun c => negb (Candidate.Free c))
               (List.filter Candidate.Free cs)) with (@nil Candidate.t); [reflexivity|].
    symmetry. induction cs as [|c cs IH]; simpl; [reflexivity|].
    destruct (Candidate.Free c) eqn:Hc; simpl; rewrite ?Hc; exact IH.
Qed.

(** [CostFirstPolicy.Select], on candidates whose blended costs are
    numbers: a permutation of the input in order of increasing blended
    cost, whether a candidate is free or not, with candidates of equal
    cost in their input order. *)
Theorem CostFirstPolicy_Select_stable_order (cs : list Candidate.t) :
  Forall FreeFirstSpec.comparable cs ->
  Permutation (CostFirstPolicy.Select cs) cs /\
  StronglySorted CostFirstSpec.before (CostFirstPolicy.Select cs) /\
  (forall c, FreeFirstSpec.comparable c ->
     List.filter (tie CostFirstPolicy.less c) (CostFirstPolicy.Select cs)
     = List.filter (tie CostFirstPolicy.less c) cs).
Proof.
  intros Hall. unfold CostFirstPolicy.Select.
  assert (Hperm : Permutation (SliceStable CostFirstPolicy.less cs) cs)
    by apply SliceStable_perm.
  assert (Hasym : forall x y, FreeFirstSpec.comparable x -> FreeFirstSpec.comparable y ->
            CostFirstPolicy.less x y = true -> CostFirstPolicy.less y x = false).
  { intros x y Hx Hy. apply ltb_asym; assumption. }
  assert (Hnt : forall x y z, FreeFirstSpec.comparable x -> FreeFirstSpec.comparable y ->
            FreeFirstSpec.comparable z ->
            CostFirstPolicy.less x y = false -> CostFirstPolicy.less y z = false ->
            CostFirstPolicy.less x z = false).
  { intros x y z Hx Hy Hz. apply ltb_negtrans; assumption. }
  repeat split.
  - exact Hperm.
  - apply (StronglySorted_weaken
             (fun a b => CostFirstPolicy.less b a = false) CostFirstSpec.before
             FreeFirstSpec.comparable).
    + intros a b Ha Hb Hl. apply ltb_false_leb; assumption.
    + rewrite Forall_forall in Hall |- *. intros c Hc. apply Hall.
      rewrite <- Hperm. exact Hc.
    + apply (SliceStable_sorted CostFirstPolicy.less FreeFirstSpec.comparable);
        assumption.
  - intros c Hc.
    apply (SliceStable_stable CostFirstPolicy.less FreeFirstSpec.comparable);
      assumption.
Qed.

Lemma CostFirstPolicy_Select_stable_order_witness :
  map Candidate.AccountID (CostFirstPolicy.Select Samples.mixedCandidates)
  = ["free-a"; "free-b"; "free-c"; "paid-b"; "paid-a"; "paid-c"] /\
  StronglySorted CostFirstSpec.before (CostFirstPolicy.Select Samples.mixedCandidates).
Proof.
  destruct (CostFirstPolicy_Select_stable_order Samples.mixedCandidates)
    as (_ & Hsorted & _).
  - repeat constructor.
  - split; [vm_compute; reflexivity|exact Hsorted].
Defined.

End PoliciesMore.

(** ** The router: what a request returns and what it leaves behind *)

Section RouterMore.
Import Errors Quota Router RouterSpec TraceSpec.
Context {Q : Type} `{QuotaStore Q}.

Lemma sameTrace_refl (w : World Q) : sameTrace w w.
Proof. repeat split. Qed.

Lemma sameTrace_trans (w w1 w2 : World Q) :
  sameTrace w w1 -> sameTrace w1 w2 -> sameTrace w w2.
Proof.
  intros (Hm & Hp & Hs) (Hm' & Hp' & Hs'). repeat split; congruence.
Qed.

Lemma Remaining_sameTrace a (w : World Q) : sameTrace w (snd (Router.Remaining a w)).
Proof.
  unfold Router.Remaining, bind, timeNow. simpl.
  destruct (qsRemaining _ _ _) as [r q]. repeat split.
Qed.

Lemma GetHealth_sameTrace a (w : World Q) : sameTrace w (snd (Router.GetHealth a w)).
Proof.
  unfold Router.GetHealth, bind, timeNow. simpl.
  destruct (Health.GetHealth _ _ _) as [st h]. repeat split.
Qed.

Lemma candidatesForModels_sameTrace acc prov models :
  forall w : World Q, sameTrace w (snd (candidatesForModels acc prov models w)).
Proof.
  induction models as [|model rest IH]; intros w; [apply sameTrace_refl|].
  cbn [candidatesForModels]. unfold bind, ret.
  pose proof (Remaining_sameTrace (AccountConfig.ID acc) w) as H1.
  destruct (Router.Remaining (AccountConfig.ID acc) w) as [r w1]. simpl in H1.
  pose proof (GetHealth_sameTrace (AccountConfig.ID acc) w1) as H2.
  destruct (Router.GetHealth (AccountConfig.ID acc) w1) as [st w2]. simpl in H2.
  pose proof (IH w2) as H3.
  destruct (candidatesForModels acc prov rest w2) as [cs w3]. simpl in H3 |- *.
  eauto using sameTrace_trans.
Qed.

Lemma buildCandidatesFrom_sameTrace cfg provs requestModel refs accounts :
  forall w : World Q,
  sameTrace w (snd (buildCandidatesFrom cfg provs requestModel refs accounts w)).
Proof.
  induction accounts as [|acc rest IH]; intros w; [apply sameTrace_refl|].
  cbn [buildCandidatesFrom].
  destruct (provs !! AccountConfig.Provider acc) as [prov|]; [|apply IH].
  unfold bind, ret.
  pose proof (candidatesForModels_sameTrace acc prov
                (modelsForAccount refs acc prov requestModel cfg) w) as H1.
  destruct (candidatesForModels acc prov _ w) as [cs w1]. simpl in H1.
  pose proof (IH w1) as H2.
  destruct (buildCandidatesFrom cfg provs requestModel refs rest w1) as [cs' w2].
  simpl in H2 |- *. eauto using sameTrace_trans.
Qed.

(** Building the candidate list tells the meter nothing, calls no
    provider and records no spend. *)
Lemma buildCandidates_sameTrace cfg provs requestModel (w : World Q) :
  sameTrace w (snd (buildCandidates cfg provs requestModel w)).
Proof. apply buildCandidatesFrom_sameTrace. Qed.

Lemma reserveStep_frame est c (w w1 : World Q) r :
  reserveStep est c w = (r, w1) ->
  sameTrace w w1 /\ health w1 = health w.
Proof.
  unfold reserveStep, Reserve, bind, newUUID, timeNow. simpl.
  destruct (qsReserve _ _ _ _ _ _ _) as [r' q]. intros [= _ <-]. repeat split.
Qed.

(** Whatever the configuration, the providers, the policy, the
    quota store and the state of the world, [ChatCompletion] returns,
    and what it returns is a response routed at an attempt between 1
    and the number of ordered candidates, a [RouterError] around a
    fatal error with such an attempt number, [ErrAllFailed] with
    exactly that number of attempts, or [ErrNoCandidates]; the last
    exactly when the filter or the policy leaves no candidate. *)
Theorem ChatCompletion_outcomes (r : Router.t) (req : ChatRequest.t) (w : World Q) :
  let filtered :=
    filterCandidates (fst (buildCandidates (cfg r) (providers r) (ChatRequest.Model req) w))
                     (Config.AllowPaid (cfg r)) in
  let ordered := policy r filtered in
  let result := fst (ChatCompletion r req w) in
  outcome (length ordered) result /\
  (result = inr (Sentinel ErrNoCandidates) <-> filtered = [] \/ ordered = []).
Proof.
  cbv zeta. unfold ChatCompletion, bind.
  destruct (buildCandidates (cfg r) (providers r) (ChatRequest.Model req) w)
    as [cands w1]. cbn [fst].
  set (filtered := filterCandidates cands (Config.AllowPaid (cfg r))).
  destruct filtered as [|c0 filtered'] eqn:Hf.
  - simpl. split; [right; right; right; reflexivity|].
    split; auto.
  - cbn [length Nat.eqb].
    set (ordered := policy r (c0 :: filtered')).
    pose proof (attemptLoop_outcome req (EstimateTokens (ChatRequest.Messages req))
                  (length ordered) ordered 0 None w1 eq_refl (fun _ => eq_refl)
                  ltac:(intros Hlt; inversion Hlt)) as Hout.
    cbv zeta in Hout.
    destruct Hout as [(resp & Hr & Hn)|[(e & p & a & m & n & Hr & Hfat & Hn)|[[Hr Hn]|[Hr Hn]]]];
      rewrite Hr.
    + split.
      * left. exists resp. split; [reflexivity|lia].
      * split; [discriminate|]. intros [Hx|Hx]; [discriminate|].
        rewrite Hx in Hn. simpl in Hn. lia.
    + split.
      * right. left. exists e, p, a, m, n. repeat split; try assumption; lia.
      * split; [discriminate|]. intros [Hx|Hx]; [discriminate|].
        rewrite Hx in Hn. simpl in Hn. lia.
    + split.
      * right. right. left. split; [reflexivity|assumption].
      * split; [discriminate|]. intros [Hx|Hx]; [discriminate|].
        rewrite Hx in Hn. simpl in Hn. lia.
    + split.
      * right. right. right. reflexivity.
      * split; [|reflexivity]. intros _. right.
        destruct ordered; [reflexivity|discriminate].
Qed.

(** One pass through the loop body either skips the candidate without
    a trace (its [Reserve] failed) or makes exactly one provider call,
    announced by an [OnRoute] and reported by an [OnResult]. *)
Lemma attemptBody_trace req est i c (w : World Q) :
  let s := fst (attemptBody req est i c w) in
  let w' := snd (attemptBody req est i c w) in
  spend w' = spend w /\
  ((exists err, s = Continue err /\ meter w' = meter w /\
                providerCalls w' = providerCalls w /\ health w' = health w) \/
   (exists r ev call,
      meter w' = (meter w ++ [OnRoute r; OnResult ev])%list /\
      providerCalls w' = (providerCalls w ++ [call])%list /\
      sameAttempt r ev call /\
      ResultEvent.Success ev
      = match s with Return (inl _) => true | _ => false end)).
Proof.
  cbv zeta.
  destruct (reserveStep est c w) as [[res|err] w1] eqn:Hres.
  - destruct (reserveStep_frame _ _ _ _ _ Hres) as ((Hm & Hp & Hs) & Hh).
    unfold attemptBody, reserveStep, reserveAmount, bind in *.
    destruct (newUUID w) as [key w0].
    destruct (Reserve _ _ _ key w0) as [r0 w1'].
    injection Hres as -> ->.
    unfold emit, timeNow, callProvider, Commit, Rollback, RecordSuccess, RecordFailure,
      bind, ret. simpl.
    destruct (Provider.ChatCompletion (Candidate.Provider c) (providerCalls w1) _)
      as [resp|err].
    + destruct (qsCommit _ _ _ _) as [e q]. simpl.
      split; [exact Hs|]. right. do 3 eexists.
      rewrite Hm, Hp, <- !app_assoc. simpl.
      split; [reflexivity|]. split; [reflexivity|].
      split; [repeat split|reflexivity].
    + destruct (qsRollback _ _ _) as [e q]. simpl.
      destruct (IsFatal err); simpl;
        (split; [exact Hs|]); right; do 3 eexists;
        rewrite Hm, Hp, <- !app_assoc; simpl;
        (split; [reflexivity|]); (split; [reflexivity|]);
        (split; [repeat split|reflexivity]).
  - rewrite (attemptBody_reserve_failed req est i c w w1 err Hres). simpl.
    destruct (reserveStep_frame _ _ _ _ _ Hres) as ((Hm & Hp & Hs) & Hh).
    split; [exact Hs|]. left. exists err. auto.
Qed.

Lemma attempts_failed_first r ev call evs calls ok :
  sameAttempt r ev call -> ResultEvent.Success ev = false ->
  attempts evs calls ok ->
  attempts (OnRoute r :: OnResult ev :: evs) (call :: calls) ok.
Proof. intros Hsame Hev Hrest. simpl. rewrite Hev. split; assumption. Qed.

Lemma attemptLoop_trace req est total rest :
  forall i last (w : World Q),
  let result := attemptLoop req est total i last rest w in
  spend (snd result) = spend w /\
  exists evs calls,
    meter (snd result) = (meter w ++ evs)%list /\
    providerCalls (snd result) = (providerCalls w ++ calls)%list /\
    attempts evs calls (isResponse (fst result)).
Proof.
  induction rest as [|c rest IH]; intros i last w; cbv zeta.
  - cbn [attemptLoop]. split; [destruct last; reflexivity|].
    exists [], []. rewrite !app_nil_r.
    destruct last; simpl; auto.
  - cbn [attemptLoop]. unfold bind.
    pose proof (attemptBody_trace req est i c w) as Hbody. cbv zeta in Hbody.
    destruct (attemptBody req est i c w) as [s w1]. cbn [fst snd] in Hbody.
    destruct Hbody as [Hsp Hbody].
    destruct s as [err|result].
    + specialize (IH (S i) (Some err) w1). cbv zeta in IH.
      destruct IH as (Hsp' & evs & calls & Hm & Hp & Hatt).
      split; [congruence|].
      destruct Hbody as [(err' & _ & Hm1 & Hp1 & _)|(r & ev & call & Hm1 & Hp1 & Hsame & Hev)].
      * exists evs, calls. rewrite Hm, Hp, Hm1, Hp1. auto.
      * exists (OnRoute r :: OnResult ev :: evs), (call :: calls).
        rewrite Hm, Hp, Hm1, Hp1, <- !app_assoc. simpl.
        split; [reflexivity|]. split; [reflexivity|].
        rewrite Hev. split; assumption.
    + simpl. split; [exact Hsp|].
      destruct Hbody as [(err' & Hcont & _)|(r & ev & call & Hm1 & Hp1 & Hsame & Hev)];
        [discriminate|].
      exists [OnRoute r; OnResult ev], [call].
      split; [exact Hm1|]. split; [exact Hp1|].
      simpl. rewrite Hev. split; [exact Hsame|].
      destruct result; simpl; auto.
Qed.

(** For every provider call that [ChatCompletion] makes, the meter is
    told one [OnRoute] and then one [OnResult] naming the same
    provider, account and model, in the order of the calls, and
    nothing else; an [OnResult] reports success only as the last
    event, and then exactly when a response is returned.  No spend is
    recorded. *)
Theorem ChatCompletion_meter_matches_calls
    (r : Router.t) (req : ChatRequest.t) (w : World Q) :
  let result := ChatCompletion r req w in
  spend (snd result) = spend w /\
  exists evs calls,
    meter (snd result) = (meter w ++ evs)%list /\
    providerCalls (snd result) = (providerCalls w ++ calls)%list /\
    attempts evs calls (isResponse (fst result)).
Proof.
  cbv zeta. unfold ChatCompletion, bind.
  pose proof (buildCandidates_sameTrace (cfg r) (providers r) (ChatRequest.Model req) w)
    as (Hm & Hp & Hs).
  destruct (buildCandidates (cfg r) (providers r) (ChatRequest.Model req) w)
    as [cands w1]. cbn [snd] in Hm, Hp, Hs.
  destruct (length (filterCandidates cands (Config.AllowPaid (cfg r))) =? 0)%nat.
  - simpl. split; [exact Hs|]. exists [], []. rewrite !app_nil_r. simpl. auto.
  - pose proof (attemptLoop_trace req (EstimateTokens (ChatRequest.Messages req))
                  (length (policy r (filterCandidates cands (Config.AllowPaid (cfg r)))))
                  (policy r (filterCandidates cands (Config.AllowPaid (cfg r))))
                  0 None w1) as Hloop.
    cbv zeta in Hloop. destruct Hloop as (Hsp & evs & calls & Hm1 & Hp1 & Hatt).
    split; [congruence|]. exists evs, calls.
    rewrite Hm1, Hp1, Hm, Hp. auto.
Qed.

(** A candidate whose [Reserve] fails is skipped without a trace: the
    loop goes on with the next candidate, no meter event is emitted,
    no provider is called, no spend is recorded, and no failure is
    recorded against the account's health, so an exhausted quota
    never trips the circuit breaker. *)
Theorem failed_reserve_skips_candidate
    (req : ChatRequest.t) (est : Z) (total i : nat) (last : option error)
    (c : Candidate.t) (rest : list Candidate.t) (w w1 : World Q) (err : error) :
  reserveStep est c w = (inr err, w1) ->
  attemptLoop req est total i last (c :: rest) w
  = attemptLoop req est total (S i) (Some err) rest w1 /\
  meter w1 = meter w /\ providerCalls w1 = providerCalls w /\
  health w1 = health w /\ spend w1 = spend w.
Proof.
  intros Hres.
  destruct (reserveStep_frame _ _ _ _ _ Hres) as ((Hm & Hp & Hs) & Hh).
  split; [|auto].
  apply attemptLoop_continue. apply attemptBody_reserve_failed. exact Hres.
Qed.

(** How one pass settles its reservation: after a successful
    [Reserve], a provider response leads to one [Commit] of the actual
    usage (1 when the unit is requests) and a recorded success, a
    provider error to one [Rollback] and a recorded failure. *)
Lemma attemptBody_settles req est i c (w : World Q) res q1 :
  qsReserve (quotaStore w) (clock w (clockPos w)) (uuids w (S (uuidPos w)))
            (Candidate.AccountID c) (reserveAmount est c) (Candidate.QuotaUnit c)
            (uuids w (uuidPos w)) = (inl res, q1) ->
  let s := fst (attemptBody req est i c w) in
  let w' := snd (attemptBody req est i c w) in
  match providerAnswer req c w with
  | inl resp =>
      (exists now,
         quotaStore w'
         = snd (qsCommit q1 now res
                  (if String.eqb (Candidate.QuotaUnit c) QuotaRequests then 1
                   else Usage.TotalTokens (ProviderResponse.Usage resp)))) /\
      health w' = Health.RecordSuccess (health w) (Candidate.AccountID c) /\
      exists r, s = Return (inl r) /\
                ChatResponse.Usage r = ProviderResponse.Usage resp /\
                RoutingInfo.AccountID (ChatResponse.Routing r) = Candidate.AccountID c
  | inr err =>
      (exists now, quotaStore w' = snd (qsRollback q1 now res)) /\
      (exists now, health w'
                   = Health.RecordFailure (health w) now (Candidate.AccountID c)) /\
      s = if IsFatal err
          then Return (inr (RouterError err (Provider.Name (Candidate.Provider c))
                              (Candidate.AccountID c) (Candidate.Model c) (i + 1)))
          else Continue err
  end.
Proof.
  intros Hres. cbv zeta.
  unfold providerAnswer, providerRequest, attemptBody.
  cbv [bind newUUID Reserve timeNow]. simpl.
  unfold reserveAmount in Hres. rewrite Hres. simpl.
  cbv [emit callProvider timeNow Commit Rollback RecordSuccess RecordFailure bind ret].
  simpl.
  destruct (Provider.ChatCompletion (Candidate.Provider c) (providerCalls w) _)
    as [resp|err].
  - destruct (qsCommit _ _ _ _) as [e q] eqn:Hc. simpl.
    simpl in Hc.
    split; [match type of Hc with qsCommit _ ?now _ _ = _ => exists now end;
            rewrite Hc; reflexivity|].
    split; [reflexivity|]. eexists. repeat split.
  - destruct (qsRollback _ _ _) as [e q] eqn:Hr. simpl.
    simpl in Hr.
    destruct (IsFatal err); simpl;
      (split; [match type of Hr with qsRollback _ ?now _ = _ => exists now end;
               rewrite Hr; reflexivity|]);
      (split; [eexists; reflexivity|reflexivity]).
Qed.



End RouterMore.

(** ** The router without a quota store *)

Section RouterNoop.
Import Errors Quota Router RouterSpec TraceSpec.

Lemma noop_candidatesForModels acc prov models :
  forall w : World noopQuotaStore,
  Forall (fun c => Candidate.Free c = false) (fst (candidatesForModels acc prov models w)).
Proof.
  induction models as [|model rest IH]; intros w; [constructor|].
  cbn [candidatesForModels]. unfold bind, ret.
  destruct (Router.Remaining (AccountConfig.ID acc) w) as [r w1] eqn:HR.
  assert (Hr : fst r = 0).
  { cbv [Router.Remaining bind timeNow] in HR. simpl in HR.
    injection HR as <- _. reflexivity. }
  destruct (Router.GetHealth (AccountConfig.ID acc) w1) as [st w2].
  specialize (IH w2). destruct (candidatesForModels acc prov rest w2) as [cs w3].
  cbn [fst] in IH |- *. constructor; [|exact IH].
  simpl. rewrite Hr. apply andb_false_r.
Qed.

Lemma noop_buildCandidates cfg provs requestModel (w : World noopQuotaStore) :
  Forall (fun c => Candidate.Free c = false)
         (fst (buildCandidates cfg provs requestModel w)).
Proof.
  unfold buildCandidates. generalize (Config.Accounts cfg) as accounts.
  intros accounts. revert w. induction accounts as [|acc rest IH]; intros w; [constructor|].
  cbn [buildCandidatesFrom].
  destruct (provs !! AccountConfig.Provider acc) as [prov|]; [|apply IH].
  unfold bind, ret.
  pose proof (noop_candidatesForModels acc prov
                (modelsForAccount (resolveModel cfg requestModel) acc prov requestModel cfg) w)
    as Hcs.
  destruct (candidatesForModels acc prov _ w) as [cs w1]. cbn [fst] in Hcs.
  specialize (IH w1).
  destruct (buildCandidatesFrom cfg provs requestModel _ rest w1) as [cs' w2].
  cbn [fst] in IH |- *. apply Forall_app. split; assumption.
Qed.

(** A router that was given no quota store uses the built-in store,
    whose [Remaining] always answers 0: no candidate is ever free, so
    with paid use not allowed every request is refused with
    [ErrNoCandidates], without an attempt, whatever free allowance the
    accounts are configured with. *)
Theorem noop_store_has_no_free_candidates
    (r : Router.t) (req : ChatRequest.t) (w : World noopQuotaStore) :
  Config.AllowPaid (cfg r) = false ->
  fst (ChatCompletion r req w) = inr (Sentinel ErrNoCandidates) /\
  providerCalls (snd (ChatCompletion r req w)) = providerCalls w /\
  meter (snd (ChatCompletion r req w)) = meter w.
Proof.
  intros Hpaid. unfold ChatCompletion, bind.
  pose proof (noop_buildCandidates (cfg r) (providers r) (ChatRequest.Model req) w) as Hfree.
  pose proof (buildCandidates_sameTrace (cfg r) (providers r) (ChatRequest.Model req) w)
    as (Hm & Hp & _).
  destruct (buildCandidates (cfg r) (providers r) (ChatRequest.Model req) w) as [cands w1].
  cbn [fst snd] in Hfree, Hm, Hp.
  assert (Hnone : filterCandidates cands (Config.AllowPaid (cfg r)) = []).
  { rewrite filterCandidates_spec, Hpaid.
    induction Hfree as [|c cs Hc _ IH]; [reflexivity|].
    simpl. unfold FilterSpec.kept at 1. rewrite Hc, andb_false_r. exact IH. }
  rewrite Hnone. simpl. auto.
Qed.

Lemma noop_store_has_no_free_candidates_witness :
  fst (ChatCompletion RouterSamples.freeOnlyRouter Samples.hello RouterSamples.noopWorld)
  = inr (Sentinel ErrNoCandidates).
Proof.
  exact (proj1 (noop_store_has_no_free_candidates RouterSamples.freeOnlyRouter
                  Samples.hello RouterSamples.noopWorld eq_refl)).
Defined.

End RouterNoop.

(** ** The router over the in-memory quota store *)

Section RouterMemory.
Import Errors Quota Router RouterSpec TraceSpec QuotaRuns MemorySpec.

(** The store call behind the first two statements of the loop body. *)
Lemma reserveStep_store {Q : Type} `{QuotaStore Q} est c (w w1 : World Q) r :
  reserveStep est c w = (r, w1) ->
  qsReserve (quotaStore w) (clock w (clockPos w)) (uuids w (S (uuidPos w)))
            (Candidate.AccountID c) (reserveAmount est c) (Candidate.QuotaUnit c)
            (uuids w (uuidPos w)) = (r, quotaStore w1).
Proof.
  unfold reserveStep, Reserve, bind, newUUID, timeNow. simpl.
  destruct (qsReserve _ _ _ _ _ _ _) as [r' q]. intros [= <- <-]. reflexivity.
Qed.

Lemma maybeReset_Reserved_range now q :
  Int64.in_range (MemoryQuotaStore.Reserved q) ->
  Int64.in_range (MemoryQuotaStore.Reserved (MemoryQuotaStore.maybeReset now q)).
Proof.
  unfold MemoryQuotaStore.maybeReset. destruct (Time.After _ _); [|auto].
  intros _. unfold Int64.in_range, Int64.min_int, Int64.max_int. simpl. lia.
Qed.

(** A successful [Reserve] returns the reservation asked for and adds
    the amount to [reserved] in the account's row, reset first when
    its reset time has passed; without a row nothing is stored. *)
Lemma Reserve_success_rows (s s1 : MemoryQuotaStore.t) now uuid a x unit key r :
  MemoryQuotaStore.Reserve s now uuid a x unit key = (inl r, s1) ->
  r = {| ID := uuid; AccountID := a; Amount := x; Unit := unit |} /\
  MemoryQuotaStore.accounts s1
  = updateRow s a (fun q0 =>
      let q := MemoryQuotaStore.maybeReset now q0 in
      withCounts q (MemoryQuotaStore.Used q)
                 (Int64.add (MemoryQuotaStore.Reserved q) x)).
Proof.
  unfold MemoryQuotaStore.Reserve, updateRow.
  destruct (negb (String.eqb key "") && MemoryQuotaStore.seenKey s key); [discriminate|].
  destruct (MemoryQuotaStore.accounts s !! a) as [q0|] eqn:Hq.
  - cbv zeta.
    match goal with |- context [if (?lhs <? x) then _ else _] =>
      destruct (lhs <? x) end; [discriminate|].
    intros [= <- <-]. split; reflexivity.
  - intros [= <- <-]. split; reflexivity.
Qed.

Lemma Reserve_Commit_rows (s s1 : MemoryQuotaStore.t) now uuid a x y unit key r :
  (forall q0, MemoryQuotaStore.accounts s !! a = Some q0 ->
              Int64.in_range (MemoryQuotaStore.Reserved q0)) ->
  MemoryQuotaStore.Reserve s now uuid a x unit key = (inl r, s1) ->
  MemoryQuotaStore.accounts (snd (MemoryQuotaStore.Commit s1 r y))
  = updateRow s a (fun q0 =>
      let q := MemoryQuotaStore.maybeReset now q0 in
      withCounts q (Int64.add (MemoryQuotaStore.Used q) y) (MemoryQuotaStore.Reserved q)).
Proof.
  intros Hrange Hres.
  destruct (Reserve_success_rows _ _ _ _ _ _ _ _ _ Hres) as [-> Hrows].
  unfold MemoryQuotaStore.Commit. cbn [AccountID Amount]. rewrite Hrows.
  unfold updateRow in *.
  destruct (MemoryQuotaStore.accounts s !! a) as [q0|] eqn:Hq.
  - rewrite lookup_insert_eq. cbn [snd MemoryQuotaStore.accounts]. cbv zeta.
    rewrite insert_insert_eq. unfold withCounts. cbn.
    rewrite wrap_add_sub by (apply maybeReset_Reserved_range, Hrange; reflexivity).
    reflexivity.
  - rewrite Hq. cbn [snd]. exact Hrows.
Qed.

Lemma Reserve_Rollback_rows (s s1 : MemoryQuotaStore.t) now uuid a x unit key r :
  (forall q0, MemoryQuotaStore.accounts s !! a = Some q0 ->
              Int64.in_range (MemoryQuotaStore.Reserved q0)) ->
  MemoryQuotaStore.Reserve s now uuid a x unit key = (inl r, s1) ->
  MemoryQuotaStore.accounts (snd (MemoryQuotaStore.Rollback s1 r))
  = updateRow s a (MemoryQuotaStore.maybeReset now).
Proof.
  intros Hrange Hres.
  destruct (Reserve_success_rows _ _ _ _ _ _ _ _ _ Hres) as [-> Hrows].
  unfold MemoryQuotaStore.Rollback. cbn [AccountID Amount]. rewrite Hrows.
  unfold updateRow in *.
  destruct (MemoryQuotaStore.accounts s !! a) as [q0|] eqn:Hq.
  - rewrite lookup_insert_eq. cbn [snd MemoryQuotaStore.accounts]. cbv zeta.
    rewrite insert_insert_eq. unfold withCounts. cbn.
    rewrite wrap_add_sub by (apply maybeReset_Reserved_range, Hrange; reflexivity).
    f_equal. destruct (MemoryQuotaStore.maybeReset now q0); reflexivity.
  - rewrite Hq. cbn [snd]. exact Hrows.
Qed.

Lemma updateRow_idle (s : MemoryQuotaStore.t) a now :
  (forall q0, MemoryQuotaStore.accounts s !! a = Some q0 ->
              Time.After now (MemoryQuotaStore.ResetAt q0) = false) ->
  updateRow s a (MemoryQuotaStore.maybeReset now) = MemoryQuotaStore.accounts s.
Proof.
  intros Hidle. unfold updateRow.
  destruct (MemoryQuotaStore.accounts s !! a) as [q0|] eqn:Hq; [|reflexivity].
  rewrite (maybeReset_idle _ _ (Hidle _ eq_refl)). apply insert_id. exact Hq.
Qed.

(** A successful attempt charges the account what the provider
    reported, not what was estimated.  When the [Reserve] of the pass
    succeeds and the provider answers, the pass returns the response
    and a success is recorded for the account.  The account's row is
    the row [Reserve] saw, that is the stored row put through the
    daily reset when its reset time had passed, with [reserved] as in
    that row and [used] grown, in [int64] arithmetic, by the
    response's total tokens (by 1 when the unit is requests), also
    when that is more than was reserved; an account without a row is
    charged nothing.  The stored [reserved] is taken to be an [int64]
    value. *)
Theorem successful_attempt_charges_actual_usage
    (req : ChatRequest.t) (est : Z) (i : nat) (c : Candidate.t)
    (w w1 : World MemoryQuotaStore.t) (res : Reservation)
    (resp : ProviderResponse.t) :
  let now := clock w (clockPos w) in
  let a := Candidate.AccountID c in
  let y := if String.eqb (Candidate.QuotaUnit c) QuotaRequests then 1
           else Usage.TotalTokens (ProviderResponse.Usage resp) in
  reserveStep est c w = (inl res, w1) ->
  providerAnswer req c w = inl resp ->
  (forall q0, MemoryQuotaStore.accounts (quotaStore w) !! a = Some q0 ->
              Int64.in_range (MemoryQuotaStore.Reserved q0)) ->
  let w' := snd (attemptBody req est i c w) in
  (exists r, fst (attemptBody req est i c w) = Return (inl r) /\
             ChatResponse.Usage r = ProviderResponse.Usage resp) /\
  MemoryQuotaStore.accounts (quotaStore w')
  = updateRow (quotaStore w) a (fun q0 =>
      let q := MemoryQuotaStore.maybeReset now q0 in
      withCounts q (Int64.add (MemoryQuotaStore.Used q) y) (MemoryQuotaStore.Reserved q)) /\
  health w' = Health.RecordSuccess (health w) a.
Proof.
  intros now a y Hstep Hans Hrange w'.
  pose proof (reserveStep_store _ _ _ _ _ Hstep) as Hres.
  pose proof (attemptBody_settles req est i c w _ _ Hres) as Hset.
  cbv zeta in Hset. rewrite Hans in Hset.
  destruct Hset as ((now' & Hstore) & Hhealth & r & Hr & Hu & _).
  subst w'. split; [exists r; auto|]. split; [|exact Hhealth].
  rewrite Hstore.
  exact (Reserve_Commit_rows (quotaStore w) (quotaStore w1) now _ a _ y _ _ _
           Hrange Hres).
Qed.

Lemma successful_attempt_charges_actual_usage_witness :
  MemoryQuotaStore.accounts
    (quotaStore (snd (attemptBody Samples.hello 8 3 Samples.goodCandidate Samples.world0)))
  !! "acct-4"
  = Some {| MemoryQuotaStore.DailyLimit := 1000; MemoryQuotaStore.Used := 30;
            MemoryQuotaStore.Reserved := 0; MemoryQuotaStore.QUnit := QuotaTokens;
            MemoryQuotaStore.ResetAt := MemoryQuotaStore.nextMidnightUTC 0 |} /\
  MemoryQuotaStore.accounts
    (quotaStore (snd (attemptBody Samples.hello 8 3 Samples.goodCandidate
                        RouterSamples.laterWorld)))
  !! "acct-4"
  = Some {| MemoryQuotaStore.DailyLimit := 1000; MemoryQuotaStore.Used := 30;
            MemoryQuotaStore.Reserved := 0; MemoryQuotaStore.QUnit := QuotaTokens;
            MemoryQuotaStore.ResetAt := 3 * Time.Day |}.
Proof.
  split.
  - destruct (successful_attempt_charges_actual_usage Samples.hello 8 3
                Samples.goodCandidate Samples.world0
                (snd (reserveStep 8 Samples.goodCandidate Samples.world0))
                {| ID := "uu"; AccountID := "acct-4"; Amount := 8; Unit := QuotaTokens |}
                Samples.okResponse) as (_ & Hrow & _).
    + apply pair_from_fst. vm_compute. reflexivity.
    + reflexivity.
    + intros q0 Hq0. vm_compute in Hq0. injection Hq0 as <-. vm_compute.
      split; discriminate.
    + rewrite Hrow. vm_compute. reflexivity.
  - destruct (successful_attempt_charges_actual_usage Samples.hello 8 3
                Samples.goodCandidate RouterSamples.laterWorld
                (snd (reserveStep 8 Samples.goodCandidate RouterSamples.laterWorld))
                {| ID := "uu"; AccountID := "acct-4"; Amount := 8; Unit := QuotaTokens |}
                Samples.okResponse) as (_ & Hrow & _).
    + apply pair_from_fst. vm_compute. reflexivity.
    + reflexivity.
    + intros q0 Hq0. vm_compute in Hq0. injection Hq0 as <-. vm_compute.
      split; discriminate.
    + rewrite Hrow. vm_compute. reflexivity.
Defined.

(** A failed attempt costs the account nothing.  When the [Reserve] of
    the pass succeeds and the provider answers with an error, the
    reservation is rolled back: every row of the store is as before
    the attempt, except that the account's own row has been put
    through the daily reset when its reset time had passed; with no
    reset due, and for an account without a row, the rows are exactly
    those before the attempt.  A failure is recorded for the account,
    and the loop stops with a [RouterError] if the error is fatal and
    goes on otherwise.  The stored [reserved] is taken to be an
    [int64] value. *)
Theorem failed_attempt_costs_nothing
    (req : ChatRequest.t) (est : Z) (i : nat) (c : Candidate.t)
    (w w1 : World MemoryQuotaStore.t) (res : Reservation) (err : error) :
  let now := clock w (clockPos w) in
  let a := Candidate.AccountID c in
  reserveStep est c w = (inl res, w1) ->
  providerAnswer req c w = inr err ->
  (forall q0, MemoryQuotaStore.accounts (quotaStore w) !! a = Some q0 ->
              Int64.in_range (MemoryQuotaStore.Reserved q0)) ->
  let w' := snd (attemptBody req est i c w) in
  MemoryQuotaStore.accounts (quotaStore w')
  = updateRow (quotaStore w) a (MemoryQuotaStore.maybeReset now) /\
  ((forall q0, MemoryQuotaStore.accounts (quotaStore w) !! a = Some q0 ->
               Time.After now (MemoryQuotaStore.ResetAt q0) = false) ->
   MemoryQuotaStore.accounts (quotaStore w') = MemoryQuotaStore.accounts (quotaStore w)) /\
  (exists now', health w' = Health.RecordFailure (health w) now' a) /\
  fst (attemptBody req est i c w)
  = if IsFatal err
    then Return (inr (RouterError err (Provider.Name (Candidate.Provider c))
                        (Candidate.AccountID c) (Candidate.Model c) (i + 1)))
    else Continue err.
Proof.
  intros now a Hstep Hans Hrange w'.
  pose proof (reserveStep_store _ _ _ _ _ Hstep) as Hres.
  pose proof (attemptBody_settles req est i c w _ _ Hres) as Hset.
  cbv zeta in Hset. rewrite Hans in Hset.
  destruct Hset as ((now' & Hstore) & Hhealth & Hstepres).
  subst w'.
  assert (Hrows : MemoryQuotaStore.accounts
                    (quotaStore (snd (attemptBody req est i c w)))
                  = updateRow (quotaStore w) a (MemoryQuotaStore.maybeReset now)).
  { rewrite Hstore.
    exact (Reserve_Rollback_rows (quotaStore w) (quotaStore w1) now _ a _ _ _ _
             Hrange Hres). }
  split; [exact Hrows|]. split; [|split; assumption].
  intros Hidle. rewrite Hrows. apply updateRow_idle. exact Hidle.
Qed.

Lemma failed_attempt_costs_nothing_witness :
  MemoryQuotaStore.accounts (quotaStore Samples.world1)
  = MemoryQuotaStore.accounts (quotaStore Samples.world0) /\
  fst (attemptBody Samples.hello 8 0 Samples.limitedCandidate Samples.world0)
  = Continue (Sentinel ErrRateLimited) /\
  MemoryQuotaStore.accounts
    (quotaStore (snd (attemptBody Samples.hello 8 0 Samples.limitedCandidate
                        RouterSamples.laterWorld)))
  !! "acct-1"
  = Some {| MemoryQuotaStore.DailyLimit := 1000; MemoryQuotaStore.Used := 0;
            MemoryQuotaStore.Reserved := 0; MemoryQuotaStore.QUnit := QuotaTokens;
            MemoryQuotaStore.ResetAt := 3 * Time.Day |}.
Proof.
  destruct (failed_attempt_costs_nothing Samples.hello 8 0
              Samples.limitedCandidate Samples.world0
              (snd (reserveStep 8 Samples.limitedCandidate Samples.world0))
              {| ID := "uu"; AccountID := "acct-1"; Amount := 8; Unit := QuotaTokens |}
              (Sentinel ErrRateLimited)) as (_ & Hidle & _ & Hstep).
  - apply pair_from_fst. vm_compute. reflexivity.
  - reflexivity.
  - intros q0 Hq0. vm_compute in Hq0. injection Hq0 as <-. vm_compute.
    split; discriminate.
  - destruct (failed_attempt_costs_nothing Samples.hello 8 0
                Samples.limitedCandidate RouterSamples.laterWorld
                (snd (reserveStep 8 Samples.limitedCandidate RouterSamples.laterWorld))
                {| ID := "uu"; AccountID := "acct-1"; Amount := 8; Unit := QuotaTokens |}
                (Sentinel ErrRateLimited)) as (Hrows & _).
    + apply pair_from_fst. vm_compute. reflexivity.
    + reflexivity.
    + intros q0 Hq0. vm_compute in Hq0. injection Hq0 as <-. vm_compute.
      split; discriminate.
    + split; [|split; [exact Hstep|]].
      * apply Hidle. intros q0 Hq0. vm_compute in Hq0. injection Hq0 as <-.
        vm_compute. reflexivity.
      * rewrite Hrows. vm_compute. reflexivity.
Defined.

Lemma failed_reserve_skips_candidate_witness :
  attemptLoop Samples.hello 8 4 1 (Some (Sentinel ErrRateLimited))
    [Samples.exhaustedCandidate; Samples.deniedCandidate; Samples.goodCandidate]
    Samples.world1
  = attemptLoop Samples.hello 8 4 2 (Some (Sentinel ErrQuotaExceeded))
      [Samples.deniedCandidate; Samples.goodCandidate]
      (snd (reserveStep 8 Samples.exhaustedCandidate Samples.world1)) /\
  health (snd (reserveStep 8 Samples.exhaustedCandidate Samples.world1))
  = health Samples.world1.
Proof.
  destruct (failed_reserve_skips_candidate Samples.hello 8 4 1
              (Some (Sentinel ErrRateLimited)) Samples.exhaustedCandidate
              [Samples.deniedCandidate; Samples.goodCandidate] Samples.world1
              (snd (reserveStep 8 Samples.exhaustedCandidate Samples.world1))
              (Sentinel ErrQuotaExceeded)) as (Hloop & _ & _ & Hh & _).
  - apply pair_from_fst. vm_compute. reflexivity.
  - split; [exact Hloop|exact Hh].
Defined.

End RouterMemory.

(** ** The spend tracker *)

Section SpendMore.
Import Spend.

Lemma checkReset_day s today : resetDay (checkReset s today) = today.
Proof.
  unfold checkReset. destruct (Z.eqb_spec today (resetDay s)); simpl; congruence.
Qed.

Lemma checkReset_same s today : resetDay s = today -> checkReset s today = s.
Proof. intros <-. unfold checkReset. rewrite Z.eqb_refl. reflexivity. Qed.

(** Spend adds up per account within a day and starts again at zero
    when the day changes: read on the day it is recorded, a spend of
    [d] on account [a] raises [a]'s total by [d] and leaves the other
    accounts' totals alone; on any other day than the tracker's reset
    day every account reads 0, and recording then drops what all
    accounts had accumulated. *)
Theorem SpendTracker_accumulates_per_day
    (s : SpendTracker) (today : Z) (a b : string) (d : Float64.t) :
  fst (GetSpend (RecordSpend s today a d) today b)
  = (if String.eqb a b then (fst (GetSpend s today a) + d)%float
     else fst (GetSpend s today b)) /\
  (today <> resetDay s ->
   fst (GetSpend s today b) = 0%float /\
   accounts (RecordSpend s today a d) = {[ a := (0 + d)%float ]}) /\
  (today = resetDay s ->
   fst (GetSpend s today b) = default 0%float (accounts s !! b)).
Proof.
  split; [|split].
  - unfold GetSpend, RecordSpend. cbn [fst].
    rewrite checkReset_same by (simpl; apply checkReset_day). simpl.
    destruct (String.eqb_spec a b) as [->|Hne].
    + rewrite lookup_insert_eq. reflexivity.
    + rewrite lookup_insert_ne by assumption. reflexivity.
  - intros Hne. unfold GetSpend, RecordSpend, checkReset.
    destruct (Z.eqb_spec today (resetDay s)); [contradiction|]. simpl.
    split; [reflexivity|]. rewrite lookup_empty. simpl. apply insert_empty.
  - intros ->. unfold GetSpend. rewrite checkReset_same by reflexivity. reflexivity.
Qed.

End SpendMore.

(** ** Opening a stream *)

Section StreamOpen.
Import Errors Quota Router RouterSpec TraceSpec RouterStreaming StreamSpec.
Context {Q : Type} `{QuotaStore Q}.

(** One pass through the loop body of [ChatCompletionStream] either
    skips the candidate without a trace or makes one streaming call,
    announced by an [OnRoute]; no [OnResult] is emitted. *)
Lemma streamAttemptBody_trace req est i c (w : World Q) :
  let s := fst (streamAttemptBody req est i c w) in
  let w' := snd (streamAttemptBody req est i c w) in
  spend w' = spend w /\
  ((exists err, s = StreamContinue err /\ meter w' = meter w /\
                providerCalls w' = providerCalls w) \/
   (exists r call,
      meter w' = (meter w ++ [OnRoute r])%list /\
      providerCalls w' = (providerCalls w ++ [call])%list /\
      routed r call /\
      RouteEvent.AccountID r = Candidate.AccountID c /\
      RouteEvent.Model r = Candidate.Model c /\
      RouteEvent.AttemptNum r = (i + 1)%nat /\
      match s with
      | StreamContinue _ => True
      | StreamReturn (inl st) =>
          closed st = false /\ streamErr st = None /\ totalUsage st = Usage.zero /\
          candidate st = c
      | StreamReturn (inr e) =>
          exists err p a m, e = RouterError err p a m (i + 1) /\ IsFatal err = true
      end)).
Proof.
  cbv zeta.
  destruct (reserveStep est c w) as [[res|err] w1] eqn:Hres.
  - destruct (reserveStep_frame _ _ _ _ _ Hres) as ((Hm & Hp & Hs) & Hh).
    unfold streamAttemptBody, reserveStep, reserveAmount, bind in *.
    destruct (newUUID w) as [key w0].
    destruct (Reserve _ _ _ key w0) as [r0 w1'].
    injection Hres as -> ->.
    cbv [emit timeNow callProviderStream Rollback RecordFailure bind ret]. simpl.
    destruct (Provider.ChatCompletionStream (Candidate.Provider c) (providerCalls w1) _)
      as [st|err].
    + simpl. split; [exact Hs|]. right. do 2 eexists.
      rewrite Hm, Hp. split; [reflexivity|]. split; [reflexivity|].
      split; [repeat split|]. repeat split.
    + destruct (qsRollback _ _ _) as [e q]. simpl.
      destruct (IsFatal err) eqn:Hfat; simpl;
        (split; [exact Hs|]); right; do 2 eexists;
        rewrite Hm, Hp; (split; [reflexivity|]); (split; [reflexivity|]);
        (split; [repeat split|]); repeat split.
      do 4 eexists. split; [reflexivity|exact Hfat].
  - destruct (reserveStep_frame _ _ _ _ _ Hres) as ((Hm & Hp & Hs) & Hh).
    unfold streamAttemptBody, reserveStep, reserveAmount, bind in *.
    destruct (newUUID w) as [key w0].
    destruct (Reserve _ _ _ key w0) as [r0 w1'].
    injection Hres as -> ->. simpl.
    split; [exact Hs|]. left. exists err. auto.
Qed.

Lemma opened_weaken i j n last last' (r : RouterStream + error) :
  (i <= j)%nat -> (isResponse r = true -> last' = last) ->
  opened j n last r -> opened i n last' r.
Proof.
  intros Hij Hlast. destruct r as [s|err]; simpl.
  - intros (Hc & He & Hu & e & Hl & Ha & Hm & Hn).
    repeat (split; [assumption|]). exists e.
    rewrite (Hlast eq_refl). repeat split; try assumption; lia.
  - intros [(e & p & a & m & k & -> & Hf & Hk)|[Hall|Hnone]].
    + left. exists e, p, a, m, k. repeat split; try assumption; lia.
    + right. left. exact Hall.
    + right. right. exact Hnone.
Qed.

Lemma streamAttemptLoop_trace req est total rest :
  forall i lastErr (w : World Q),
  (i + length rest = total)%nat ->
  (i = 0%nat -> lastErr = None) -> ((0 < i)%nat -> is_Some lastErr) ->
  let result := streamAttemptLoop req est total i lastErr rest w in
  spend (snd result) = spend w /\
  exists routes calls,
    meter (snd result) = (meter w ++ map OnRoute routes)%list /\
    providerCalls (snd result) = (providerCalls w ++ calls)%list /\
    Forall2 routed routes calls /\
    opened i total (last routes) (fst result).
Proof.
  induction rest as [|c rest IH]; intros i lastErr w Hlen Hzero Hpos; cbv zeta.
  - simpl in Hlen. cbn [streamAttemptLoop].
    destruct lastErr as [e|]; simpl; (split; [reflexivity|]);
      exists [], []; rewrite !app_nil_r;
      (split; [reflexivity|]); (split; [reflexivity|]); (split; [constructor|]).
    + right. left. split; [reflexivity|].
      destruct (Nat.eq_dec i 0%nat) as [Hi|Hi]; [specialize (Hzero Hi); discriminate|lia].
    + right. right. reflexivity.
  - simpl in Hlen. cbn [streamAttemptLoop]. unfold bind.
    pose proof (streamAttemptBody_trace req est i c w) as Hbody. cbv zeta in Hbody.
    destruct (streamAttemptBody req est i c w) as [s w1]. cbn [fst snd] in Hbody.
    destruct Hbody as [Hsp Hbody].
    destruct s as [err|result].
    + specialize (IH (S i) (Some err) w1 ltac:(lia) ltac:(discriminate)
                     ltac:(intros _; eexists; reflexivity)).
      cbv zeta in IH.
      destruct IH as (Hsp' & routes & calls & Hm & Hp & Hall & Hopen).
      split; [congruence|].
      destruct Hbody as [(err' & _ & Hm1 & Hp1)
                        |(r & call & Hm1 & Hp1 & Hr & _)].
      * exists routes, calls. rewrite Hm, Hp, Hm1, Hp1.
        repeat (split; [auto|]).
        eapply opened_weaken; [| |exact Hopen]; [lia|reflexivity].
      * exists (r :: routes), (call :: calls).
        rewrite Hm, Hp, Hm1, Hp1, <- !app_assoc. simpl.
        split; [reflexivity|]. split; [reflexivity|].
        split; [constructor; assumption|].
        eapply opened_weaken; [| |exact Hopen]; [lia|].
        intros Hresp. rewrite last_cons.
        destruct (fst (streamAttemptLoop req est total (S i) (Some err) rest w1))
          as [st|e]; [|discriminate].
        simpl in Hopen. destruct Hopen as (_ & _ & _ & e & -> & _). reflexivity.
    + simpl. split; [exact Hsp|].
      destruct Hbody as [(err' & Hcont & _)
                        |(r & call & Hm1 & Hp1 & Hr & Ha & Hmo & Hn & Hres)];
        [discriminate|].
      exists [r], [call]. split; [exact Hm1|]. split; [exact Hp1|].
      split; [constructor; [exact Hr|constructor]|].
      destruct result as [st|e]; simpl.
      * destruct Hres as (Hc & He & Hu & ->). repeat (split; [assumption|]).
        exists r. repeat split; try assumption; lia.
      * destruct Hres as (err & p & a & m & -> & Hfat). left.
        exists err, p, a, m, (i + 1)%nat. repeat split; try assumption; lia.
Qed.

(** [ChatCompletionStream] tells the meter one [OnRoute] for every
    streaming call it makes to a provider, in call order, and nothing
    else: an attempt to open a stream that fails is not reported by an
    [OnResult].  It returns an open stream that has seen no chunk and
    no error, for the candidate of the last [OnRoute]; or a
    [RouterError] around a fatal error, [ErrAllFailed] with the number
    of ordered candidates, or [ErrNoCandidates].  No spend is
    recorded. *)
Theorem ChatCompletionStream_routes_and_outcomes
    (r : Router.t) (req : ChatRequest.t) (w : World Q) :
  let ordered :=
    policy r (filterCandidates
                (fst (buildCandidates (cfg r) (providers r) (ChatRequest.Model req) w))
                (Config.AllowPaid (cfg r))) in
  let result := ChatCompletionStream r req w in
  spend (snd result) = spend w /\
  exists routes calls,
    meter (snd result) = (meter w ++ map OnRoute routes)%list /\
    providerCalls (snd result) = (providerCalls w ++ calls)%list /\
    Forall2 routed routes calls /\
    opened 0 (length ordered) (last routes) (fst result).
Proof.
  cbv zeta. unfold ChatCompletionStream, bind.
  pose proof (buildCandidates_sameTrace (cfg r) (providers r) (ChatRequest.Model req) w)
    as (Hm & Hp & Hs).
  destruct (buildCandidates (cfg r) (providers r) (ChatRequest.Model req) w)
    as [cands w1]. cbn [fst snd] in Hm, Hp, Hs |- *.
  destruct (length (filterCandidates cands (Config.AllowPaid (cfg r))) =? 0)%nat.
  - simpl. split; [exact Hs|]. exists [], []. rewrite !app_nil_r. simpl.
    repeat (split; [auto|]). right. right. reflexivity.
  - pose proof (streamAttemptLoop_trace req (EstimateTokens (ChatRequest.Messages req))
                  (length (policy r (filterCandidates cands (Config.AllowPaid (cfg r)))))
                  (policy r (filterCandidates cands (Config.AllowPaid (cfg r))))
                  0 None w1 eq_refl (fun _ => eq_refl)
                  ltac:(intros Hlt; inversion Hlt)) as Hloop.
    cbv zeta in Hloop. destruct Hloop as (Hsp & routes & calls & Hm1 & Hp1 & Hall & Hopen).
    split; [congruence|]. exists routes, calls.
    rewrite Hm1, Hp1, Hm, Hp. auto.
Qed.

End StreamOpen.

(** ** Reading and closing a stream *)

Section StreamRead.
Import Errors Quota Router StreamReadSpec.

Lemma readN_step n (s : RouterStream) :
  readN (S n) s
  = (fst (Next s) :: fst (readN n (snd (Next s))), snd (readN n (snd (Next s)))).
Proof.
  cbn [readN]. destruct (Next s) as [r s1]. cbn [fst snd].
  destruct (readN n s1) as [rs s2]. reflexivity.
Qed.

Lemma errorsOf_cons r rs :
  errorsOf (r :: rs)
  = match r with inr e => e :: errorsOf rs | inl _ => errorsOf rs end.
Proof. destruct r; reflexivity. Qed.

Lemma usagesOf_cons r rs :
  usagesOf (r :: rs)
  = match r with
    | inl chunk => match StreamChunk.Usage chunk with
                   | Some u => u :: usagesOf rs
                   | None => usagesOf rs
                   end
    | inr _ => usagesOf rs
    end.
Proof. destruct r as [chunk|e]; [|reflexivity]. unfold usagesOf. simpl.
  destruct (StreamChunk.Usage chunk); reflexivity. Qed.

Lemma Next_inner (s : RouterStream) :
  fst (Next s) = fst (ProviderStream.Next (inner s)) /\
  inner (snd (Next s)) = snd (ProviderStream.Next (inner s)) /\
  reservation (snd (Next s)) = reservation s /\
  candidate (snd (Next s)) = candidate s /\
  startTime (snd (Next s)) = startTime s /\
  closed (snd (Next s)) = closed s.
Proof.
  unfold Next. destruct (ProviderStream.Next (inner s)) as [[chunk|err] inner'];
    simpl; repeat split.
Qed.

(** Over any number of [Next] calls the router's stream hands on what
    the provider's stream returns, unchanged and in order.  The error
    it retains is the first one returned (a retained error is never
    replaced), and the usage it holds is the last one a chunk carried,
    also when that chunk came after an error; reservation, candidate,
    start time and the closed flag are not touched. *)
Theorem Next_keeps_first_error_and_last_usage (n : nat) (s : RouterStream) :
  let rs := fst (readN n s) in
  let s' := snd (readN n s) in
  rs = innerReads n (inner s) /\
  streamErr s' = match streamErr s with
                 | Some e => Some e
                 | None => head (errorsOf rs)
                 end /\
  totalUsage s' = default (totalUsage s) (last (usagesOf rs)) /\
  reservation s' = reservation s /\ candidate s' = candidate s /\
  startTime s' = startTime s /\ closed s' = closed s.
Proof.
  revert s. induction n as [|n IH]; intros s; cbv zeta.
  - simpl. destruct (streamErr s); repeat split.
  - rewrite readN_step. cbn [fst snd innerReads].
    destruct (Next_inner s) as (Hr & Hi & Hres & Hc & Hst & Hcl).
    specialize (IH (snd (Next s))). cbv zeta in IH.
    destruct IH as (IHr & IHe & IHu & IHres & IHc & IHst & IHcl).
    rewrite IHr in IHe, IHu. rewrite Hi in IHr, IHe, IHu.
    set (rest := innerReads n (snd (ProviderStream.Next (inner s)))) in *.
    rewrite IHr, IHe, IHu, IHres, IHc, IHst, IHcl, Hres, Hc, Hst, Hcl.
    split; [rewrite Hr; reflexivity|].
    pose proof (Next_tracks_usage_and_error s) as Hnext. rewrite <- Hr in Hnext.
    destruct (fst (Next s)) as [chunk|err]; destruct Hnext as [Hu He];
      rewrite Hu, He, errorsOf_cons, usagesOf_cons.
    + split; [reflexivity|]. split; [|repeat split].
      destruct (StreamChunk.Usage chunk) as [u|]; simpl; [|reflexivity].
      rewrite last_cons. destruct (last (usagesOf rest)); reflexivity.
    + split; [destruct (streamErr s); reflexivity|]. repeat split.
Qed.

End StreamRead.

Section StreamClose.
Import Errors Quota Router StreamReadSpec.

(** [Close] of an open stream adds the cost of the request to the
    account's spend exactly when the stream counts as successful and
    the cost is positive, also when the [Commit] of the reservation
    failed; a failed stream records no spend.  The [OnResult] event
    carries the cost of a successful stream and 0 for a failed one. *)
Theorem Close_records_spend {Q : Type} `{QuotaStore Q}
    (s : RouterStream) (w : World Q) :
  closed s = false ->
  let w' := snd (Close s w) in
  let cost := calculateSpend (candidate s) (totalUsage s) in
  (if isSuccess s && Float64.ltb 0%float cost
   then exists now,
          spend w' = Spend.RecordSpend (spend w) (yearDay w now)
                       (Candidate.AccountID (candidate s)) cost
   else spend w' = spend w) /\
  exists ev,
    last (meter w') = Some (OnResult ev) /\
    ResultEvent.DollarCost ev = if isSuccess s then cost else 0%float.
Proof.
  intros Hc. cbv zeta.
  destruct (Close s w) as [[r s'] w'] eqn:HC. cbn [fst snd].
  unfold Close in HC. rewrite Hc in HC.
  cbv [bind timeNow Commit Rollback RecordSuccess RecordFailure RecordSpend emit ret] in HC.
  simpl in HC.
  destruct (isSuccess s) eqn:Hs.
  - match type of HC with context [qsCommit ?a ?b ?c ?d] =>
      destruct (qsCommit a b c d) as [qe q] eqn:Hq end.
    simpl in HC.
    destruct (Float64.ltb 0%float (calculateSpend (candidate s) (totalUsage s)));
      simpl in HC; injection HC as <- <- <-; simpl;
      (split; [try (eexists; reflexivity); reflexivity|]);
      eexists; (split; [apply last_snoc|reflexivity]).
  - match type of HC with context [qsRollback ?a ?b ?c] =>
      destruct (qsRollback a b c) as [qe q] eqn:Hq end.
    simpl in HC. injection HC as <- <- <-. simpl.
    split; [reflexivity|]. eexists. split; [apply last_snoc|reflexivity].
Qed.

Lemma Close_records_spend_witness :
  exists today,
    fst (Spend.GetSpend
           (spend (snd (Close StreamSamples.paidFinished Samples.failingWorld)))
           today "paid-1")
    = 3.5%float.
Proof.
  destruct (Close_records_spend StreamSamples.paidFinished Samples.failingWorld eq_refl)
    as [Hspend _].
  change (isSuccess StreamSamples.paidFinished) with true in Hspend.
  assert (Hcost : calculateSpend (candidate StreamSamples.paidFinished)
                                 (totalUsage StreamSamples.paidFinished) = 3.5%float)
    by (vm_compute; reflexivity).
  rewrite Hcost in Hspend.
  change (true && Float64.ltb 0%float 3.5%float) with true in Hspend. cbv iota in Hspend.
  destruct Hspend as [now Hspend].
  exists (yearDay Samples.failingWorld now). rewrite Hspend.
  unfold Spend.GetSpend, Spend.RecordSpend. cbn [fst].
  rewrite checkReset_same by (simpl; apply checkReset_day). simpl.
  rewrite lookup_insert_eq. simpl.
  unfold Spend.checkReset, Spend.NewSpendTracker. simpl.
  destruct (negb _); simpl; rewrite lookup_empty; vm_compute; reflexivity.
Defined.

End StreamClose.

(** ** An open stream over the in-memory quota store *)

Section StreamOpenMemory.
Import Errors Quota Router RouterSpec RouterStreaming StreamReadSpec QuotaRuns MemorySpec.

Lemma streamAttemptBody_opens {Q : Type} `{QuotaStore Q}
    req est i c (w : World Q) res q1 st :
  qsReserve (quotaStore w) (clock w (clockPos w)) (uuids w (S (uuidPos w)))
            (Candidate.AccountID c) (reserveAmount est c) (Candidate.QuotaUnit c)
            (uuids w (uuidPos w)) = (inl res, q1) ->
  Provider.ChatCompletionStream (Candidate.Provider c) (providerCalls w)
    (streamRequest req c) = inl st ->
  exists now,
    fst (streamAttemptBody req est i c w)
    = StreamReturn (inl {| inner := st; reservation := res; candidate := c;
                           startTime := now; totalUsage := Usage.zero;
                           closed := false; streamErr := None |}) /\
    quotaStore (snd (streamAttemptBody req est i c w)) = q1 /\
    health (snd (streamAttemptBody req est i c w)) = health w.
Proof.
  intros Hres Hst. unfold streamRequest in Hst. unfold streamAttemptBody.
  cbv [bind newUUID Reserve timeNow]. simpl.
  unfold reserveAmount in Hres. rewrite Hres. simpl.
  cbv [emit callProviderStream timeNow bind ret]. simpl.
  rewrite Hst. simpl. eexists. repeat split.
Qed.

(** While a stream is open its estimate stays reserved.  When the
    [Reserve] of the pass succeeds and the provider opens a stream,
    the loop body of [ChatCompletionStream] returns the stream
    without committing or rolling back the reservation it made, and
    records no success yet.  Over the in-memory store the account's
    row is the row [Reserve] saw, that is the stored row put through
    the daily reset when its reset time had passed, with [reserved]
    up by the estimate (by 1 when the unit is requests); an account
    without a row is left as it is.  For a stored row within the
    invariant of the store and a non-negative estimate, the estimate
    was within what that row had left, and [Remaining] answers what it
    had left less the estimate. *)
Theorem open_stream_holds_reservation
    (req : ChatRequest.t) (est : Z) (i : nat) (c : Candidate.t)
    (w w1 : World MemoryQuotaStore.t) (res : Reservation)
    (st : ProviderStream.t) :
  let now := clock w (clockPos w) in
  let a := Candidate.AccountID c in
  let x := reserveAmount est c in
  reserveStep est c w = (inl res, w1) ->
  Provider.ChatCompletionStream (Candidate.Provider c) (providerCalls w)
    (streamRequest req c) = inl st ->
  let w' := snd (streamAttemptBody req est i c w) in
  (exists s, fst (streamAttemptBody req est i c w) = StreamReturn (inl s) /\
             inner s = st /\ candidate s = c /\ closed s = false /\
             reservation s = res /\ Amount res = x /\ AccountID res = a) /\
  MemoryQuotaStore.accounts (quotaStore w')
  = updateRow (quotaStore w) a (fun q0 =>
      let q := MemoryQuotaStore.maybeReset now q0 in
      withCounts q (MemoryQuotaStore.Used q)
                 (Int64.add (MemoryQuotaStore.Reserved q) x)) /\
  (forall q0, MemoryQuotaStore.accounts (quotaStore w) !! a = Some q0 ->
     row_inv q0 -> MemoryQuotaStore.DailyLimit q0 <= Int64.max_int -> 0 <= x ->
     let q := MemoryQuotaStore.maybeReset now q0 in
     x <= left q /\
     forall now', fst (MemoryQuotaStore.Remaining (quotaStore w') now' a) = left q - x) /\
  health w' = health w.
Proof.
  intros now a x Hstep Hst w'.
  pose proof (reserveStep_store _ _ _ _ _ Hstep) as Hres.
  destruct (streamAttemptBody_opens req est i c w _ _ st Hres Hst)
    as (now' & Hbody & Hstore & Hhealth).
  pose proof Hres as Hres0.
  apply Reserve_success_rows in Hres0. destruct Hres0 as [Hr Hrows].
  fold now a x in Hr, Hrows.
  subst w'. rewrite Hstore.
  split; [eexists; split; [exact Hbody|]; rewrite Hr; repeat split|].
  split; [exact Hrows|]. split; [|exact Hhealth].
  intros q0 Hq Hinv Hlim Hx q.
  pose proof (maybeReset_inv now q0 Hinv) as Hinv'.
  pose proof (maybeReset_limit now q0) as Hlim'. fold q in Hinv', Hlim'.
  assert (Hle : x <= left q).
  { cbn [qsReserve MemoryQuotaStore_QuotaStore] in Hres.
    unfold MemoryQuotaStore.Reserve in Hres. fold now a x in Hres.
    rewrite Hq in Hres. cbv zeta in Hres. fold q in Hres.
    rewrite (available_exact q Hinv') in Hres by lia.
    destruct (negb _ && _); [discriminate|].
    unfold left.
    destruct (Z.ltb_spec (MemoryQuotaStore.DailyLimit q - MemoryQuotaStore.Used q
                          - MemoryQuotaStore.Reserved q) x); [discriminate|lia]. }
  split; [exact Hle|]. intros t.
  unfold MemoryQuotaStore.Remaining. rewrite Hrows. unfold updateRow.
  rewrite Hq, lookup_insert_eq. cbv zeta. fold q.
  destruct Hinv' as (Hu & Hrv & Hsum). unfold left in *.
  assert (Hadd : Int64.add (MemoryQuotaStore.Reserved q) x
                 = MemoryQuotaStore.Reserved q + x).
  { apply wrap_in_range.
    unfold Int64.in_range, Int64.min_int, Int64.max_int in *. lia. }
  unfold withCounts. cbn [MemoryQuotaStore.DailyLimit MemoryQuotaStore.Used
                          MemoryQuotaStore.Reserved].
  rewrite Hadd.
  assert (Hav : Int64.sub (Int64.sub (MemoryQuotaStore.DailyLimit q)
                             (MemoryQuotaStore.Used q))
                          (MemoryQuotaStore.Reserved q + x)
                = MemoryQuotaStore.DailyLimit q - MemoryQuotaStore.Used q
                  - (MemoryQuotaStore.Reserved q + x)).
  { unfold Int64.sub. rewrite (wrap_in_range (_ - MemoryQuotaStore.Used q)).
    - apply wrap_in_range.
      unfold Int64.in_range, Int64.min_int, Int64.max_int in *. lia.
    - unfold Int64.in_range, Int64.min_int, Int64.max_int in *. lia. }
  rewrite Hav.
  destruct (Z.ltb_spec (MemoryQuotaStore.DailyLimit q - MemoryQuotaStore.Used q
                        - (MemoryQuotaStore.Reserved q + x)) 0); simpl; lia.
Qed.

Lemma open_stream_holds_reservation_witness :
  fst (MemoryQuotaStore.Remaining (quotaStore Samples.world0) 1000 "acct-4") = 1000 /\
  fst (MemoryQuotaStore.Remaining
         (quotaStore (snd (streamAttemptBody Samples.hello 8 0
                             StreamSamples.streamingCandidate Samples.world0)))
         1000 "acct-4") = 992 /\
  fst (MemoryQuotaStore.Remaining (quotaStore RouterSamples.laterWorld)
         (2 * Time.Day) "acct-4") = 960 /\
  fst (MemoryQuotaStore.Remaining
         (quotaStore (snd (streamAttemptBody Samples.hello 8 0
                             StreamSamples.streamingCandidate RouterSamples.laterWorld)))
         (2 * Time.Day) "acct-4") = 992.
Proof.
  split; [vm_compute; reflexivity|]. split; [|split; [vm_compute; reflexivity|]].
  - destruct (open_stream_holds_reservation Samples.hello 8 0
                StreamSamples.streamingCandidate Samples.world0
                (snd (reserveStep 8 StreamSamples.streamingCandidate Samples.world0))
                {| ID := "uu"; AccountID := "acct-4"; Amount := 8; Unit := QuotaTokens |}
                StreamSamples.brokenInner) as (_ & _ & Hrem & _).
    + apply pair_from_fst. vm_compute. reflexivity.
    + reflexivity.
    + destruct (Hrem {| MemoryQuotaStore.DailyLimit := 1000; MemoryQuotaStore.Used := 0;
                        MemoryQuotaStore.Reserved := 0;
                        MemoryQuotaStore.QUnit := QuotaTokens;
                        MemoryQuotaStore.ResetAt := MemoryQuotaStore.nextMidnightUTC 0 |})
        as [_ Hr].
      * vm_compute. reflexivity.
      * unfold row_inv. simpl. lia.
      * unfold Int64.max_int. simpl. lia.
      * vm_compute. discriminate.
      * rewrite Hr. vm_compute. reflexivity.
  - destruct (open_stream_holds_reservation Samples.hello 8 0
                StreamSamples.streamingCandidate RouterSamples.laterWorld
                (snd (reserveStep 8 StreamSamples.streamingCandidate
                        RouterSamples.laterWorld))
                {| ID := "uu"; AccountID := "acct-4"; Amount := 8; Unit := QuotaTokens |}
                StreamSamples.brokenInner) as (_ & _ & Hrem & _).
    + apply pair_from_fst. vm_compute. reflexivity.
    + reflexivity.
    + destruct (Hrem {| MemoryQuotaStore.DailyLimit := 1000; MemoryQuotaStore.Used := 40;
                        MemoryQuotaStore.Reserved := 0;
                        MemoryQuotaStore.QUnit := QuotaTokens;
                        MemoryQuotaStore.ResetAt := MemoryQuotaStore.nextMidnightUTC 0 |})
        as [_ Hr].
      * vm_compute. reflexivity.
      * unfold row_inv. simpl. lia.
      * unfold Int64.max_int. simpl. lia.
      * vm_compute. discriminate.
      * rewrite Hr. vm_compute. reflexivity.
Defined.

End StreamOpenMemory.

(** ** The configuration: validation and cost normalisation *)

Section ConfigMore.
Import Errors Quota ConfigCheck ConfigSpec.

Lemma Prim2SF_zero : Prim2SF 0%float = S754_zero false.
Proof. reflexivity. Qed.

Lemma ltb_zero_pos x :
  Float64.ltb 0%float x = true ->
  PrimFloat.eqb x 0%float = false /\ Float64.ltb x 0%float = false.
Proof.
  unfold Float64.ltb. rewrite !FloatAxioms.ltb_spec, FloatAxioms.eqb_spec, Prim2SF_zero.
  unfold SFltb, SFeqb.
  destruct (Prim2SF x) as [s|s| |s m e]; try destruct s; simpl;
    intros; try discriminate; split; reflexivity.
Qed.

Lemma eqb_zero_not_less x :
  PrimFloat.eqb x 0%float = true -> Float64.ltb x 0%float = false.
Proof.
  unfold Float64.ltb. rewrite FloatAxioms.ltb_spec, FloatAxioms.eqb_spec, Prim2SF_zero.
  unfold SFltb, SFeqb.
  destruct (Prim2SF x) as [s|s| |s m e]; try destruct s; simpl;
    intros; try discriminate; reflexivity.
Qed.

(** A pass through the loop body accepts an account exactly when it
    meets the requirements and its id was not seen before; it then
    records the id. *)
Lemma checkAccount_accepts ids i acc ids' :
  checkAccount ids i acc = inr ids' <->
  accountOK acc /\ default false (ids !! AccountConfig.ID acc) = false /\
  ids' = <[AccountConfig.ID acc := true]> ids.
Proof.
  unfold checkAccount, accountOK.
  destruct (String.eqb_spec (AccountConfig.Provider acc) "") as [Hp|Hp];
    [split; [discriminate|intros ((Hx & _) & _); contradiction]|].
  destruct (String.eqb_spec (AccountConfig.ID acc) "") as [Hi|Hi];
    [split; [discriminate|intros ((_ & Hx & _) & _); contradiction]|].
  destruct (default false (ids !! AccountConfig.ID acc)) eqn:Hseen;
    [split; [discriminate|intros (_ & Hx & _); discriminate]|].
  cbv zeta.
  destruct (String.eqb_spec (AccountConfig.QuotaUnit acc) "") as [Hu|Hu].
  { split; [discriminate|]. intros ((_ & _ & [Hx|[Hx|Hx]] & _) & _);
      rewrite Hx in Hu; discriminate. }
  destruct (String.eqb_spec (AccountConfig.QuotaUnit acc) QuotaTokens) as [Ht|Ht];
  destruct (String.eqb_spec (AccountConfig.QuotaUnit acc) QuotaRequests) as [Hr|Hr];
  destruct (String.eqb_spec (AccountConfig.QuotaUnit acc) QuotaDollars) as [Hd|Hd];
    cbn [negb andb];
    try (split; [discriminate|]; intros ((_ & _ & [Hx|[Hx|Hx]] & _) & _); contradiction);
    (destruct (Z.ltb_spec (AccountConfig.DailyFree acc) 0) as [Hf|Hf];
     [split; [discriminate|intros ((_ & _ & _ & Hx & _) & _); lia]|]);
    (destruct (Float64.ltb (AccountConfig.MaxDailySpend acc) 0%float) eqn:Hm;
     [split; [discriminate|intros ((_ & _ & _ & _ & Hx & _) & _); discriminate]|]);
    (destruct (Float64.ltb (AccountConfig.CostPerToken acc) 0%float) eqn:Hc;
     [split; [discriminate|intros ((_ & _ & _ & _ & _ & Hx & _) & _); discriminate]|]);
    (destruct (Float64.ltb (AccountConfig.CostPerInputToken acc) 0%float) eqn:Hci;
     [split; [discriminate|intros ((_ & _ & _ & _ & _ & _ & Hx & _) & _); discriminate]|]);
    (destruct (Float64.ltb (AccountConfig.CostPerOutputToken acc) 0%float) eqn:Hco;
     [split; [discriminate
             |intros ((_ & _ & _ & _ & _ & _ & _ & Hx & _) & _); discriminate]|]);
    (destruct (AccountConfig.PaidEnabled acc) eqn:Hpaid; cbn [andb];
     [destruct (Float64.ltb 0%float (AccountConfig.CostPerToken acc)) eqn:H1;
      [|destruct (Float64.ltb 0%float (AccountConfig.CostPerInputToken acc)) eqn:H2;
        [|destruct (Float64.ltb 0%float (AccountConfig.CostPerOutputToken acc)) eqn:H3]]|];
     cbn [orb negb];
     try (split; [discriminate|];
          intros ((_ & _ & _ & _ & _ & _ & _ & _ & Hx) & _);
          destruct (Hx eq_refl) as [Hy|[Hy|Hy]]; discriminate);
     (split;
      [intros [= <-]; repeat split; auto; try lia; try discriminate
      |intros (_ & _ & ->); reflexivity])).
Qed.

Lemma checkAccounts_accepts accounts : forall ids i,
  checkAccounts ids i accounts = None <->
  Forall accountOK accounts /\
  NoDup (map AccountConfig.ID accounts) /\
  Forall (fun acc => default false (ids !! AccountConfig.ID acc) = false) accounts.
Proof.
  induction accounts as [|acc rest IH]; intros ids i.
  - simpl. split; [intros _; repeat split; constructor|reflexivity].
  - cbn [checkAccounts map].
    destruct (checkAccount ids i acc) as [err|ids'] eqn:Hc.
    + split; [discriminate|].
      intros (Hok & Hnd & Hfresh).
      apply Forall_cons in Hok as [Hok _]. apply Forall_cons in Hfresh as [Hfresh _].
      assert (Hacc : checkAccount ids i acc = inr (<[AccountConfig.ID acc := true]> ids))
        by (apply checkAccount_accepts; auto).
      congruence.
    + apply checkAccount_accepts in Hc as (Hok & Hfresh & ->).
      rewrite IH. split.
      * intros (Hoks & Hnd & Hfr). split; [constructor; assumption|]. split.
        -- apply NoDup_cons. split; [|exact Hnd]. intros Hin.
           apply list_elem_of_In, in_map_iff in Hin as (acc' & Hid & Hin).
           rewrite Forall_forall in Hfr. specialize (Hfr acc').
           rewrite list_elem_of_In in Hfr. specialize (Hfr Hin).
           rewrite Hid, lookup_insert_eq in Hfr. discriminate.
        -- constructor; [exact Hfresh|].
           rewrite Forall_forall in Hfr |- *. intros acc' Hin. specialize (Hfr acc' Hin).
           destruct (decide (AccountConfig.ID acc = AccountConfig.ID acc')) as [He|Hne].
           ++ rewrite <- He, lookup_insert_eq in Hfr. discriminate.
           ++ rewrite lookup_insert_ne in Hfr by assumption. exact Hfr.
      * intros (Hoks & Hnd & Hfr).
        apply Forall_cons in Hoks as [_ Hoks]. apply Forall_cons in Hfr as [_ Hfr].
        apply NoDup_cons in Hnd as [Hnotin Hnd].
        split; [exact Hoks|]. split; [exact Hnd|].
        rewrite Forall_forall in Hfr |- *. intros acc' Hin. specialize (Hfr acc' Hin).
        rewrite lookup_insert_ne; [exact Hfr|].
        intros He. apply Hnotin. rewrite He.
        apply list_elem_of_In in Hin. apply list_elem_of_In.
        apply in_map. exact Hin.
Qed.

Lemma checkModels_accepts models : forall i,
  checkModels i models = None <-> Forall mappingOK models.
Proof.
  induction models as [|m rest IH]; intros i.
  - simpl. split; [constructor|reflexivity].
  - cbn [checkModels]. unfold mappingOK at 1.
    destruct (String.eqb_spec (ModelMapping.Alias m) "") as [Ha|Ha].
    { split; [discriminate|]. intros Hall. apply Forall_cons in Hall as [[Hx _] _].
      contradiction. }
    destruct (ModelMapping.Models m) as [|ref refs] eqn:Hm; simpl.
    { split; [discriminate|]. intros Hall. apply Forall_cons in Hall as [[_ Hx] _].
      unfold mappingOK in Hx. contradiction. }
    rewrite IH. split.
    + intros Hall. constructor; [|exact Hall]. unfold mappingOK. rewrite Hm.
      split; [exact Ha|discriminate].
    + intros Hall. apply Forall_cons in Hall as [_ Hall]. exact Hall.
Qed.

(** [Validate] returns nil exactly for the configurations with at
    least one account, in which every account names a provider, an id
    and one of the three quota units, has no negative allowance,
    spend ceiling or cost and, if paid use is enabled, some positive
    cost, in which no two accounts share an id, and in which every
    model mapping has an alias and at least one model. *)
Theorem Validate_accepts_exactly_valid (c : Config.t) :
  Validate c = None <-> valid c.
Proof.
  unfold Validate, valid.
  destruct (Config.Accounts c) as [|acc rest] eqn:Hacc.
  - simpl. split; [discriminate|]. intros (Hne & _). contradiction.
  - cbn [length Nat.eqb].
    pose proof (checkAccounts_accepts (acc :: rest) ∅ 0) as Haccs.
    destruct (checkAccounts ∅ 0 (acc :: rest)) as [err|].
    + split; [discriminate|]. intros (_ & Hok & Hnd & _).
      destruct Haccs as [_ Haccs].
      assert (Hbad : Some err = None); [|discriminate].
      apply Haccs. split; [exact Hok|]. split; [exact Hnd|].
      apply Forall_forall. intros a _. rewrite lookup_empty. reflexivity.
    + destruct Haccs as [Haccs _]. destruct (Haccs eq_refl) as (Hok & Hnd & _).
      rewrite checkModels_accepts. split.
      * intros Hm. split; [discriminate|]. auto.
      * intros (_ & _ & _ & Hm). exact Hm.
Qed.

Lemma normalizeAccount_idem acc :
  normalizeAccount (normalizeAccount acc) = normalizeAccount acc.
Proof.
  unfold normalizeAccount at 2 3.
  destruct (Float64.ltb 0%float (AccountConfig.CostPerToken acc)) eqn:Hp; simpl.
  - destruct (PrimFloat.eqb (AccountConfig.CostPerInputToken acc) 0%float
              && PrimFloat.eqb (AccountConfig.CostPerOutputToken acc) 0%float) eqn:Hz.
    + unfold normalizeAccount. simpl. rewrite Hp.
      destruct (ltb_zero_pos _ Hp) as [-> _]. reflexivity.
    + unfold normalizeAccount. rewrite Hp. simpl. rewrite Hz. reflexivity.
  - unfold normalizeAccount. rewrite Hp. reflexivity.
Qed.

Lemma checkAccount_normalize ids i acc :
  checkAccount ids i (normalizeAccount acc) = checkAccount ids i acc.
Proof.
  unfold normalizeAccount.
  destruct (Float64.ltb 0%float (AccountConfig.CostPerToken acc)) eqn:Hp; [|reflexivity].
  destruct (PrimFloat.eqb (AccountConfig.CostPerInputToken acc) 0%float) eqn:Hi;
    [|reflexivity].
  destruct (PrimFloat.eqb (AccountConfig.CostPerOutputToken acc) 0%float) eqn:Ho;
    [|reflexivity].
  cbn [andb]. unfold checkAccount. cbn [AccountConfig.Provider AccountConfig.ID
    AccountConfig.QuotaUnit AccountConfig.DailyFree AccountConfig.MaxDailySpend
    AccountConfig.CostPerToken AccountConfig.CostPerInputToken
    AccountConfig.CostPerOutputToken AccountConfig.PaidEnabled].
  destruct (ltb_zero_pos _ Hp) as [_ Hneg].
  rewrite Hneg, (eqb_zero_not_less _ Hi), (eqb_zero_not_less _ Ho), Hp.
  reflexivity.
Qed.

Lemma checkAccounts_normalize accounts : forall ids i,
  checkAccounts ids i (map normalizeAccount accounts) = checkAccounts ids i accounts.
Proof.
  induction accounts as [|acc rest IH]; intros ids i; [reflexivity|].
  cbn [map checkAccounts]. rewrite checkAccount_normalize.
  destruct (checkAccount ids i acc); [reflexivity|apply IH].
Qed.

(** [NormalizeCosts] is idempotent and does not change what
    [Validate] returns: it fills the input and output cost of an
    account from a positive [CostPerToken] only where both are zero,
    and leaves every other account and every other field as they
    are. *)
Theorem NormalizeCosts_idempotent_and_valid (c : Config.t) :
  NormalizeCosts (NormalizeCosts c) = NormalizeCosts c /\
  Validate (NormalizeCosts c) = Validate c /\
  map AccountConfig.ID (Config.Accounts (NormalizeCosts c))
  = map AccountConfig.ID (Config.Accounts c) /\
  Forall (fun acc =>
            Float64.ltb 0%float (AccountConfig.CostPerToken acc) = true ->
            PrimFloat.eqb (AccountConfig.CostPerInputToken acc) 0%float
            && PrimFloat.eqb (AccountConfig.CostPerOutputToken acc) 0%float = false)
         (Config.Accounts (NormalizeCosts c)).
Proof.
  split; [|split; [|split]].
  - unfold NormalizeCosts. simpl. f_equal. rewrite map_map.
    apply map_ext. intros acc. apply normalizeAccount_idem.
  - unfold Validate, NormalizeCosts. simpl.
    rewrite length_map, checkAccounts_normalize. reflexivity.
  - unfold NormalizeCosts. simpl. rewrite map_map. apply map_ext.
    intros acc. unfold normalizeAccount.
    destruct (_ && _ && _); reflexivity.
  - unfold NormalizeCosts. simpl. apply Forall_forall. intros acc' Hin.
    apply list_elem_of_In, in_map_iff in Hin as (acc & <- & _).
    unfold normalizeAccount.
    destruct (Float64.ltb 0%float (AccountConfig.CostPerToken acc)) eqn:Hp; simpl.
    + destruct (PrimFloat.eqb (AccountConfig.CostPerInputToken acc) 0%float
                && PrimFloat.eqb (AccountConfig.CostPerOutputToken acc) 0%float) eqn:Hz.
      * simpl. intros _. destruct (ltb_zero_pos _ Hp) as [-> _]. reflexivity.
      * intros _. exact Hz.
    + rewrite Hp. discriminate.
Qed.

End ConfigMore.

(** ** The token estimate *)

Section EstimateMore.
Import EstimateSpec RouterSpec.

Lemma estimate_fold messages : forall total,
  Int64.wrap
    (fold_left
       (fun total m =>
          Int64.add (Int64.add total (Z.of_nat (String.length (Message.Content m)) / 4)) 4)
       messages total)
  = Int64.wrap (total + 4 * Z.of_nat (length messages) + contentTokens messages).
Proof.
  induction messages as [|m rest IH]; intros total.
  - simpl. f_equal. lia.
  - cbn [fold_left]. rewrite IH. unfold Int64.add.
    repeat (rewrite <- !Z.add_assoc; rewrite wrap_wrap_add).
    f_equal. cbn [length contentTokens]. lia.
Qed.

(** [EstimateTokens] is 3 plus, for every message, 4 and a quarter of
    the length in bytes of its content, rounded down, in 64-bit
    arithmetic; the role is not counted.  While that sum fits an
    int64 the estimate is exactly the sum, so it is at least 3, and
    the amount the router reserves for a candidate is at least 1. *)
Theorem EstimateTokens_closed_form (messages : list Message.t) :
  let sum := 3 + 4 * Z.of_nat (length messages) + contentTokens messages in
  EstimateTokens messages = Int64.wrap sum /\
  (sum <= Int64.max_int ->
   EstimateTokens messages = sum /\ 3 <= EstimateTokens messages /\
   forall c, 1 <= reserveAmount (EstimateTokens messages) c).
Proof.
  cbv zeta.
  assert (Hwrap : EstimateTokens messages
                  = Int64.wrap (3 + 4 * Z.of_nat (length messages)
                                + contentTokens messages)).
  { unfold EstimateTokens, Int64.add. rewrite <- wrap_wrap_add, estimate_fold.
    rewrite wrap_wrap_add. f_equal. lia. }
  split; [exact Hwrap|]. intros Hfit.
  assert (Hpos : 0 <= contentTokens messages).
  { clear. induction messages as [|m rest IH]; simpl; [lia|].
    pose proof (Z.div_pos (Z.of_nat (String.length (Message.Content m))) 4). lia. }
  assert (Hexact : EstimateTokens messages
                   = 3 + 4 * Z.of_nat (length messages) + contentTokens messages).
  { rewrite Hwrap. apply wrap_in_range.
    unfold Int64.in_range, Int64.min_int, Int64.max_int in *. lia. }
  split; [exact Hexact|]. split; [lia|].
  intros c. unfold reserveAmount. destruct (String.eqb _ _); lia.
Qed.

End EstimateMore.

(** ** Provider errors *)

Section ProviderErrors.
Import Errors ProviderHTTP.

(** How the adapters turn an HTTP status into an error: none for the
    statuses 200 to 299; for every other status an error that the
    router classifies as fatal or as retryable, never as both or as
    neither.  Fatal, so that no other candidate is tried, are exactly
    400, 401 and 403; 429 is [ErrRateLimited] and every other status
    [ErrProviderUnavailable], both retried on the next candidate. *)
Theorem mapHTTPError_classification (statusCode : Z) (body : string) :
  (mapHTTPError statusCode body = None <-> 200 <= statusCode < 300) /\
  forall err, mapHTTPError statusCode body = Some err ->
    (IsFatal err = true <-> statusCode = 400 \/ statusCode = 401 \/ statusCode = 403) /\
    IsRetryable err = negb (IsFatal err) /\
    (Is err ErrRateLimited = true <-> statusCode = 429) /\
    (Is err ErrProviderUnavailable = true <->
     statusCode <> 400 /\ statusCode <> 401 /\ statusCode <> 403 /\ statusCode <> 429).
Proof.
  unfold mapHTTPError.
  destruct ((200 <=? statusCode) && (statusCode <? 300)) eqn:Hok.
  - apply andb_true_iff in Hok as [H1 H2]. apply Z.leb_le in H1. apply Z.ltb_lt in H2.
    split; [split; [intros _; lia|reflexivity]|discriminate].
  - assert (Hout : ~ (200 <= statusCode < 300)).
    { intros [H1 H2]. apply Z.leb_le in H1. apply Z.ltb_lt in H2.
      rewrite H1, H2 in Hok. discriminate. }
    cbv zeta.
    destruct (Z.eqb_spec statusCode 429) as [H429|H429];
      [|destruct (Z.eqb_spec statusCode 401) as [H401|H401];
        [|destruct (Z.eqb_spec statusCode 403) as [H403|H403];
          [|destruct (Z.eqb_spec statusCode 400) as [H400|H400]]]];
      cbn [orb];
      (split; [split; [discriminate|intros; contradiction]|]);
      intros err [= <-]; unfold IsFatal, IsRetryable;
      cbn [Is sentinel_eqb orb negb];
      (split; [split; intros; try discriminate; try reflexivity; lia|]);
      (split; [reflexivity|]);
      (split; [split; intros; try discriminate; try reflexivity; lia|]);
      split; intros; try discriminate; try reflexivity; lia.
Qed.

End ProviderErrors.

(** ** Setting up a router *)

Section SetupMore.
Import Errors Quota Router RouterSetup TraceSpec.

Lemma provMap_snoc (ps : list Provider.t) (p : Provider.t) :
  provMap (ps ++ [p]) = <[Provider.Name p := p]> (provMap ps).
Proof. unfold provMap. rewrite fold_left_app. reflexivity. Qed.

(** [NewRouter] fails exactly when it is given no provider.
    Otherwise the router knows a provider under each registered name,
    and under a name registered more than once the last provider of
    the list with that name. *)
Theorem NewRouter_registers_providers {Q : Type} `{QuotaStore Q}
    (cfg : Config.t) (providers : list Provider.t) (policy : option Policy)
    (init : option (QuotaInitializer Q)) (w : World Q) :
  match fst (NewRouter cfg providers policy init w) with
  | inr _ => providers = []
  | inl r =>
      providers <> [] /\
      forall name,
        Router.providers r !! name
        = last (List.filter (fun p => String.eqb (Provider.Name p) name) providers)
  end.
Proof.
  unfold NewRouter. destruct providers as [|p0 ps]; [reflexivity|].
  cbn [length Nat.eqb]. unfold bind, ret.
  assert (Hmap : forall name,
            provMap (p0 :: ps) !! name
            = last (List.filter (fun p => String.eqb (Provider.Name p) name) (p0 :: ps))).
  2: { destruct init as [i|];
         [destruct (initQuotas i (Config.Accounts cfg) w) as [u w1]|];
         cbn [fst]; (split; [discriminate|exact Hmap]). }
  intros name.
  generalize (p0 :: ps) as l. intros l.
  induction l as [|p l IH] using rev_ind; [reflexivity|].
  rewrite provMap_snoc, List.filter_app. cbn [List.filter].
  destruct (String.eqb_spec (Provider.Name p) name) as [->|Hne].
  - rewrite lookup_insert_eq, last_snoc. reflexivity.
  - rewrite lookup_insert_ne by assumption. rewrite app_nil_r. exact IH.
Qed.

Lemma initQuotas_rows (accounts : list AccountConfig.t) :
  forall w : World MemoryQuotaStore.t,
  NoDup (map AccountConfig.ID accounts) ->
  let w' := snd (initQuotas MemoryQuotaStore_QuotaInitializer accounts w) in
  (forall acc, In acc accounts ->
     if limited acc
     then exists now,
            MemoryQuotaStore.accounts (quotaStore w') !! AccountConfig.ID acc
            = Some {| MemoryQuotaStore.DailyLimit := AccountConfig.DailyFree acc;
                      MemoryQuotaStore.Used := 0; MemoryQuotaStore.Reserved := 0;
                      MemoryQuotaStore.QUnit := AccountConfig.QuotaUnit acc;
                      MemoryQuotaStore.ResetAt := MemoryQuotaStore.nextMidnightUTC now |}
     else MemoryQuotaStore.accounts (quotaStore w') !! AccountConfig.ID acc
          = MemoryQuotaStore.accounts (quotaStore w) !! AccountConfig.ID acc) /\
  (forall a, ~ In a (map AccountConfig.ID accounts) ->
     MemoryQuotaStore.accounts (quotaStore w') !! a
     = MemoryQuotaStore.accounts (quotaStore w) !! a) /\
  MemoryQuotaStore.seen (quotaStore w') = MemoryQuotaStore.seen (quotaStore w) /\
  sameTrace w w' /\ health w' = health w.
Proof.
  induction accounts as [|acc rest IH]; intros w Hnd; cbv zeta.
  - simpl. repeat split. intros acc [].
  - cbn [map] in Hnd. apply NoDup_cons in Hnd as [Hnotin Hnd].
    rewrite list_elem_of_In in Hnotin.
    cbn [initQuotas]. fold (limited acc).
    set (step := if limited acc then _ else _).
    replace (bind step (fun _ => initQuotas MemoryQuotaStore_QuotaInitializer rest) w)
      with (initQuotas MemoryQuotaStore_QuotaInitializer rest (snd (step w)))
      by (unfold bind; destruct (step w); reflexivity).
    destruct (step w) as [u w1] eqn:Hstep. cbn [snd].
    assert (Hw1 :
      (if limited acc
       then exists now,
              MemoryQuotaStore.accounts (quotaStore w1)
              = <[AccountConfig.ID acc :=
                    {| MemoryQuotaStore.DailyLimit := AccountConfig.DailyFree acc;
                       MemoryQuotaStore.Used := 0; MemoryQuotaStore.Reserved := 0;
                       MemoryQuotaStore.QUnit := AccountConfig.QuotaUnit acc;
                       MemoryQuotaStore.ResetAt := MemoryQuotaStore.nextMidnightUTC now |}]>
                  (MemoryQuotaStore.accounts (quotaStore w))
       else MemoryQuotaStore.accounts (quotaStore w1)
            = MemoryQuotaStore.accounts (quotaStore w)) /\
      MemoryQuotaStore.seen (quotaStore w1) = MemoryQuotaStore.seen (quotaStore w) /\
      sameTrace w w1 /\ health w1 = health w).
    { subst step. destruct (limited acc).
      - cbv [bind timeNow] in Hstep. simpl in Hstep. injection Hstep as _ <-. simpl.
        split; [eexists; reflexivity|]. repeat split.
      - unfold ret in Hstep. injection Hstep as _ <-. repeat split. }
    clear Hstep. destruct Hw1 as (Hrow & Hseen & Htrace & Hhealth).
    specialize (IH w1 Hnd). cbv zeta in IH.
    destruct IH as (IHin & IHout & IHseen & IHtrace & IHhealth).
    split; [|split; [|split; [congruence|split; [|congruence]]]].
    + intros acc' [<-|Hin].
      * rewrite (IHout _ Hnotin).
        destruct (limited acc); [|rewrite Hrow; reflexivity].
        destruct Hrow as [now Hrow]. exists now. rewrite Hrow. apply lookup_insert_eq.
      * specialize (IHin acc' Hin).
        destruct (limited acc'); [exact IHin|]. rewrite IHin.
        assert (Hne : AccountConfig.ID acc <> AccountConfig.ID acc').
        { intros He. apply Hnotin. rewrite He. apply in_map. exact Hin. }
        destruct (limited acc); [|rewrite Hrow; reflexivity].
        destruct Hrow as [now Hrow]. rewrite Hrow. apply lookup_insert_ne. exact Hne.
    + intros a Ha. cbn [map] in Ha.
      rewrite IHout by (intros Hin; apply Ha; right; exact Hin).
      destruct (limited acc); [|rewrite Hrow; reflexivity].
      destruct Hrow as [now Hrow]. rewrite Hrow. apply lookup_insert_ne.
      intros He. apply Ha. left. exact He.
    + eapply sameTrace_trans; eassumption.
Qed.

(** Over the in-memory store [NewRouter] gives a quota row, with the
    daily free allowance as the limit and nothing used or reserved, to
    every account that has an allowance or is not enabled for paid
    use, and to no other: an account enabled for paid use without an
    allowance stays without a row, which the store treats as
    unlimited, while an account with neither gets a limit of 0.  Rows
    of other accounts and the idempotency ledger are left alone. *)
Theorem NewRouter_initialises_quota
    (cfg : Config.t) (providers : list Provider.t) (policy : option Policy)
    (w : World MemoryQuotaStore.t) :
  providers <> [] ->
  NoDup (map AccountConfig.ID (Config.Accounts cfg)) ->
  let w' := snd (NewRouter cfg providers policy
                   (Some MemoryQuotaStore_QuotaInitializer) w) in
  (forall acc, In acc (Config.Accounts cfg) ->
     if limited acc
     then exists now,
            MemoryQuotaStore.accounts (quotaStore w') !! AccountConfig.ID acc
            = Some {| MemoryQuotaStore.DailyLimit := AccountConfig.DailyFree acc;
                      MemoryQuotaStore.Used := 0; MemoryQuotaStore.Reserved := 0;
                      MemoryQuotaStore.QUnit := AccountConfig.QuotaUnit acc;
                      MemoryQuotaStore.ResetAt := MemoryQuotaStore.nextMidnightUTC now |}
     else MemoryQuotaStore.accounts (quotaStore w') !! AccountConfig.ID acc
          = MemoryQuotaStore.accounts (quotaStore w) !! AccountConfig.ID acc) /\
  (forall a, ~ In a (map AccountConfig.ID (Config.Accounts cfg)) ->
     MemoryQuotaStore.accounts (quotaStore w') !! a
     = MemoryQuotaStore.accounts (quotaStore w) !! a) /\
  MemoryQuotaStore.seen (quotaStore w') = MemoryQuotaStore.seen (quotaStore w).
Proof.
  intros Hne Hnd w'. subst w'. unfold NewRouter.
  destruct providers as [|p0 ps]; [contradiction|]. cbn [length Nat.eqb].
  match goal with |- context [snd (bind ?m ?k w)] =>
    replace (snd (bind m k w)) with (snd (m w))
      by (unfold bind, ret; destruct (m w); reflexivity) end.
  pose proof (initQuotas_rows (Config.Accounts cfg) w Hnd) as Hrows. cbv zeta in Hrows.
  destruct Hrows as (Hin & Hout & Hseen & _). auto.
Qed.

Lemma NewRouter_initialises_quota_witness :
  let w' := snd (NewRouter RouterSamples.mixedConfig [Samples.good] None
                   (Some MemoryQuotaStore_QuotaInitializer) RouterSamples.emptyWorld) in
  MemoryQuotaStore.accounts (quotaStore w') !! "paid-1" = None /\
  fst (MemoryQuotaStore.Remaining (quotaStore w') 2000 "idle-1") = 0 /\
  fst (MemoryQuotaStore.Remaining (quotaStore w') 2000 "free-1") = 1000.
Proof.
  destruct (NewRouter_initialises_quota RouterSamples.mixedConfig [Samples.good] None
              RouterSamples.emptyWorld) as (Hin & _ & _).
  - discriminate.
  - apply (bool_decide_unpack _). vm_compute. reflexivity.
  - pose proof (Hin RouterSamples.paidAccount (or_intror (or_introl eq_refl))) as Hp.
    pose proof (Hin RouterSamples.idleAccount
                  (or_intror (or_intror (or_introl eq_refl)))) as Hi.
    pose proof (Hin RouterSamples.freeAccount (or_introl eq_refl)) as Hf.
    change (limited RouterSamples.paidAccount) with false in Hp.
    change (limited RouterSamples.idleAccount) with true in Hi.
    change (limited RouterSamples.freeAccount) with true in Hf.
    cbv iota in Hp, Hi, Hf.
    change (AccountConfig.ID RouterSamples.paidAccount) with "paid-1" in Hp.
    change (AccountConfig.ID RouterSamples.idleAccount) with "idle-1" in Hi.
    change (AccountConfig.ID RouterSamples.freeAccount) with "free-1" in Hf.
    destruct Hi as [now1 Hi]. destruct Hf as [now2 Hf].
    cbv zeta. unfold MemoryQuotaStore.Remaining. rewrite Hp, Hi, Hf.
    split; [vm_compute; reflexivity|]. split; reflexivity.
Defined.

End SetupMore.

(** ** The bech32 encoding of addresses *)

Section Bech32More.
Import Errors Gonka Bech32Spec.

Lemma land_lxor_distr a b c :
  Z.land (Z.lxor a b) c = Z.lxor (Z.land a c) (Z.land b c).
Proof.
  Z.bitwise. destruct (Z.testbit a m), (Z.testbit b m), (Z.testbit c m); reflexivity.
Qed.

Lemma lxor_bound k a b :
  0 <= k -> 0 <= a < 2 ^ k -> 0 <= b < 2 ^ k -> 0 <= Z.lxor a b < 2 ^ k.
Proof.
  intros Hk Ha Hb.
  assert (Hnn : 0 <= Z.lxor a b) by (apply Z.lxor_nonneg; lia).
  split; [exact Hnn|].
  assert (Hmod : Z.lxor a b = Z.lxor a b mod 2 ^ k).
  { rewrite <- Z.land_ones, land_lxor_distr, !Z.land_ones by assumption.
    rewrite !Z.mod_small by assumption. reflexivity. }
  rewrite Hmod. apply Z.mod_pos_bound. apply Z.pow_pos_nonneg; lia.
Qed.

Lemma shiftl5_bound k a :
  0 <= k -> 0 <= a < 2 ^ k -> 0 <= Z.shiftl a 5 < 2 ^ (k + 5).
Proof.
  intros Hk Ha. rewrite Z.shiftl_mul_pow2, Z.pow_add_r by lia.
  change (2 ^ 5) with 32. lia.
Qed.

Lemma gen_bound i : 0 <= nth i gen 0 < 2 ^ 30.
Proof.
  do 5 (destruct i as [|i]; [simpl; lia|]). destruct i; simpl; lia.
Qed.

(** The generators selected by the bits of [b]. *)
Lemma gen_fold b (l : list nat) : forall chk,
  fold_left
    (fun chk i =>
       if Z.land (Z.shiftr b (Z.of_nat i)) 1 =? 1
       then Z.lxor chk (nth i gen 0) else chk) l chk
  = Z.lxor chk
      (fold_left
         (fun chk i =>
            if Z.land (Z.shiftr b (Z.of_nat i)) 1 =? 1
            then Z.lxor chk (nth i gen 0) else chk) l 0).
Proof.
  induction l as [|i l IH]; intros chk.
  - simpl. rewrite Z.lxor_0_r. reflexivity.
  - cbn [fold_left]. destruct (Z.land (Z.shiftr b (Z.of_nat i)) 1 =? 1).
    + rewrite IH, (IH (Z.lxor 0 (nth i gen 0))), Z.lxor_0_l, Z.lxor_assoc.
      reflexivity.
    + apply IH.
Qed.

Lemma gen_fold_bound b (l : list nat) : forall chk,
  0 <= chk < 2 ^ 30 ->
  0 <= fold_left
         (fun chk i =>
            if Z.land (Z.shiftr b (Z.of_nat i)) 1 =? 1
            then Z.lxor chk (nth i gen 0) else chk) l chk < 2 ^ 30.
Proof.
  induction l as [|i l IH]; intros chk Hchk; [exact Hchk|].
  cbn [fold_left]. apply IH.
  destruct (Z.land (Z.shiftr b (Z.of_nat i)) 1 =? 1); [|exact Hchk].
  apply lxor_bound; [lia|exact Hchk|apply gen_bound].
Qed.

Lemma low25_bound c : 0 <= Z.land c (Z.ones 25) < 2 ^ 25.
Proof.
  rewrite Z.land_ones by lia. apply Z.mod_pos_bound. lia.
Qed.

(** The loop body without the 32-bit wrap-around, which never
    happens: the shifted part has at most 30 bits. *)
Lemma polymodStep_eq c v :
  polymodStep c v
  = Z.lxor (Z.lxor (Z.shiftl (Z.land c (Z.ones 25)) 5) v)
      (fold_left
         (fun chk i =>
            if Z.land (Z.shiftr (Z.shiftr c 25) (Z.of_nat i)) 1 =? 1
            then Z.lxor chk (nth i gen 0) else chk) (seq 0 5) 0).
Proof.
  unfold polymodStep. cbv zeta. rewrite gen_fold. f_equal. f_equal.
  unfold UInt32.shl, UInt32.wrap. change 0x1ffffff with (Z.ones 25).
  apply Z.mod_small.
  pose proof (shiftl5_bound 25 _ ltac:(lia) (low25_bound c)) as Hb.
  change (2 ^ (25 + 5)) with (2 ^ 30) in Hb. lia.
Qed.

Lemma polymodStep_bound c v :
  0 <= v < 2 ^ 30 -> 0 <= polymodStep c v < 2 ^ 30.
Proof.
  intros Hv. rewrite polymodStep_eq.
  apply lxor_bound; [lia| |apply gen_fold_bound; lia].
  apply lxor_bound; [lia| |exact Hv].
  exact (shiftl5_bound 25 _ ltac:(lia) (low25_bound c)).
Qed.

Lemma polymod_fold_bound values : forall chk,
  0 <= chk < 2 ^ 30 -> Forall (fun v => 0 <= v < 2 ^ 30) values ->
  0 <= fold_left polymodStep values chk < 2 ^ 30.
Proof.
  induction values as [|v rest IH]; intros chk Hchk Hall; [exact Hchk|].
  apply Forall_cons in Hall as [Hv Hall]. cbn [fold_left].
  apply IH; [apply polymodStep_bound; exact Hv|exact Hall].
Qed.

(** A value of fewer than 25 bits xor-ed onto the state comes out of
    the step shifted by five bits, and does not change which
    generators are selected. *)
Lemma polymodStep_shift k c d s :
  0 <= k <= 25 -> 0 <= d < 2 ^ k -> 0 <= s < 32 ->
  polymodStep (Z.lxor c d) s = Z.lxor (polymodStep c 0) (Z.lxor (Z.shiftl d 5) s) /\
  0 <= Z.lxor (Z.shiftl d 5) s < 2 ^ (k + 5).
Proof.
  intros Hk Hd Hs.
  assert (Hd25 : 0 <= d < 2 ^ 25).
  { split; [lia|]. apply Z.lt_le_trans with (2 ^ k); [lia|].
    apply Z.pow_le_mono_r; lia. }
  split.
  - rewrite !polymodStep_eq.
    rewrite Z.shiftr_lxor, (Z.shiftr_div_pow2 d 25), (Z.div_small d) by lia.
    rewrite Z.lxor_0_r, land_lxor_distr, (Z.land_ones d), (Z.mod_small d) by lia.
    rewrite Z.shiftl_lxor.
    set (A := Z.shiftl (Z.land c (Z.ones 25)) 5).
    set (D := Z.shiftl d 5).
    set (G := fold_left _ _ 0).
    Z.bitwise.
    destruct (Z.testbit A m), (Z.testbit D m), (Z.testbit s m), (Z.testbit G m);
      reflexivity.
  - apply lxor_bound; [lia|apply shiftl5_bound; lia|].
    split; [lia|]. apply Z.lt_le_trans with (2 ^ 5); [simpl; lia|].
    apply Z.pow_le_mono_r; lia.
Qed.

(** Six checksum groups appended to the values change the polymod of
    the values followed by six zeros by exactly the groups, packed. *)
Lemma polymod_six c s0 s1 s2 s3 s4 s5 :
  0 <= s0 < 32 -> 0 <= s1 < 32 -> 0 <= s2 < 32 ->
  0 <= s3 < 32 -> 0 <= s4 < 32 -> 0 <= s5 < 32 ->
  fold_left polymodStep [s0; s1; s2; s3; s4; s5] c
  = Z.lxor (fold_left polymodStep [0; 0; 0; 0; 0; 0] c) (pack [s0; s1; s2; s3; s4; s5] 0).
Proof.
  intros H0 H1 H2 H3 H4 H5. cbn [fold_left pack].
  rewrite <- (Z.lxor_0_r c) at 1.
  destruct (polymodStep_shift 0 c 0 s0 ltac:(lia) ltac:(simpl; lia) H0) as [-> B0].
  destruct (polymodStep_shift 5 (polymodStep c 0) _ s1 ltac:(lia) B0 H1) as [-> B1].
  destruct (polymodStep_shift 10 (polymodStep (polymodStep c 0) 0) _ s2
              ltac:(lia) B1 H2) as [-> B2].
  destruct (polymodStep_shift 15 (polymodStep (polymodStep (polymodStep c 0) 0) 0) _ s3
              ltac:(lia) B2 H3) as [-> B3].
  destruct (polymodStep_shift 20
              (polymodStep (polymodStep (polymodStep (polymodStep c 0) 0) 0) 0) _ s4
              ltac:(lia) B3 H4) as [-> B4].
  destruct (polymodStep_shift 25
              (polymodStep (polymodStep (polymodStep (polymodStep
                 (polymodStep c 0) 0) 0) 0) 0) _ s5
              ltac:(lia) B4 H5) as [-> B5].
  reflexivity.
Qed.

(** Five bits cut off and put back. *)
Lemma regroup y :
  Z.lxor (Z.shiftl (Z.shiftr y 5) 5) (Z.land y 31) = y.
Proof.
  change 31 with (Z.ones 5). apply Z.bits_inj'. intros n Hn.
  rewrite Z.lxor_spec, Z.land_spec, Z.testbit_ones, Z.shiftl_spec by lia.
  destruct (Z.ltb_spec n 5) as [Hlt|Hge].
  - rewrite (Z.testbit_neg_r _ (n - 5)) by lia.
    replace (0 <=? n) with true by (symmetry; apply Z.leb_le; lia).
    simpl. rewrite andb_true_r. reflexivity.
  - rewrite Z.shiftr_spec by lia. replace (n - 5 + 5) with n by lia.
    rewrite andb_false_r, andb_false_r, xorb_false_r. reflexivity.
Qed.

Lemma pack_groups x :
  0 <= x < 2 ^ 30 ->
  pack [Z.land (Z.shiftr x 25) 31; Z.land (Z.shiftr x 20) 31;
        Z.land (Z.shiftr x 15) 31; Z.land (Z.shiftr x 10) 31;
        Z.land (Z.shiftr x 5) 31; Z.land (Z.shiftr x 0) 31] 0 = x.
Proof.
  intros Hx. cbn [pack fold_left].
  assert (H30 : 0 = Z.shiftr (Z.shiftr x 25) 5).
  { rewrite Z.shiftr_shiftr, Z.shiftr_div_pow2 by lia. simpl Z.add.
    symmetry. apply Z.div_small. lia. }
  rewrite H30 at 1. rewrite regroup.
  replace (Z.shiftr x 25) with (Z.shiftr (Z.shiftr x 20) 5)
    by (rewrite Z.shiftr_shiftr by lia; reflexivity).
  rewrite regroup.
  replace (Z.shiftr x 20) with (Z.shiftr (Z.shiftr x 15) 5)
    by (rewrite Z.shiftr_shiftr by lia; reflexivity).
  rewrite regroup.
  replace (Z.shiftr x 15) with (Z.shiftr (Z.shiftr x 10) 5)
    by (rewrite Z.shiftr_shiftr by lia; reflexivity).
  rewrite regroup.
  replace (Z.shiftr x 10) with (Z.shiftr (Z.shiftr x 5) 5)
    by (rewrite Z.shiftr_shiftr by lia; reflexivity).
  rewrite regroup.
  replace (Z.shiftr x 5) with (Z.shiftr (Z.shiftr x 0) 5)
    by (rewrite Z.shiftr_shiftr by lia; reflexivity).
  rewrite regroup. apply Z.shiftr_0_r.
Qed.

Lemma group_bound y : 0 <= Z.land y 31 < 32.
Proof.
  change 31 with (Z.ones 5). rewrite Z.land_ones by lia.
  change (2 ^ 5) with 32. apply Z.mod_pos_bound. lia.
Qed.

Lemma wrap8_group y : UInt8.wrap (Z.land y 31) = Z.land y 31.
Proof.
  unfold UInt8.wrap. apply Z.mod_small. pose proof (group_bound y). simpl. lia.
Qed.

Lemma bech32Checksum_groups hrp data :
  bech32Checksum hrp data
  = let x := Z.lxor (bech32Polymod ((bech32HRPExpand hrp ++ data)
                                    ++ [0; 0; 0; 0; 0; 0])%list) 1 in
    [Z.land (Z.shiftr x 25) 31; Z.land (Z.shiftr x 20) 31;
     Z.land (Z.shiftr x 15) 31; Z.land (Z.shiftr x 10) 31;
     Z.land (Z.shiftr x 5) 31; Z.land (Z.shiftr x 0) 31].
Proof.
  unfold bech32Checksum. cbv zeta. cbn [seq map]. rewrite !wrap8_group. reflexivity.
Qed.

Lemma HRPExpand_bytes hrp : Forall (fun v => 0 <= v < 2 ^ 30) (bech32HRPExpand hrp).
Proof.
  assert (Hw : forall z, 0 <= UInt8.wrap z < 2 ^ 30).
  { intros z. unfold UInt8.wrap. pose proof (Z.mod_pos_bound z (2 ^ 8) ltac:(lia)).
    simpl in *. lia. }
  unfold bech32HRPExpand. repeat apply Forall_app_2.
  - apply Forall_forall. intros v Hin.
    apply list_elem_of_In, in_map_iff in Hin as (c & <- & _). apply Hw.
  - constructor; [lia|constructor].
  - apply Forall_forall. intros v Hin.
    apply list_elem_of_In, in_map_iff in Hin as (c & <- & _). apply Hw.
Qed.

(** What [bech32Checksum] returns makes the data verify: the polymod
    of the expanded human-readable part, the data and the six checksum
    groups is 1, for every human-readable part of ASCII characters and
    all data bytes. *)
Theorem bech32Checksum_verifies (hrp : string) (data : list Z) :
  isASCII hrp -> Forall isByte data ->
  verifies hrp (data ++ bech32Checksum hrp data) /\
  length (bech32Checksum hrp data) = 6%nat /\
  Forall (fun v => 0 <= v < 32) (bech32Checksum hrp data).
Proof.
  intros _ Hdata.
  assert (Hvals : Forall (fun v => 0 <= v < 2 ^ 30) (bech32HRPExpand hrp ++ data)%list).
  { apply Forall_app_2; [apply HRPExpand_bytes|].
    eapply Forall_impl; [exact Hdata|]. unfold isByte. intros v Hv. lia. }
  rewrite bech32Checksum_groups. cbv zeta.
  set (P0 := bech32Polymod ((bech32HRPExpand hrp ++ data) ++ [0; 0; 0; 0; 0; 0])%list).
  assert (HP0 : 0 <= P0 < 2 ^ 30).
  { apply polymod_fold_bound; [lia|]. apply Forall_app_2; [exact Hvals|].
    repeat constructor; lia. }
  assert (Hx : 0 <= Z.lxor P0 1 < 2 ^ 30) by (apply lxor_bound; lia).
  split; [|split; [reflexivity|repeat constructor; apply group_bound]].
  unfold verifies, bech32Polymod.
  rewrite app_assoc, fold_left_app.
  rewrite polymod_six by apply group_bound.
  rewrite (pack_groups _ Hx), <- fold_left_app.
  fold (bech32Polymod ((bech32HRPExpand hrp ++ data) ++ [0; 0; 0; 0; 0; 0])%list).
  fold P0. rewrite <- Z.lxor_assoc, Z.lxor_nilpotent. reflexivity.
Qed.

Lemma bech32Checksum_verifies_witness :
  verifies "gonka" ([0; 31; 7; 12] ++ bech32Checksum "gonka" [0; 31; 7; 12]).
Proof.
  apply (bech32Checksum_verifies "gonka" [0; 31; 7; 12]).
  - unfold isASCII. vm_compute. repeat constructor.
  - unfold isByte. repeat constructor; lia.
Defined.

Lemma drainBits_five fuel : forall acc bits result,
  0 <= bits < 2 ^ 64 -> (Z.to_nat bits <= fuel)%nat ->
  exists extra,
    drainBits fuel 5 31 acc bits result = (bits mod 5, (result ++ extra)%list) /\
    Z.of_nat (length extra) = bits / 5 /\
    Forall (fun v => 0 <= v < 32) extra.
Proof.
  induction fuel as [|fuel IH]; intros acc bits result Hbits Hfuel.
  - assert (bits = 0) by lia. subst bits. exists []. simpl.
    rewrite app_nil_r. repeat split. constructor.
  - cbn [drainBits]. destruct (Z.leb_spec 5 bits) as [Hge|Hlt].
    + assert (Hw : UInt.wrap (bits - 5) = bits - 5)
        by (unfold UInt.wrap; apply Z.mod_small; lia).
      rewrite Hw, wrap8_group.
      destruct (IH acc (bits - 5)
                   (result ++ [Z.land (Z.shiftr acc (bits - 5)) 31])%list
                   ltac:(lia) ltac:(lia)) as (extra & Heq & Hlen & Hall).
      exists (Z.land (Z.shiftr acc (bits - 5)) 31 :: extra).
      assert (Hm : bits mod 5 = (bits - 5) mod 5)
        by (rewrite <- (Z.mod_add (bits - 5) 1 5) by lia; f_equal; lia).
      assert (Hd : bits / 5 = (bits - 5) / 5 + 1)
        by (rewrite <- (Z.div_add (bits - 5) 1 5) by lia; f_equal; lia).
      rewrite Heq, <- app_assoc, Hm, Hd. cbn [app length].
      split; [reflexivity|]. split; [lia|].
      constructor; [apply group_bound|exact Hall].
    + exists []. rewrite app_nil_r, Z.mod_small, Z.div_small by lia.
      repeat split. constructor.
Qed.

Lemma convertLoop_8_5 data : forall acc bits result,
  Forall isByte data -> 0 <= bits < 5 ->
  exists acc' bits' extra,
    convertLoop 8 5 31 data acc bits result = inr (acc', bits', (result ++ extra)%list) /\
    0 <= bits' < 5 /\
    5 * Z.of_nat (length extra) + bits' = bits + 8 * Z.of_nat (length data) /\
    Forall (fun v => 0 <= v < 32) extra.
Proof.
  induction data as [|b rest IH]; intros acc bits result Hall Hbits.
  - exists acc, bits, []. simpl. rewrite app_nil_r. repeat split; try lia. constructor.
  - apply Forall_cons in Hall as [Hb Hall]. unfold isByte in Hb.
    cbn [convertLoop].
    rewrite Z.shiftr_div_pow2, Z.div_small by (simpl; lia). cbn [Z.eqb negb].
    assert (Hw : UInt.wrap (bits + 8) = bits + 8)
      by (unfold UInt.wrap; apply Z.mod_small; lia).
    rewrite Hw.
    destruct (drainBits_five (Z.to_nat (bits + 8))
                (UInt32.wrap (Z.lor (UInt32.shl acc 8) b)) (bits + 8) result
                ltac:(lia) ltac:(lia)) as (extra1 & -> & Hlen1 & Hall1).
    pose proof (Z.mod_pos_bound (bits + 8) 5 ltac:(lia)) as Hmod.
    destruct (IH (UInt32.wrap (Z.lor (UInt32.shl acc 8) b)) ((bits + 8) mod 5)
                 (result ++ extra1)%list Hall Hmod)
      as (acc' & bits' & extra & -> & Hb' & Hlen & Hall').
    exists acc', bits', (extra1 ++ extra)%list.
    rewrite <- app_assoc. split; [reflexivity|]. split; [exact Hb'|].
    split; [|apply Forall_app_2; assumption].
    rewrite length_app, Nat2Z.inj_add. cbn [length].
    pose proof (Z.div_mod (bits + 8) 5 ltac:(lia)). lia.
Qed.

Lemma encodeLoop_groups combined : forall result,
  Forall (fun v => 0 <= v < 32) combined ->
  encodeLoop result combined
  = inl (String.string_of_list_ascii (result ++ map charAt combined)%list).
Proof.
  induction combined as [|v rest IH]; intros result Hall.
  - simpl. rewrite app_nil_r. reflexivity.
  - apply Forall_cons in Hall as [Hv Hall]. cbn [encodeLoop map].
    change (Z.of_nat (String.length bech32Charset)) with 32.
    destruct (Z.leb_spec 32 v); [lia|].
    rewrite IH by exact Hall. rewrite <- app_assoc. reflexivity.
Qed.

Lemma string_of_list_ascii_app (l1 l2 : list Ascii.ascii) :
  String.string_of_list_ascii (l1 ++ l2)%list
  = String.string_of_list_ascii l1 ++ String.string_of_list_ascii l2.
Proof. induction l1 as [|a l1 IH]; simpl; [reflexivity|]. rewrite IH. reflexivity. Qed.

Lemma string_of_list_ascii_length (l : list Ascii.ascii) :
  String.length (String.string_of_list_ascii l) = length l.
Proof. induction l as [|a l IH]; simpl; [reflexivity|]. rewrite IH. reflexivity. Qed.

(** The encoding of a hash as an address cannot fail and has a fixed
    shape: [convertBits(data, 8, 5, true)] regroups any [n] bytes into
    the [8n/5], rounded up, five-bit groups, and [bech32Encode] of
    these returns the human-readable part, the separator [1], and one
    character of the bech32 alphabet for each group and for each of
    the six checksum groups, so that a 20-byte hash under the part
    [gonka] gives an address of 44 characters. *)
Theorem bech32_address_shape (hrp : string) (data : list Z) :
  isASCII hrp -> Forall isByte data ->
  exists data5,
    convertBits data 8 5 true = inl data5 /\
    Z.of_nat (length data5) = (8 * Z.of_nat (length data) + 4) / 5 /\
    Forall (fun v => 0 <= v < 32) data5 /\
    let body := String.string_of_list_ascii
                  (map charAt (data5 ++ bech32Checksum hrp data5)) in
    bech32Encode hrp data5 = inl (hrp ++ "1" ++ body) /\
    Z.of_nat (String.length body) = (8 * Z.of_nat (length data) + 4) / 5 + 6.
Proof.
  intros _ Hdata. unfold convertBits.
  change (UInt32.wrap (UInt32.shl 1 5 - 1)) with 31.
  destruct (convertLoop_8_5 data 0 0 [] Hdata ltac:(lia))
    as (acc & bits & out & -> & Hbits & Hlen & Hall).
  cbn [app]. cbv iota beta.
  set (data5 := if 0 <? bits
                then (out ++ [UInt8.wrap (Z.land (UInt32.shl acc (UInt.wrap (5 - bits))) 31)])%list
                else out).
  assert (H5 : Forall (fun v => 0 <= v < 32) data5 /\
               Z.of_nat (length data5) = (8 * Z.of_nat (length data) + 4) / 5).
  { subst data5. destruct (Z.ltb_spec 0 bits) as [Hpos|Hzero].
    - split.
      + apply Forall_app_2; [exact Hall|]. rewrite wrap8_group.
        constructor; [apply group_bound|constructor].
      + rewrite length_app, Nat2Z.inj_add. cbn [length].
        apply (Z.div_unique _ 5 _ (bits - 1)); lia.
    - split; [exact Hall|].
      apply (Z.div_unique _ 5 _ 4); lia. }
  destruct H5 as [Hall5 Hlen5].
  exists data5. split; [subst data5; destruct (0 <? bits); reflexivity|].
  split; [exact Hlen5|]. split; [exact Hall5|]. cbv zeta.
  assert (Hcs : length (bech32Checksum hrp data5) = 6%nat /\
                Forall (fun v => 0 <= v < 32) (bech32Checksum hrp data5)).
  { rewrite bech32Checksum_groups. cbv zeta.
    split; [reflexivity|repeat constructor; apply group_bound]. }
  destruct Hcs as [Hclen Hcall].
  split.
  - unfold bech32Encode. cbv zeta.
    rewrite encodeLoop_groups by (apply Forall_app_2; assumption).
    rewrite <- !app_assoc, !string_of_list_ascii_app.
    rewrite String.string_of_list_ascii_of_string. reflexivity.
  - rewrite string_of_list_ascii_length, length_map, length_app, Hclen, Nat2Z.inj_add.
    rewrite Hlen5. reflexivity.
Qed.

Lemma bech32_address_shape_witness :
  exists data5 body,
    convertBits Bech32Samples.digest 8 5 true = inl data5 /\
    bech32Encode "gonka" data5 = inl ("gonka1" ++ body) /\
    String.length body = 38%nat.
Proof.
  destruct (bech32_address_shape "gonka" Bech32Samples.digest)
    as (data5 & Hconv & _ & _ & Henc & Hlen).
  - unfold isASCII. vm_compute. repeat constructor.
  - unfold isByte, Bech32Samples.digest. repeat constructor; lia.
  - exists data5, (String.string_of_list_ascii
                     (map charAt (data5 ++ bech32Checksum "gonka" data5))).
    split; [exact Hconv|]. split; [exact Henc|].
    apply Nat2Z.inj. rewrite Hlen. vm_compute. reflexivity.
Defined.

End Bech32More.

(** ** Regrouping bits *)

Section ConvertBitsMore.
Import Errors Gonka Bech32Spec.

Lemma pow2_pos k : 0 <= k -> 0 < 2 ^ k.
Proof. intros Hk. apply Z.pow_pos_nonneg; lia. Qed.

(** The low [k + t] bits are the [t] bits above the low [k], and the
    low [k]. *)
Lemma split_mod acc k t :
  0 <= k -> 0 <= t ->
  acc mod 2 ^ (k + t) = (acc / 2 ^ k) mod 2 ^ t * 2 ^ k + acc mod 2 ^ k.
Proof.
  intros Hk Ht. symmetry. rewrite Z.pow_add_r by assumption.
  pose proof (pow2_pos k Hk) as HP. pose proof (pow2_pos t Ht) as HT.
  apply (Z.mod_unique _ _ (acc / 2 ^ k / 2 ^ t)).
  - left. pose proof (Z.mod_pos_bound (acc / 2 ^ k) (2 ^ t) HT).
    pose proof (Z.mod_pos_bound acc (2 ^ k) HP). nia.
  - pose proof (Z.div_mod acc (2 ^ k) ltac:(lia)) as H1.
    pose proof (Z.div_mod (acc / 2 ^ k) (2 ^ t) ltac:(lia)) as H2. nia.
Qed.

Lemma lor_disjoint X b f :
  0 <= f -> X mod 2 ^ f = 0 -> 0 <= b < 2 ^ f -> Z.lor X b = X + b.
Proof.
  intros Hf HX Hb.
  assert (Hland : Z.land X b = 0).
  { apply Z.bits_inj'. intros n Hn. rewrite Z.land_spec, Z.bits_0.
    destruct (Z.ltb_spec n f) as [Hlt|Hge].
    - rewrite <- (Z.mod_pow2_bits_low X f n Hlt), HX, Z.bits_0. reflexivity.
    - rewrite <- (Z.mod_small b (2 ^ f) Hb), Z.mod_pow2_bits_high by lia.
      apply andb_false_r. }
  rewrite (Z.add_nocarry_lxor _ _ Hland). symmetry. apply Z.lxor_lor. exact Hland.
Qed.

Lemma pow2_divide a b : 0 <= a <= b -> (2 ^ a | 2 ^ b).
Proof.
  intros Hab. exists (2 ^ (b - a)). rewrite <- Z.pow_add_r by lia. f_equal. lia.
Qed.

(** A group of [f] bits taken into the accumulator stands below the
    bits that were pending. *)
Lemma absorb acc b bits f :
  0 <= bits -> 0 <= f -> bits + f <= 32 -> 0 <= b < 2 ^ f ->
  UInt32.wrap (Z.lor (UInt32.shl acc f) b) mod 2 ^ (bits + f)
  = acc mod 2 ^ bits * 2 ^ f + b.
Proof.
  intros Hbits Hf Hsum Hb. unfold UInt32.wrap, UInt32.shl, UInt32.wrap.
  pose proof (pow2_pos f Hf) as HF. pose proof (pow2_pos bits Hbits) as HB.
  rewrite Z.mod_mod_divide by (apply pow2_divide; lia).
  rewrite lor_disjoint with (f := f); [|exact Hf| |exact Hb].
  2: { rewrite Z.mod_mod_divide by (apply pow2_divide; lia).
       rewrite Z.shiftl_mul_pow2 by exact Hf. apply Z.mod_mul. lia. }
  rewrite Z.add_mod by lia.
  rewrite Z.mod_mod_divide by (apply pow2_divide; lia).
  rewrite <- Z.add_mod by lia.
  rewrite Z.shiftl_mul_pow2 by exact Hf.
  symmetry. rewrite Z.pow_add_r by assumption.
  apply (Z.mod_unique _ _ (acc / 2 ^ bits)).
  - left. pose proof (Z.mod_pos_bound acc (2 ^ bits) HB). nia.
  - pose proof (Z.div_mod acc (2 ^ bits) ltac:(lia)). nia.
Qed.

Lemma valFrom_app w l1 l2 a : valFrom w (l1 ++ l2) a = valFrom w l2 (valFrom w l1 a).
Proof. unfold valFrom. apply fold_left_app. Qed.

Lemma ones_group t y :
  0 <= t <= 8 ->
  UInt8.wrap (Z.land y (Z.ones t)) = y mod 2 ^ t /\ 0 <= y mod 2 ^ t < 2 ^ t.
Proof.
  intros Ht. pose proof (Z.mod_pos_bound y (2 ^ t) (pow2_pos t ltac:(lia))) as Hb.
  split; [|exact Hb]. rewrite Z.land_ones by lia. unfold UInt8.wrap.
  apply Z.mod_small. split; [lia|].
  apply Z.lt_le_trans with (2 ^ t); [lia|]. apply Z.pow_le_mono_r; lia.
Qed.

(** The inner loop moves whole groups from the pending bits to the
    result and keeps what the two hold together. *)
Lemma drainBits_inv fuel : forall t acc bits result,
  1 <= t <= 8 -> 0 <= bits < 2 ^ 64 -> (Z.to_nat bits <= fuel)%nat ->
  exists bits' extra,
    drainBits fuel t (Z.ones t) acc bits result = (bits', (result ++ extra)%list) /\
    0 <= bits' < t /\
    t * Z.of_nat (length extra) + bits' = bits /\
    Forall (fun v => 0 <= v < 2 ^ t) extra /\
    forall a, valFrom t extra a * 2 ^ bits' + acc mod 2 ^ bits'
              = a * 2 ^ bits + acc mod 2 ^ bits.
Proof.
  induction fuel as [|fuel IH]; intros t acc bits result Ht Hbits Hfuel.
  - assert (bits = 0) by lia. subst bits. exists 0, []. simpl.
    rewrite app_nil_r. repeat split; try lia. constructor.
  - cbn [drainBits]. destruct (Z.leb_spec t bits) as [Hge|Hlt].
    + assert (Hw : UInt.wrap (bits - t) = bits - t)
        by (unfold UInt.wrap; apply Z.mod_small; lia).
      rewrite Hw.
      destruct (ones_group t (Z.shiftr acc (bits - t)) ltac:(lia)) as [-> Hg].
      rewrite Z.shiftr_div_pow2 in Hg |- * by lia.
      set (g := (acc / 2 ^ (bits - t)) mod 2 ^ t) in *.
      destruct (IH t acc (bits - t) (result ++ [g])%list Ht ltac:(lia) ltac:(lia))
        as (bits' & extra & Heq & Hb' & Hlen & Hall & Hval).
      exists bits', (g :: extra). rewrite Heq, <- app_assoc. cbn [app length].
      split; [reflexivity|]. split; [exact Hb'|]. split; [lia|].
      split; [constructor; assumption|].
      intros a. change (valFrom t (g :: extra) a) with (valFrom t extra (a * 2 ^ t + g)).
      rewrite Hval.
      replace bits with (bits - t + t) at 3 4 by lia.
      rewrite (split_mod acc (bits - t) t) by lia. fold g.
      rewrite Z.pow_add_r by lia. ring.
    + exists bits, []. rewrite app_nil_r. cbn [length valFrom fold_left].
      repeat split; try lia. constructor.
Qed.

(** The loop over the data regroups the bits: the groups of the
    result followed by the pending bits are, as one number, the
    groups of the data. *)
Lemma convertLoop_inv data : forall f t acc bits result,
  1 <= f <= 8 -> 1 <= t <= 8 ->
  Forall (fun b => 0 <= b < 2 ^ f) data -> 0 <= bits < t ->
  exists acc' bits' extra,
    convertLoop f t (Z.ones t) data acc bits result
    = inr (acc', bits', (result ++ extra)%list) /\
    0 <= bits' < t /\
    t * Z.of_nat (length extra) + bits' = bits + f * Z.of_nat (length data) /\
    Forall (fun v => 0 <= v < 2 ^ t) extra /\
    forall a, valFrom t extra a * 2 ^ bits' + acc' mod 2 ^ bits'
              = valFrom f data (a * 2 ^ bits + acc mod 2 ^ bits).
Proof.
  induction data as [|b rest IH]; intros f t acc bits result Hf Ht Hall Hbits.
  - exists acc, bits, []. rewrite app_nil_r. cbn [length valFrom fold_left].
    repeat split; try lia. constructor.
  - apply Forall_cons in Hall as [Hb Hall]. cbn [convertLoop].
    rewrite Z.shiftr_div_pow2, Z.div_small by lia. cbn [Z.eqb negb].
    assert (Hw : UInt.wrap (bits + f) = bits + f)
      by (unfold UInt.wrap; apply Z.mod_small; lia).
    rewrite Hw.
    set (acc1 := UInt32.wrap (Z.lor (UInt32.shl acc f) b)).
    destruct (drainBits_inv (Z.to_nat (bits + f)) t acc1 (bits + f) result
                Ht ltac:(lia) ltac:(lia))
      as (bits2 & extra1 & -> & Hb2 & Hlen1 & Hall1 & Hval1).
    destruct (IH f t acc1 bits2 (result ++ extra1)%list Hf Ht Hall Hb2)
      as (acc' & bits' & extra & -> & Hb' & Hlen & Hall' & Hval).
    exists acc', bits', (extra1 ++ extra)%list. rewrite <- app_assoc.
    split; [reflexivity|]. split; [exact Hb'|]. split.
    { rewrite length_app, Nat2Z.inj_add. cbn [length]. lia. }
    split; [apply Forall_app_2; assumption|].
    intros a. rewrite valFrom_app, Hval, Hval1.
    change (valFrom f (b :: rest) (a * 2 ^ bits + acc mod 2 ^ bits))
      with (valFrom f rest ((a * 2 ^ bits + acc mod 2 ^ bits) * 2 ^ f + b)).
    f_equal. subst acc1. rewrite absorb by lia.
    rewrite Z.pow_add_r by lia. ring.
Qed.

(** Lists of equally many groups that make the same number are the
    same list. *)
Lemma valFrom_inj w l1 : forall l2 a1 a2,
  0 <= w -> length l1 = length l2 ->
  Forall (fun v => 0 <= v < 2 ^ w) l1 -> Forall (fun v => 0 <= v < 2 ^ w) l2 ->
  valFrom w l1 a1 = valFrom w l2 a2 -> a1 = a2 /\ l1 = l2.
Proof.
  induction l1 as [|x l1 IH]; intros [|y l2] a1 a2 Hw Hlen H1 H2 Hval;
    try discriminate.
  - split; [exact Hval|reflexivity].
  - apply Forall_cons in H1 as [Hx H1]. apply Forall_cons in H2 as [Hy H2].
    injection Hlen as Hlen.
    change (valFrom w l1 (a1 * 2 ^ w + x) = valFrom w l2 (a2 * 2 ^ w + y)) in Hval.
    destruct (IH l2 _ _ Hw Hlen H1 H2 Hval) as [Ha ->].
    pose proof (pow2_pos w Hw) as HP.
    assert (a1 = a2) by nia. subst a2. split; [reflexivity|]. f_equal. lia.
Qed.

(** The low five or eight bits of the accumulator shifted up by the
    padding are the pending bits shifted up. *)
Lemma pad_group acc bits t :
  0 <= bits <= t -> t <= 8 ->
  Z.land (UInt32.shl acc (UInt.wrap (t - bits))) (Z.ones t)
  = acc mod 2 ^ bits * 2 ^ (t - bits).
Proof.
  intros Hbits Ht.
  assert (Hw : UInt.wrap (t - bits) = t - bits)
    by (unfold UInt.wrap; apply Z.mod_small; lia).
  rewrite Hw, Z.land_ones by lia. unfold UInt32.shl, UInt32.wrap.
  rewrite Z.mod_mod_divide by (apply pow2_divide; lia).
  rewrite Z.shiftl_mul_pow2 by lia.
  replace t with (bits + (t - bits)) at 2 by lia.
  rewrite Z.pow_add_r by lia.
  apply Z.mul_mod_distr_r; apply Z.neq_sym, Z.lt_neq, pow2_pos; lia.
Qed.

(** Regrouping bytes into five-bit groups loses nothing:
    [convertBits(data, 8, 5, true)] succeeds on every byte string, and
    [convertBits] of its result from 5 to 8 bits without padding
    succeeds too, passing both checks of the padding, and returns the
    bytes. *)
Theorem convertBits_round_trip (data : list Z) :
  Forall isByte data ->
  exists data5,
    convertBits data 8 5 true = inl data5 /\
    convertBits data5 5 8 false = inl data.
Proof.
  intros Hdata. unfold convertBits at 1.
  change (UInt32.wrap (UInt32.shl 1 5 - 1)) with (Z.ones 5).
  destruct (convertLoop_inv data 8 5 0 0 [] ltac:(lia) ltac:(lia) Hdata ltac:(lia))
    as (acc & bits & out & -> & Hbits & Hlen & Hall & Hval).
  cbn [app]. cbv iota beta.
  specialize (Hval 0). change (0 * 2 ^ 0 + 0 mod 2 ^ 0) with 0 in Hval.
  set (N := valFrom 8 data 0) in *.
  (* the groups, the padding, and the number they make *)
  set (data5 := if 0 <? bits
                then (out ++ [UInt8.wrap (Z.land (UInt32.shl acc (UInt.wrap (5 - bits)))
                                                 (Z.ones 5))])%list
                else out).
  assert (H5 : exists pad,
             0 <= pad < 5 /\
             5 * Z.of_nat (length data5) = 8 * Z.of_nat (length data) + pad /\
             Forall (fun v => 0 <= v < 2 ^ 5) data5 /\
             valFrom 5 data5 0 = N * 2 ^ pad).
  { subst data5. destruct (Z.ltb_spec 0 bits) as [Hpos|Hzero].
    - exists (5 - bits). rewrite pad_group by lia.
      assert (Hg : 0 <= acc mod 2 ^ bits * 2 ^ (5 - bits) < 2 ^ 5).
      { pose proof (Z.mod_pos_bound acc (2 ^ bits) (pow2_pos bits ltac:(lia))).
        pose proof (pow2_pos (5 - bits) ltac:(lia)).
        replace 5 with (bits + (5 - bits)) at 3 by lia.
        rewrite Z.pow_add_r by lia. nia. }
      assert (Hw8 : UInt8.wrap (acc mod 2 ^ bits * 2 ^ (5 - bits))
                    = acc mod 2 ^ bits * 2 ^ (5 - bits)).
      { unfold UInt8.wrap. apply Z.mod_small.
        change (2 ^ 5) with 32 in Hg. change (2 ^ 8) with 256. lia. }
      rewrite Hw8.
      split; [lia|]. split; [rewrite length_app, Nat2Z.inj_add; cbn [length]; lia|].
      split; [apply Forall_app_2; [exact Hall|constructor; [exact Hg|constructor]]|].
      rewrite valFrom_app. cbn [valFrom fold_left]. fold (valFrom 5 out 0).
      rewrite <- Hval.
      replace 5 with (bits + (5 - bits)) at 2 by lia.
      rewrite Z.pow_add_r by lia. ring.
    - exists 0. assert (bits = 0) by lia. subst bits.
      rewrite Z.mod_1_r in Hval. simpl in Hval |- *.
      split; [lia|]. split; [lia|]. split; [exact Hall|]. lia. }
  destruct H5 as (pad & Hpad & Hlen5 & Hall5 & Hval5).
  exists data5. split; [subst data5; destruct (0 <? bits); reflexivity|].
  clearbody data5. clear Hval Hlen Hall Hbits out acc bits.
  (* back *)
  unfold convertBits. change (UInt32.wrap (UInt32.shl 1 8 - 1)) with (Z.ones 8).
  destruct (convertLoop_inv data5 5 8 0 0 [] ltac:(lia) ltac:(lia) Hall5 ltac:(lia))
    as (acc & bits & out & -> & Hbits & Hlen & Hall & Hval).
  cbn [app]. cbv iota beta.
  specialize (Hval 0). change (0 * 2 ^ 0 + 0 mod 2 ^ 0) with 0 in Hval.
  rewrite Hval5 in Hval.
  assert (Hb : bits = pad /\ length out = length data) by lia.
  destruct Hb as [-> Hlen']. clear Hlen.
  pose proof (Z.mod_pos_bound acc (2 ^ pad) (pow2_pos pad ltac:(lia))) as Hr.
  pose proof (pow2_pos pad ltac:(lia)) as HP.
  assert (Hzero : acc mod 2 ^ pad = 0 /\ valFrom 8 out 0 = N).
  { assert (valFrom 8 out 0 = N) by nia. split; [nia|assumption]. }
  destruct Hzero as [Hzero HN].
  destruct (Z.leb_spec 5 pad) as [Hbad|_]; [lia|].
  rewrite pad_group, Hzero by lia. cbn [Z.mul Z.eqb negb].
  f_equal. unfold N in HN.
  apply (valFrom_inj 8 out data 0 0 ltac:(lia) Hlen' Hall) in HN as [_ ->];
    [reflexivity|].
  eapply Forall_impl; [exact Hdata|]. unfold isByte. intros v Hv. simpl. lia.
Qed.

Lemma convertBits_round_trip_witness :
  exists data5,
    convertBits Bech32Samples.digest 8 5 true = inl data5 /\
    convertBits data5 5 8 false = inl Bech32Samples.digest.
Proof.
  apply (convertBits_round_trip Bech32Samples.digest).
  unfold isByte, Bech32Samples.digest. repeat constructor; lia.
Defined.

End ConvertBitsMore.
